(** * Chunking engine of the documentation RAG processor

    A shallow embedding of the chunking code of [rag_processor.py]
    ([RagProcessor]) and of the older [gk8_rag_processor.py]
    ([GK8RagProcessor]), together with the properties of the grouping,
    splitting, overlap, validation and re-indexing stages.

    Python [str] values are embedded as [string]; one [ascii] stands for one
    code point below 256, so [len] is [String.length].  Python [int]s are
    [Z].  The token estimator is a parameter of the engine (tiktoken when it
    is installed, the character-ratio fallback otherwise). *)

From Stdlib Require Import ZArith List Bool Lia Ascii String.
From Stdlib Require Import Numbers.DecimalString Numbers.DecimalZ.
Import ListNotations.

Open Scope string_scope.
Open Scope Z_scope.

(** ** The [str] methods used by the chunker *)

Module PyStr.

(** [str.isspace] on one code point below 256: TAB..CR, FS..US, SPACE, NEL
    and NBSP. *)
Definition is_space (c : ascii) : bool :=
  let n := N_of_ascii c in
  (((9 <=? n) && (n <=? 13)) || ((28 <=? n) && (n <=? 32))
   || (n =? 133) || (n =? 160))%N.

Definition is_empty (s : string) : bool :=
  match s with EmptyString => true | String _ _ => false end.

(** [len(s)] *)
Definition len (s : string) : Z := Z.of_nat (String.length s).

Fixpoint lstrip (s : string) : string :=
  match s with
  | EmptyString => EmptyString
  | String c r => if is_space c then lstrip r else s
  end.

Fixpoint rstrip (s : string) : string :=
  match s with
  | EmptyString => EmptyString
  | String c r =>
      let r' := rstrip r in
      if is_space c && is_empty r' then EmptyString else String c r'
  end.

(** [s.strip()] *)
Definition strip (s : string) : string := rstrip (lstrip s).

(** [s.startswith(p)] *)
Definition startswith (s p : string) : bool := String.prefix p s.

(** [sub in s] *)
Fixpoint contains (sub s : string) : bool :=
  String.prefix sub s
  || match s with
     | EmptyString => false
     | String _ r => contains sub r
     end.

(** Scanning for the non-overlapping occurrences of a non-empty separator,
    leftmost first, as [str.split(sep)] and [str.count(sep)] do.  [skip] is
    the number of characters of an occurrence already matched that are still
    to be passed over.  The result of [split_go] is the part under
    construction and the parts after it. *)
Fixpoint split_go (sep : string) (skip : nat) (s : string)
  : string * list string :=
  match s with
  | EmptyString => (EmptyString, [])
  | String c r =>
      match skip with
      | S k => split_go sep k r
      | O =>
          if String.prefix sep s then
            let (p, ps) := split_go sep (String.length sep - 1) r in
            (EmptyString, p :: ps)
          else
            let (p, ps) := split_go sep O r in
            (String c p, ps)
      end
  end.

(** [s.split(sep)] for a non-empty [sep] *)
Definition split (sep s : string) : list string :=
  let (p, ps) := split_go sep O s in p :: ps.

Fixpoint count_go (sep : string) (skip : nat) (s : string) : Z :=
  match s with
  | EmptyString => 0
  | String c r =>
      match skip with
      | S k => count_go sep k r
      | O =>
          if String.prefix sep s
          then 1 + count_go sep (String.length sep - 1) r
          else count_go sep O r
      end
  end.

(** [s.count(sep)] for a non-empty [sep] *)
Definition count (sep s : string) : Z := count_go sep O s.

Definition cons_word (w : string) (ws : list string) : list string :=
  if is_empty w then ws else w :: ws.

(** The word under construction and the words after it. *)
Fixpoint words_go (s : string) : string * list string :=
  match s with
  | EmptyString => (EmptyString, [])
  | String c r =>
      let (w, ws) := words_go r in
      if is_space c then (EmptyString, cons_word w ws) else (String c w, ws)
  end.

(** [s.split()]: the maximal runs of non-whitespace characters *)
Definition split_ws (s : string) : list string :=
  let (w, ws) := words_go s in cons_word w ws.

(** [sep.join(l)] *)
Definition join (sep : string) (l : list string) : string :=
  String.concat sep l.

(** [l[i:]] for a list, with Python's treatment of a negative start. *)
Definition slice_from {A} (i : Z) (l : list A) : list A :=
  if i <? 0
  then skipn (Z.to_nat (Z.max 0 (Z.of_nat (List.length l) + i))) l
  else skipn (Z.to_nat i) l.

(** [c * n] for a one-character string *)
Fixpoint replicate (n : nat) (c : ascii) : string :=
  match n with
  | O => EmptyString
  | S k => String c (replicate k c)
  end.

(** [str(n)] for an integer *)
Definition str_of_int (n : Z) : string :=
  NilEmpty.string_of_int (Z.to_int n).

End PyStr.

(** Line feed, and the blank-line separator the chunker inserts. *)
Definition LF : string := String (ascii_of_nat 10) EmptyString.
Definition BLANK : string := LF ++ LF.

(** The fenced-code-block delimiter. *)
Definition FENCE : string := "```".

(** ** Data model *)

(** An entry of the list returned by [extract_sections] (the ['element']
    key, a parse tree, is not read by the chunker). *)
Record Section_ := mkSection {
  level : Z;
  title : string;
  content : string
}.

(** The chunking thresholds held by the processor object. *)
Record Config := mkConfig {
  CHUNK_SIZE_MIN : Z;
  CHUNK_SIZE_TARGET : Z;
  CHUNK_SIZE_MAX : Z;
  CHUNK_OVERLAP : Z
}.

(** A chunk candidate: the dict with keys ['content'], ['sections'] and
    ['token_count']. *)
Record Chunk := mkChunk {
  chunk_content : string;
  chunk_sections : list string;
  token_count : Z
}.

(** [int(len(text) / 3.75)], the estimate used when tiktoken is absent.
    The quotient is taken in floating point and truncated; for every length
    below two million it is the integer quotient of [4 * len] by [15]. *)
Definition fallback_estimate_tokens (text : string) : Z :=
  4 * PyStr.len text / 15.

(** ** Grouping *)

Definition has_code (s : Section_) : bool := PyStr.contains FENCE (content s).

(** [_is_major_boundary(current_section, previous_section)];
    [None] is the argument passed for the first section. *)
Definition _is_major_boundary (current_section : Section_)
    (previous_section : option Section_) : bool :=
  if level current_section <=? 2 then true
  else
    match previous_section with
    | Some prev =>
        if negb (Bool.eqb (has_code prev) (has_code current_section))
        then true else false
    | None => false
    end.

(** The loop of [_group_related_sections]: [prev] is [sections[i-1]] (or
    [None] when [i = 0]), [groups] and [current_group] are the two
    accumulators. *)
Fixpoint group_loop (prev : option Section_) (sections : list Section_)
    (groups : list (list Section_)) (current_group : list Section_)
  : list (list Section_) * list Section_ :=
  match sections with
  | [] => (groups, current_group)
  | section :: rest =>
      if _is_major_boundary section prev then
        let groups' :=
          match current_group with
          | [] => groups
          | _ :: _ => (groups ++ [current_group])%list
          end in
        group_loop (Some section) rest groups' [section]
      else
        group_loop (Some section) rest groups
                   (current_group ++ [section])%list
  end.

Definition _group_related_sections (sections : list Section_)
  : list (list Section_) :=
  let (groups, current_group) := group_loop None sections [] [] in
  match current_group with
  | [] => groups
  | _ :: _ => (groups ++ [current_group])%list
  end.

(** ** Chunk construction, splitting and validation ([RagProcessor]) *)

(** The dict stored under ['metadata']: a copy of the caller's metadata
    (passed through, type [M]) extended with three keys. *)
Record Metadata (M : Type) := mkMetadata {
  page : M;
  chunk_index : Z;
  total_chunks : Z;
  section_titles : list string
}.
Arguments mkMetadata {M}.
Arguments page {M}.
Arguments chunk_index {M}.
Arguments total_chunks {M}.
Arguments section_titles {M}.

(** A chunk after the ['metadata'] key has been set. *)
Record FinalChunk (M : Type) := mkFinal {
  candidate : Chunk;
  metadata : Metadata M
}.
Arguments mkFinal {M}.
Arguments candidate {M}.
Arguments metadata {M}.

(** The running buffer of [_split_large_group] and the chunks emitted so
    far. *)
Record SplitState := mkSplit {
  chunks : list Chunk;
  current_chunk_content : string;
  current_chunk_sections : list string;
  current_tokens : Z
}.

Definition is_titled (section : Section_) : bool :=
  negb (String.eqb (title section) "Content").

Section Engine.

Variable cfg : Config.
Variable estimate_tokens : string -> Z.

(** [_get_overlap_content] *)
Definition _get_overlap_content (content : string) : string :=
  let words := PyStr.split_ws content in
  let overlap_words := CHUNK_OVERLAP cfg * 4 / 5 in
  if Z.of_nat (List.length words) >? overlap_words
  then PyStr.join " " (PyStr.slice_from (- overlap_words) words)
  else content.

(** What one section adds to a rendered text:
    ["\n\n# {title}\n\n{content}"], or ["\n\n{content}"] for the untitled
    section. *)
Definition rendered (section : Section_) : string :=
  if is_titled section
  then BLANK ++ "# " ++ title section ++ BLANK ++ content section
  else BLANK ++ content section.

(** [_create_chunk_from_sections] *)
Definition _create_chunk_from_sections (sections : list Section_) : Chunk :=
  let content :=
    fold_left (fun acc section => acc ++ rendered section) sections "" in
  let section_titles := map title sections in
  mkChunk (PyStr.strip content) section_titles (estimate_tokens content).

(** The dict appended to [chunks] when the buffer is saved. *)
Definition saved (st : SplitState) : Chunk :=
  mkChunk (PyStr.strip (current_chunk_content st))
          (current_chunk_sections st) (current_tokens st).

(** One fenced block [section_parts[i]], [i] odd. *)
Definition add_code_block (section : Section_) (part : string)
    (st : SplitState) : SplitState :=
  let code_block := FENCE ++ part ++ FENCE in
  let code_tokens := estimate_tokens code_block in
  if current_tokens st + code_tokens >? CHUNK_SIZE_MAX cfg then
    let chunks' :=
      if negb (PyStr.is_empty (PyStr.strip (current_chunk_content st)))
      then (chunks st ++ [saved st])%list
      else chunks st in
    let content' :=
      "# " ++ title section ++ " (continued)" ++ BLANK ++ code_block in
    mkSplit chunks' content' [title section] (estimate_tokens content')
  else
    mkSplit (chunks st)
            (current_chunk_content st ++ BLANK ++ code_block)
            (current_chunk_sections st)
            (current_tokens st + code_tokens).

(** The text [section_parts[i + 1]] that follows a fenced block. *)
Definition add_text_after (text_after : string) (st : SplitState)
  : SplitState :=
  let text_tokens := estimate_tokens text_after in
  if current_tokens st + text_tokens <=? CHUNK_SIZE_MAX cfg then
    mkSplit (chunks st)
            (current_chunk_content st ++ BLANK ++ text_after)
            (current_chunk_sections st)
            (current_tokens st + text_tokens)
  else st.

(** [for i in range(1, len(section_parts), 2)], on the parts from index
    [1] on. *)
Fixpoint code_blocks_loop (section : Section_) (parts : list string)
    (st : SplitState) : SplitState :=
  match parts with
  | [] => st
  | part :: after =>
      let st1 := add_code_block section part st in
      match after with
      | [] => st1
      | text_after :: parts' =>
          code_blocks_loop section parts' (add_text_after text_after st1)
      end
  end.

(** The branch of the loop body taken by a section holding a fence. *)
Definition split_code_section (section : Section_) (st : SplitState)
  : SplitState :=
  let st1 :=
    if negb (PyStr.is_empty (current_chunk_content st))
       && (current_tokens st >=? CHUNK_SIZE_MIN cfg)
    then mkSplit (chunks st ++ [saved st])%list "" [] 0
    else st in
  let section_parts := PyStr.split FENCE (content section) in
  let text_before := hd EmptyString section_parts in
  let content' :=
    if is_titled section
    then "# " ++ title section ++ BLANK ++ text_before
    else text_before in
  code_blocks_loop section (tl section_parts)
    (mkSplit (chunks st1) content' [title section]
             (estimate_tokens content')).

(** The branch taken by a section without a fence. *)
Definition split_text_section (section : Section_) (st : SplitState)
  : SplitState :=
  let section_tokens := estimate_tokens (content section) in
  if current_tokens st + section_tokens >? CHUNK_SIZE_TARGET cfg then
    if current_tokens st >=? CHUNK_SIZE_MIN cfg then
      let overlap_content :=
        _get_overlap_content (current_chunk_content st) in
      let content' := overlap_content ++ rendered section in
      mkSplit (chunks st ++ [saved st])%list content' [title section]
              (estimate_tokens content')
    else
      mkSplit (chunks st)
              (current_chunk_content st ++ rendered section)
              (current_chunk_sections st ++ [title section])%list
              (current_tokens st + section_tokens)
  else
    mkSplit (chunks st)
            (current_chunk_content st ++ rendered section)
            (current_chunk_sections st ++ [title section])%list
            (current_tokens st + section_tokens).

Definition split_section (st : SplitState) (section : Section_)
  : SplitState :=
  if has_code section
  then split_code_section section st
  else split_text_section section st.

(** The end of [_split_large_group]: the last buffer is saved when its
    trimmed text is not empty. *)
Definition finish (st : SplitState) : list Chunk :=
  if negb (PyStr.is_empty (PyStr.strip (current_chunk_content st)))
  then (chunks st ++ [saved st])%list
  else chunks st.

(** [_split_large_group] *)
Definition _split_large_group (group : list Section_) : list Chunk :=
  finish (fold_left split_section group (mkSplit [] "" [] 0)).

Definition orphaned_starts : list string :=
  ["else:"; "elif:"; "}"; "]"; ")"; "except:"; "finally:"; "catch"].

(** [_validate_chunk] *)
Definition _validate_chunk {M} (chunk : FinalChunk M) : bool * string :=
  let content := chunk_content (candidate chunk) in
  let tokens := token_count (candidate chunk) in
  if tokens <? CHUNK_SIZE_MIN cfg then
    if total_chunks (metadata chunk) =? 1
    then (true, "Single chunk - size allowed")
    else if PyStr.contains FENCE content
    then (true, "Contains important content")
    else (false, "Chunk too small (" ++ PyStr.str_of_int tokens ++ " tokens)")
  else if tokens >? CHUNK_SIZE_MAX cfg
  then (false, "Chunk too large (" ++ PyStr.str_of_int tokens ++ " tokens)")
  else if negb (PyStr.count FENCE content mod 2 =? 0)
  then (false, "Incomplete code block")
  else
    let stripped_content := PyStr.strip content in
    match find (PyStr.startswith stripped_content) orphaned_starts with
    | Some orphan => (false, "Chunk starts with orphaned code: " ++ orphan)
    | None => (true, "Valid")
    end.

(** The first loop of [create_chunks]: the candidates of one group. *)
Definition chunks_of_group (group : list Section_) : list Chunk :=
  let group_tokens :=
    fold_left Z.add (map (fun s => estimate_tokens (content s)) group) 0 in
  if (CHUNK_SIZE_MIN cfg <=? group_tokens)
     && (group_tokens <=? CHUNK_SIZE_MAX cfg)
  then [_create_chunk_from_sections group]
  else if group_tokens >? CHUNK_SIZE_MAX cfg
  then _split_large_group group
  else [_create_chunk_from_sections group].

(** The candidates of a document, before validation. *)
Definition build_chunks (sections : list Section_) : list Chunk :=
  fold_left (fun chunks group => (chunks ++ chunks_of_group group)%list)
            (_group_related_sections sections) [].

(** The second loop of [create_chunks]: chunk [i] is numbered [i + 1] of
    [total], its text is trimmed, and it is kept when it validates. *)
Fixpoint validate_loop {M} (md : M) (total : Z) (i : Z)
    (chunks : list Chunk) : list (FinalChunk M) :=
  match chunks with
  | [] => []
  | chunk :: rest =>
      let chunk' :=
        mkFinal (mkChunk (PyStr.strip (chunk_content chunk))
                         (chunk_sections chunk) (token_count chunk))
                (mkMetadata md (i + 1) total (chunk_sections chunk)) in
      if fst (_validate_chunk chunk')
      then chunk' :: validate_loop md total (i + 1) rest
      else validate_loop md total (i + 1) rest
  end.

(** The third loop of [create_chunks]: the survivors are numbered again. *)
Fixpoint reindex_loop {M} (total : Z) (i : Z)
    (validated_chunks : list (FinalChunk M)) : list (FinalChunk M) :=
  match validated_chunks with
  | [] => []
  | chunk :: rest =>
      mkFinal (candidate chunk)
              (mkMetadata (page (metadata chunk)) (i + 1) total
                          (section_titles (metadata chunk)))
      :: reindex_loop total (i + 1) rest
  end.

(** [create_chunks], from the list [extract_sections] returns (an empty
    list gives no chunk). *)
Definition create_chunks {M} (sections : list Section_) (md : M)
  : list (FinalChunk M) :=
  let chunks := build_chunks sections in
  let validated_chunks :=
    validate_loop md (Z.of_nat (List.length chunks)) 0 chunks in
  reindex_loop (Z.of_nat (List.length validated_chunks)) 0 validated_chunks.

End Engine.

(** ** Construction of the processor *)

(** The outcome of a constructor as far as the thresholds go. *)
Inductive Constructed :=
| Processor (cfg : Config)
| ConfigurationError (message : string).

(** [RagProcessor.__init__]: the thresholds are assigned from literals; the
    [chunk_size_target] argument is not read. *)
Definition RagProcessor_init (chunk_size_target : Z) : Constructed :=
  Processor (mkConfig 500 800 1200 150).

(** The thresholds every [RagProcessor] works with. *)
Definition rag_config : Config := mkConfig 500 800 1200 150.

(** ** The older processor ([GK8RagProcessor]) *)

Module GK8.

(** [GK8RagProcessor.__init__]: the target is the caller's argument, the
    other thresholds are literals; nothing is checked. *)
Definition init (chunk_size_target : Z) : Constructed :=
  Processor (mkConfig 300 chunk_size_target 1500 100).

(** [estimate_tokens]: [len(text) // 4] *)
Definition estimate_tokens (text : string) : Z := PyStr.len text / 4.

(** The chunks emitted so far and the dict [current_chunk]. *)
Record State := mkState {
  chunks : list Chunk;
  current_chunk : Chunk
}.

Definition empty_chunk : Chunk := mkChunk "" [] 0.

Section Engine.

Variable cfg : Config.

(** The paragraph loop over an oversized section: [temp_content] and
    [temp_tokens] are the running buffer. *)
Fixpoint paragraphs_loop (section : Section_) (paragraphs : list string)
    (chunks : list Chunk) (temp_content : string) (temp_tokens : Z)
  : list Chunk * string * Z :=
  match paragraphs with
  | [] => (chunks, temp_content, temp_tokens)
  | para :: rest =>
      let para_tokens := estimate_tokens para in
      if temp_tokens + para_tokens >? CHUNK_SIZE_TARGET cfg then
        let chunks' :=
          if negb (PyStr.is_empty (PyStr.strip temp_content))
          then (chunks ++ [mkChunk (PyStr.strip temp_content)
                                   [title section] temp_tokens])%list
          else chunks in
        let temp_content' := "# " ++ title section ++ BLANK ++ para ++ BLANK in
        paragraphs_loop section rest chunks' temp_content'
                        (estimate_tokens temp_content')
      else
        paragraphs_loop section rest chunks (temp_content ++ para ++ BLANK)
                        (temp_tokens + para_tokens)
  end.

(** The branch of [create_chunks] for a section larger than the ceiling. *)
Definition split_oversized (section : Section_) (st : State) : State :=
  let st1 :=
    if negb (PyStr.is_empty (chunk_content (current_chunk st)))
    then mkState (chunks st ++ [current_chunk st])%list empty_chunk
    else st in
  let paragraphs := PyStr.split BLANK (content section) in
  let temp_content :=
    if is_titled section then "# " ++ title section ++ BLANK else "" in
  let '(chunks', temp_content', temp_tokens') :=
    paragraphs_loop section paragraphs (chunks st1) temp_content
                    (estimate_tokens temp_content) in
  let chunks'' :=
    if negb (PyStr.is_empty (PyStr.strip temp_content'))
    then (chunks' ++ [mkChunk (PyStr.strip temp_content')
                              [title section] temp_tokens'])%list
    else chunks' in
  mkState chunks'' (current_chunk st1).

Definition appended (section : Section_) (current : Chunk) : Chunk :=
  mkChunk (chunk_content current ++ rendered section)
          (chunk_sections current ++ [title section])%list
          (token_count current + estimate_tokens (content section)).

(** The body of the loop over the sections. *)
Definition add_section (st : State) (section : Section_) : State :=
  let section_tokens := estimate_tokens (content section) in
  let current := current_chunk st in
  if section_tokens >? CHUNK_SIZE_MAX cfg then split_oversized section st
  else if token_count current + section_tokens >? CHUNK_SIZE_TARGET cfg then
    if token_count current >=? CHUNK_SIZE_MIN cfg then
      let overlap_content :=
        _get_overlap_content cfg (chunk_content current) in
      mkState (chunks st ++ [current])%list
              (mkChunk (overlap_content ++ BLANK ++ "# " ++ title section
                          ++ BLANK ++ content section)
                       [title section]
                       (estimate_tokens overlap_content + section_tokens))
    else mkState (chunks st) (appended section current)
  else mkState (chunks st) (appended section current).

(** The candidates of [create_chunks], before their text is trimmed. *)
Definition build_chunks (sections : list Section_) : list Chunk :=
  let st := fold_left add_section sections (mkState [] empty_chunk) in
  if negb (PyStr.is_empty (PyStr.strip (chunk_content (current_chunk st))))
  then (chunks st ++ [current_chunk st])%list
  else chunks st.

(** The numbering loop: every chunk is kept. *)
Fixpoint number_loop {M} (md : M) (total : Z) (i : Z)
    (chunks : list Chunk) : list (FinalChunk M) :=
  match chunks with
  | [] => []
  | chunk :: rest =>
      mkFinal (mkChunk (PyStr.strip (chunk_content chunk))
                       (chunk_sections chunk) (token_count chunk))
              (mkMetadata md (i + 1) total (chunk_sections chunk))
      :: number_loop md total (i + 1) rest
  end.

(** [create_chunks], from the list [extract_sections] returns. *)
Definition create_chunks {M} (sections : list Section_) (md : M)
  : list (FinalChunk M) :=
  let chunks := build_chunks sections in
  number_loop md (Z.of_nat (List.length chunks)) 0 chunks.

End Engine.

End GK8.


(** ** Further [str], [re] and [dict] operations *)

Module PyExt.

(** [s[n:]] *)
Fixpoint drop (n : nat) (s : string) : string :=
  match n, s with
  | O, _ => s
  | S _, EmptyString => EmptyString
  | S k, String _ r => drop k r
  end.

(** [s[:n]] *)
Fixpoint take (n : nat) (s : string) : string :=
  match n, s with
  | O, _ => EmptyString
  | S _, EmptyString => EmptyString
  | S k, String c r => String c (take k r)
  end.

(** [s.endswith(suffix)] *)
Fixpoint endswith (s suffix : string) : bool :=
  String.eqb s suffix
  || match s with
     | EmptyString => false
     | String _ r => endswith r suffix
     end.

(** [x in l] for a list or a set of strings *)
Definition mem (x : string) (l : list string) : bool :=
  existsb (String.eqb x) l.

(** [any(term in s for term in terms)] *)
Definition any_in (terms : list string) (s : string) : bool :=
  existsb (fun term => PyStr.contains term s) terms.

(** [s.startswith((p1, p2, ...))] *)
Definition startswith_any (s : string) (prefixes : list string) : bool :=
  existsb (PyStr.startswith s) prefixes.

(** [str.lower] on one code point below 256: A..Z and the capital letters
    of Latin-1 (all of 192..222 but the multiplication sign) move up
    by 32. *)
Definition lower_char (c : ascii) : ascii :=
  let n := N_of_ascii c in
  if (((65 <=? n) && (n <=? 90))
      || ((192 <=? n) && (n <=? 222) && negb (n =? 215)))%N
  then ascii_of_N (n + 32)
  else c.

(** [s.lower()] *)
Fixpoint lower (s : string) : string :=
  match s with
  | EmptyString => EmptyString
  | String c r => String (lower_char c) (lower r)
  end.

(** The class [\d] on a code point below 256. *)
Definition is_digit (c : ascii) : bool :=
  let n := N_of_ascii c in ((48 <=? n) && (n <=? 57))%N.

(** The class [\w] on a code point below 256: digits, letters, the
    underscore, and the alphanumeric characters of Latin-1. *)
Definition is_word_char (c : ascii) : bool :=
  let n := N_of_ascii c in
  (((48 <=? n) && (n <=? 57)) || ((65 <=? n) && (n <=? 90)) || (n =? 95)
   || ((97 <=? n) && (n <=? 122)) || (n =? 170) || (n =? 178) || (n =? 179)
   || (n =? 181) || (n =? 185) || (n =? 186)
   || ((188 <=? n) && (n <=? 190))
   || ((192 <=? n) && (n <=? 214)) || ((216 <=? n) && (n <=? 246))
   || ((248 <=? n) && (n <=? 255)))%N.

Definition is_dash (c : ascii) : bool := Ascii.eqb c "-".

(** [re.sub(r'[^\w\s-]', '', s)]: the characters outside the three classes
    are deleted. *)
Fixpoint sub_unsafe (s : string) : string :=
  match s with
  | EmptyString => EmptyString
  | String c r =>
      if is_word_char c || PyStr.is_space c || is_dash c
      then String c (sub_unsafe r)
      else sub_unsafe r
  end.

(** [re.sub(r'[-\s]+', '-', s)]: every maximal run of dashes and
    whitespace becomes one dash; [in_run] tells that the character before
    belongs to a run already replaced. *)
Fixpoint sub_dashes_go (in_run : bool) (s : string) : string :=
  match s with
  | EmptyString => EmptyString
  | String c r =>
      if is_dash c || PyStr.is_space c
      then if in_run then sub_dashes_go true r
           else String "-" (sub_dashes_go true r)
      else String c (sub_dashes_go false r)
  end.

Definition sub_dashes (s : string) : string := sub_dashes_go false s.

(** [f"{n:02d}"]: only the one-character renderings, 0 to 9, are padded. *)
Definition format_02d (n : Z) : string :=
  let s := PyStr.str_of_int n in
  if (String.length s <? 2)%nat then "0" ++ s else s.

(** The longest prefix of digits of a text, and what follows it. *)
Fixpoint span_digits (s : string) : string * string :=
  match s with
  | EmptyString => (EmptyString, EmptyString)
  | String c r =>
      if is_digit c
      then let (digits, rest) := span_digits r in (String c digits, rest)
      else (EmptyString, s)
  end.

(** A match of [<lead>(\d+)/] at the start of [s]: its group 1.  The
    digits are taken greedily; giving some back cannot help, since a digit
    is not a slash. *)
Definition match_version (lead s : string) : option string :=
  if String.prefix lead s then
    let (digits, rest) := span_digits (drop (String.length lead) s) in
    if negb (PyStr.is_empty digits) && String.prefix "/" rest
    then Some digits else None
  else None.

(** [re.search(lead + r'(\d+)/', s)]: group 1 of the leftmost match. *)
Fixpoint search_version (lead s : string) : option string :=
  match match_version lead s with
  | Some digits => Some digits
  | None =>
      match s with
      | EmptyString => None
      | String _ r => search_version lead r
      end
  end.

(** [re.search(r'\.(pdf|zip|tar|gz)$', s)] finds a match: [$] holds at the
    end of the text and before a line feed that ends it. *)
Definition search_download (s : string) : bool :=
  existsb (fun ext => endswith s ext || endswith s (ext ++ LF))
          [".pdf"; ".zip"; ".tar"; ".gz"].

(** [list(dict.fromkeys(l))]: the first occurrence of each element, in
    order; [seen] holds the keys already inserted. *)
Fixpoint fromkeys_go (seen : list string) (l : list string) : list string :=
  match l with
  | [] => []
  | x :: rest =>
      if mem x seen then fromkeys_go seen rest
      else x :: fromkeys_go (x :: seen) rest
  end.

Definition fromkeys (l : list string) : list string := fromkeys_go [] l.

End PyExt.

(** ** The rest of [RagProcessor] *)

(** An entry of the list returned by [_extract_code_blocks]. *)
Record CodeBlock := mkCodeBlock {
  block_content : string;
  block_tokens : Z
}.

(** The elements at even offsets of a list: [l[0], l[2], ...]. *)
Fixpoint every_other {A} (l : list A) : list A :=
  match l with
  | [] => []
  | x :: rest =>
      x :: match rest with
           | [] => []
           | _ :: rest' => every_other rest'
           end
  end.

(** [_extract_code_blocks]: the parts at the odd indices, fenced again. *)
Definition _extract_code_blocks (estimate_tokens : string -> Z)
    (content : string) : list CodeBlock :=
  let parts := PyStr.split FENCE content in
  map (fun part =>
         let code_block := FENCE ++ part ++ FENCE in
         mkCodeBlock code_block (estimate_tokens code_block))
      (every_other (tl parts)).

(** [determine_space] (the same in both processors) *)
Definition determine_space (url : string) : string :=
  if PyStr.contains "/api-v15/" url then "api-v15"
  else if PyStr.contains "/guides-v15/" url then "guides-v15"
  else if PyStr.contains "/reference/" url then "reference"
  else if PyStr.contains "/api-v" url then
    match PyExt.search_version "/api-v" url with
    | Some version => "api-v" ++ version
    | None => "api-other"
    end
  else if PyStr.contains "/guides-v" url then
    match PyExt.search_version "/guides-v" url with
    | Some version => "guides-v" ++ version
    | None => "guides-other"
    end
  else "general".

(** The three searches of [exclude_patterns], in order. *)
Definition exclude_patterns : list (string -> bool) :=
  [ PyStr.contains "/print/"; PyStr.contains "/pdf/";
    PyExt.search_download ].

(** The ['content_type'] entry of the dict built by [extract_metadata]. *)
Definition content_type_of (url : string) : string :=
  let url_lower := PyExt.lower url in
  if PyExt.any_in ["api"; "reference"; "endpoint"] url_lower then "api"
  else if PyExt.any_in ["guide"; "tutorial"; "getting-started"] url_lower
  then "guide"
  else if PyExt.any_in ["example"; "sample"; "demo"] url_lower
  then "example"
  else if PyExt.any_in ["reference"; "specification"] url_lower
  then "reference"
  else "documentation".

(** The file name computed by [save_chunk] from the page title and the
    ['chunk_index'] of the chunk. *)
Definition safe_title (page_title : string) : string :=
  PyExt.take 50 (PyExt.sub_dashes (PyExt.sub_unsafe (PyExt.lower page_title))).

Definition chunk_filename (page_title : string) (chunk_index : Z) : string :=
  safe_title page_title ++ "-" ++ PyExt.format_02d chunk_index ++ ".md".

Section Crawl.

(** [normalize_url] and [urljoin] are built from the URL functions of the
    standard library, which stay parameters. *)
Variable normalize_url : string -> string.
Variable urljoin : string -> string -> string.

(** [self.visited_urls] and [self.base_url] *)
Variable visited_urls : list string.
Variable base_url : string.

(** The decision of [should_crawl_url] once the URL is normalized. *)
Definition crawl_decision (normalized_url : string) : bool :=
  if existsb (fun pattern => pattern normalized_url) exclude_patterns
  then false
  else if PyStr.contains "/api-v15/" normalized_url then true
  else if PyStr.contains "/api-v" normalized_url then false
  else true.

(** [RagProcessor.should_crawl_url] *)
Definition should_crawl_url (url : string) : bool :=
  let normalized_url := normalize_url url in
  if PyExt.mem normalized_url visited_urls then false
  else if negb (PyStr.is_empty base_url)
          && negb (PyStr.startswith normalized_url base_url)
  then false
  else crawl_decision normalized_url.

(** The related links gathered by [extract_metadata] from the [href]
    values of the page, before duplicates are removed. *)
Fixpoint related_links_loop (url : string) (hrefs : list string)
  : list string :=
  match hrefs with
  | [] => []
  | href :: rest =>
      if PyExt.startswith_any href ["http://"; "https://"]
         && PyStr.contains base_url href
      then href :: related_links_loop url rest
      else if negb (PyExt.startswith_any href
                      ["http://"; "https://"; "#"; "javascript:"; "mailto:"])
      then
        let absolute_link := urljoin url href in
        if PyStr.contains base_url absolute_link
        then absolute_link :: related_links_loop url rest
        else related_links_loop url rest
      else related_links_loop url rest
  end.

(** The ['related_links'] entry: [list(dict.fromkeys(related_links))[:10]] *)
Definition related_links (url : string) (hrefs : list string)
  : list string :=
  firstn 10 (PyExt.fromkeys (related_links_loop url hrefs)).

End Crawl.

(** [GK8RagProcessor.should_crawl_url]: the base URL is always compared. *)
Definition gk8_should_crawl_url (normalize_url : string -> string)
    (visited_urls : list string) (base_url : string) (url : string) : bool :=
  let normalized_url := normalize_url url in
  if PyExt.mem normalized_url visited_urls then false
  else if negb (PyStr.startswith normalized_url base_url) then false
  else crawl_decision normalized_url.

(** ** Crawling ([RagProcessor.crawl_page] and [crawl_all]) *)

(** An entry of [self.content_data]; [Soup] is the parsed page. *)
Record CrawledPage (Soup : Type) := mkCrawledPage {
  crawled_url : string;
  crawled_space : string;
  crawled_title : string;
  crawled_soup : Soup;
  crawled_links : list string
}.
Arguments mkCrawledPage {Soup}.
Arguments crawled_url {Soup}.
Arguments crawled_space {Soup}.
Arguments crawled_title {Soup}.
Arguments crawled_soup {Soup}.
Arguments crawled_links {Soup}.

(** The part of the processor the crawl changes: [self.visited_urls] and
    [self.content_data]. *)
Record Crawler (Soup : Type) := mkCrawler {
  visited : list string;
  content_data : list (CrawledPage Soup)
}.
Arguments mkCrawler {Soup}.
Arguments visited {Soup}.
Arguments content_data {Soup}.

(** The locals of [crawl_all]: the processor, the queue, the set of the
    URLs queued so far and two counters of [crawl_stats]. *)
Record CrawlState (Soup : Type) := mkCrawlState {
  crawler : Crawler Soup;
  url_queue : list string;
  queued_urls : list string;
  total_links_found : Z;
  duplicate_links_skipped : Z
}.
Arguments mkCrawlState {Soup}.
Arguments crawler {Soup}.
Arguments url_queue {Soup}.
Arguments queued_urls {Soup}.
Arguments total_links_found {Soup}.
Arguments duplicate_links_skipped {Soup}.

(** [s.add(x)] on a set kept as a list *)
Definition set_add (x : string) (s : list string) : list string :=
  if PyExt.mem x s then s else x :: s.

Section CrawlAll.

(** The browser and the parser are outside the repository:
    [fetch] is [_crawl_with_playwright] ([None] when the page could not be
    loaded), [soup_title] the trimmed text of the title element (empty
    without one), [soup_hrefs] the [href] of every anchor that has one, in
    document order; [available] is [self.page and self.authenticated]. *)
Variable Soup : Type.
Variable fetch : string -> option Soup.
Variable soup_title : Soup -> string.
Variable soup_hrefs : Soup -> list string.
Variable available : bool.
Variable normalize_url : string -> string.
Variable urljoin : string -> string -> string.
Variable base_url : string.

(** The loop of [crawl_page] over the anchors of the page. *)
Fixpoint links_loop (visited_urls : list string) (normalized_url : string)
    (hrefs : list string) : list string :=
  match hrefs with
  | [] => []
  | href :: rest =>
      if PyExt.startswith_any href ["javascript:"; "mailto:"; "tel:"; "#"]
      then links_loop visited_urls normalized_url rest
      else
        let absolute_url := urljoin normalized_url href in
        let normalized_link := normalize_url absolute_url in
        if PyStr.startswith normalized_link base_url
           && should_crawl_url normalize_url visited_urls base_url
                               normalized_link
        then normalized_link :: links_loop visited_urls normalized_url rest
        else links_loop visited_urls normalized_url rest
  end.

(** [crawl_page]: the processor afterwards and the links returned. *)
Definition crawl_page (st : Crawler Soup) (url : string)
  : Crawler Soup * list string :=
  let normalized_url := normalize_url url in
  if PyExt.mem normalized_url (visited st) then (st, [])
  else
    let visited' := set_add normalized_url (visited st) in
    if available then
      match fetch normalized_url with
      | None => (mkCrawler visited' (content_data st), [])
      | Some soup =>
          let links :=
            PyExt.fromkeys
              (links_loop visited' normalized_url (soup_hrefs soup)) in
          (mkCrawler visited'
             (content_data st
                ++ [mkCrawledPage normalized_url
                      (determine_space normalized_url) (soup_title soup)
                      soup links])%list,
           links)
      end
    else (mkCrawler visited' (content_data st), []).

(** The loop of [crawl_all] over the links a page returned. *)
Fixpoint enqueue (visited_urls : list string) (new_links : list string)
    (queue queued : list string) (skipped : Z)
  : list string * list string * Z :=
  match new_links with
  | [] => (queue, queued, skipped)
  | link :: rest =>
      if negb (PyExt.mem link queued) && negb (PyExt.mem link visited_urls)
      then enqueue visited_urls rest (queue ++ [link])%list
                   (set_add link queued) skipped
      else enqueue visited_urls rest queue queued (skipped + 1)
  end.

(** One turn of the [while url_queue] loop; [None] when the queue is
    empty. *)
Definition crawl_step (st : CrawlState Soup) : option (CrawlState Soup) :=
  match url_queue st with
  | [] => None
  | current_url :: queue =>
      if PyExt.mem current_url (visited (crawler st)) then
        Some (mkCrawlState (crawler st) queue (queued_urls st)
                (total_links_found st) (duplicate_links_skipped st + 1))
      else
        let (crawler', new_links) := crawl_page (crawler st) current_url in
        let '(queue', queued', skipped') :=
          enqueue (visited crawler') new_links queue (queued_urls st)
                  (duplicate_links_skipped st) in
        Some (mkCrawlState crawler' queue' queued'
                (total_links_found st + Z.of_nat (List.length new_links))
                skipped')
  end.

(** At most [turns] turns of the loop. *)
Fixpoint crawl_loop (turns : nat) (st : CrawlState Soup)
  : CrawlState Soup :=
  match turns with
  | O => st
  | S k =>
      match crawl_step st with
      | None => st
      | Some st' => crawl_loop k st'
      end
  end.

(** [set(l)] kept as a list *)
Definition set_of (l : list string) : list string :=
  fold_left (fun s x => set_add x s) l [].

(** [crawl_all] on a processor with its base URL set, stopped after at
    most [turns] turns of its loop. *)
Definition crawl_all (turns : nat) (st : Crawler Soup)
    (start_urls : list string) : CrawlState Soup :=
  let normalized_starts := map normalize_url start_urls in
  crawl_loop turns
    (mkCrawlState st normalized_starts (set_of normalized_starts) 0 0).

End CrawlAll.
(** ** Vocabulary of the statements *)

(** Section [i] is the first section of one of the [groups]. *)
Definition starts_group {A} (groups : list (list A)) (i : nat) : Prop :=
  exists k, (k < List.length groups)%nat
            /\ i = List.length (List.concat (firstn k groups)).

(** The chunks of a document as [_validate_chunk] sees them: trimmed and
    provisionally numbered [i + 1], [i + 2], ... of [total]. *)
Fixpoint numbered {M} (md : M) (total : Z) (i : Z) (chunks : list Chunk)
  : list (FinalChunk M) :=
  match chunks with
  | [] => []
  | chunk :: rest =>
      mkFinal (mkChunk (PyStr.strip (chunk_content chunk))
                       (chunk_sections chunk) (token_count chunk))
              (mkMetadata md (i + 1) total (chunk_sections chunk))
      :: numbered md total (i + 1) rest
  end.

(** The number of fence delimiters of a text is even. *)
Definition balanced (text : string) : Prop :=
  PyStr.count FENCE text mod 2 = 0.

(** The last [k] elements of a list (all of it when it is shorter). *)
Definition last_n {A} (k : nat) (l : list A) : list A :=
  skipn (List.length l - k) l.

(** Following the spec's words: [round(CHUNK_OVERLAP * 0.8)].  A product by
    0.8 is never half-way between two integers, so rounding is
    [floor (x + 1/2)]. *)
Definition spec_overlap_words (cfg : Config) : Z :=
  (8 * CHUNK_OVERLAP cfg + 5) / 10.

(** Following the spec's words: the last [round(CHUNK_OVERLAP * 0.8)] words
    of the text, or the whole text when it has fewer words. *)
Definition spec_overlap_content (cfg : Config) (text : string) : string :=
  let words := PyStr.split_ws text in
  if Z.of_nat (List.length words) <? spec_overlap_words cfg
  then text
  else PyStr.join " " (last_n (Z.to_nat (spec_overlap_words cfg)) words).

(** Following the spec's words: the thresholds the spec calls valid. *)
Definition spec_valid_config (cfg : Config) : Prop :=
  0 < CHUNK_SIZE_MIN cfg
  /\ CHUNK_SIZE_MIN cfg < CHUNK_SIZE_TARGET cfg
  /\ CHUNK_SIZE_TARGET cfg < CHUNK_SIZE_MAX cfg
  /\ 0 < CHUNK_OVERLAP cfg.

(** A glue string of the chunker: the blank-line separator, alone or
    followed by a re-inserted header. *)
Definition is_glue (glue : string) : Prop :=
  glue = BLANK \/ exists t, glue = BLANK ++ "# " ++ t ++ BLANK.

(** How [_split_large_group] keeps the count [n] of a buffer [text]: set to
    zero with the empty buffer, estimated from the whole text when the
    buffer is assigned, and increased by the estimate of the appended piece
    alone when a glue string and a piece are appended. *)
Inductive tracked (estimate_tokens : string -> Z) : string -> Z -> Prop :=
| tracked_empty : tracked estimate_tokens "" 0
| tracked_assigned text : tracked estimate_tokens text (estimate_tokens text)
| tracked_appended text n glue piece :
    tracked estimate_tokens text n ->
    is_glue glue ->
    tracked estimate_tokens (text ++ glue ++ piece)
            (n + estimate_tokens piece).

(** What the two accumulators of the grouping loop hold once [sections]
    have been read. *)
Definition grouping_invariant (sections : list Section_)
    (groups : list (list Section_)) (current : list Section_) : Prop :=
  (List.concat groups ++ current)%list = sections
  /\ Forall (fun g => g <> []) groups
  /\ (sections <> [] -> current <> [])
  /\ forall i cur prev,
       (0 < i)%nat ->
       nth_error sections i = Some cur ->
       nth_error sections (i - 1) = Some prev ->
       (starts_group (groups ++ [current]) i
        <-> _is_major_boundary cur (Some prev) = true).


(** A candidate whose text is a trimmed buffer with a count kept as
    [tracked] describes. *)
Definition accounted (estimate_tokens : string -> Z) (c : Chunk) : Prop :=
  exists text,
    chunk_content c = PyStr.strip text
    /\ tracked estimate_tokens text (token_count c).

(** The buffer and the emitted chunks of the splitter are all accounted
    for. *)
Definition split_accounted (estimate_tokens : string -> Z)
    (st : SplitState) : Prop :=
  tracked estimate_tokens (current_chunk_content st) (current_tokens st)
  /\ Forall (accounted estimate_tokens) (chunks st).

(** A text without any fence delimiter. *)
Definition fence_free (text : string) : Prop :=
  PyStr.contains FENCE text = false.

(** A text that is empty or starts with a character other than the
    backquote: a delimiter cannot run from the text before it into it. *)
Definition clear_start (text : string) : Prop :=
  match text with
  | EmptyString => True
  | String c _ => c <> "`"%char
  end.

(** A text made of whitespace only. *)
Fixpoint all_space (text : string) : Prop :=
  match text with
  | EmptyString => True
  | String c r => PyStr.is_space c = true /\ all_space r
  end.

(** The buffer and the emitted chunks of the splitter all hold an even
    number of delimiters. *)
Definition split_balanced (st : SplitState) : Prop :=
  balanced (current_chunk_content st)
  /\ Forall (fun c => balanced (chunk_content c)) (chunks st).

(** The sections of a group agree on holding a fence. *)
Definition same_register (group : list Section_) : Prop :=
  exists b, Forall (fun s => has_code s = b) group.

(** The group under construction agrees with the section read last. *)
Definition register_of (prev : option Section_) (current : list Section_)
  : Prop :=
  exists b,
    Forall (fun s => has_code s = b) current
    /\ (current <> [] -> exists p, prev = Some p /\ has_code p = b).

(** The buffer of the splitter holds no delimiter and the emitted chunks
    are balanced. *)
Definition split_prose (st : SplitState) : Prop :=
  fence_free (current_chunk_content st)
  /\ Forall (fun c => balanced (chunk_content c)) (chunks st).

(** The state [split_code_section] builds before it loops over the fenced
    blocks: the buffer saved when it is not empty and has reached the
    minimum, then assigned the header and the text before the first
    fence. *)
Definition code_opening (cfg : Config) (estimate_tokens : string -> Z)
    (section : Section_) (st : SplitState) : SplitState :=
  let st1 :=
    if negb (PyStr.is_empty (current_chunk_content st))
       && (current_tokens st >=? CHUNK_SIZE_MIN cfg)
    then mkSplit (chunks st ++ [saved st])%list "" [] 0
    else st in
  let text_before :=
    hd EmptyString (PyStr.split FENCE (content section)) in
  let content' :=
    if is_titled section
    then "# " ++ title section ++ BLANK ++ text_before
    else text_before in
  mkSplit (chunks st1) content' [title section] (estimate_tokens content').

(** The states [code_blocks_loop] goes through: before each block, after
    it, and after the text that follows it. *)
Fixpoint block_states (cfg : Config) (estimate_tokens : string -> Z)
    (section : Section_) (parts : list string) (st : SplitState)
  : list SplitState :=
  st :: match parts with
        | [] => []
        | part :: after =>
            let st1 := add_code_block cfg estimate_tokens section part st in
            match after with
            | [] => [st1]
            | text_after :: parts' =>
                st1 :: block_states cfg estimate_tokens section parts'
                         (add_text_after cfg estimate_tokens text_after st1)
            end
        end.

(** The states [_split_large_group] goes through from [st]: before each
    section, inside each fenced section, and after the last section. *)
Fixpoint section_states (cfg : Config) (estimate_tokens : string -> Z)
    (group : list Section_) (st : SplitState) : list SplitState :=
  st :: match group with
        | [] => []
        | section :: rest =>
            ((if has_code section
              then block_states cfg estimate_tokens section
                     (tl (PyStr.split FENCE (content section)))
                     (code_opening cfg estimate_tokens section st)
              else [])
             ++ section_states cfg estimate_tokens rest
                  (split_section cfg estimate_tokens st section))%list
        end.

(** No section of the group makes the prose branch save its buffer: when
    a section is reached, the running count is below the minimum or stays
    within the target. *)
Fixpoint unflushed (cfg : Config) (estimate_tokens : string -> Z)
    (tokens : Z) (group : list Section_) : bool :=
  match group with
  | [] => true
  | section :: rest =>
      let section_tokens := estimate_tokens (content section) in
      negb ((tokens + section_tokens >? CHUNK_SIZE_TARGET cfg)
            && (tokens >=? CHUNK_SIZE_MIN cfg))
      && unflushed cfg estimate_tokens (tokens + section_tokens) rest
  end.

(** [x] occurs in [s] as a contiguous run. *)
Definition infix_of (x s : string) : Prop :=
  exists a b, s = a ++ x ++ b.

(** A text whose trimmed form is not empty. *)
Definition nonblank (text : string) : Prop :=
  PyStr.strip text <> EmptyString.

(** The trimmed text [x] is in an emitted chunk or in the buffer. *)
Definition held (x : string) (st : SplitState) : Prop :=
  (exists c, In c (chunks st) /\ infix_of x (chunk_content c))
  \/ infix_of x (current_chunk_content st).

(** A text without whitespace. *)
Fixpoint no_space (text : string) : Prop :=
  match text with
  | EmptyString => True
  | String c r => PyStr.is_space c = false /\ no_space r
  end.

(** A word: not empty and without whitespace. *)
Definition is_word (w : string) : Prop :=
  w <> EmptyString /\ no_space w.

(** What follows the first part in a text joined with [sep]. *)
Definition joined_tail (sep : string) (ps : list string) : string :=
  match ps with
  | [] => EmptyString
  | _ :: _ => sep ++ PyStr.join sep ps
  end.

(** Every character of a text passes a test. *)
Fixpoint all_chars (test : ascii -> bool) (text : string) : bool :=
  match text with
  | EmptyString => true
  | String c r => test c && all_chars test r
  end.

(** The characters of a safe title: word characters and dashes. *)
Definition title_char (c : ascii) : bool :=
  PyExt.is_word_char c || PyExt.is_dash c.

(** The characters of a chunk file name: those of a safe title and the
    dot. *)
Definition filename_char (c : ascii) : bool :=
  title_char c || Ascii.eqb c ".".

(** Reading back the index written by [format_02d]. *)
Definition decode_index (s : string) : option Z :=
  option_map Z.of_int (NilEmpty.int_of_string s).

(** The spaces [determine_space] names without reading a version. *)
Definition fixed_spaces : list string :=
  ["api-v15"; "guides-v15"; "reference"; "api-other"; "guides-other";
   "general"].

(** The trimmed text [x] is in a chunk emitted by the older processor or
    in its current chunk. *)
Definition gk8_held (x : string) (st : GK8.State) : Prop :=
  (exists c, In c (GK8.chunks st)
             /\ infix_of x (PyStr.strip (chunk_content c)))
  \/ infix_of x (chunk_content (GK8.current_chunk st)).

(** The trimmed text [x] is in a chunk emitted by the paragraph loop or in
    its running text. *)
Definition gk8_para_held (x : string) (chunks : list Chunk)
    (temp_content : string) : Prop :=
  (exists c, In c chunks /\ infix_of x (PyStr.strip (chunk_content c)))
  \/ infix_of x temp_content.

(** What the crawl keeps true of the processor: no URL is stored twice,
    every stored URL has been visited, and every stored page has its
    space and a list of distinct links under the base URL. *)
Definition crawler_ok {Soup} (base_url : string) (c : Crawler Soup) : Prop :=
  NoDup (map crawled_url (content_data c))
  /\ forall p, In p (content_data c) ->
       In (crawled_url p) (visited c)
       /\ crawled_space p = determine_space (crawled_url p)
       /\ NoDup (crawled_links p)
       /\ forall l, In l (crawled_links p) ->
            PyStr.startswith l base_url = true.

(** What the loop of [crawl_all] keeps true of its locals. *)
Definition crawl_state_ok {Soup} (base_url : string) (st : CrawlState Soup)
  : Prop :=
  crawler_ok base_url (crawler st)
  /\ forall u, In u (url_queue st) -> In u (queued_urls st).

(** The titles of the buffer and of the emitted chunks all pass [P]. *)
Definition split_titles (P : string -> Prop) (st : SplitState) : Prop :=
  Forall P (current_chunk_sections st)
  /\ Forall (fun c => Forall P (chunk_sections c)) (chunks st).

(** ** Sample documents *)

Definition xs (n : nat) : string := PyStr.replicate n "x"%char.

(** Three sections: a boundary by level, a merge, a boundary by a change of
    register. *)
Definition doc_grouping : list Section_ :=
  [ mkSection 1 "Intro" "welcome";
    mkSection 3 "Notes" "more prose";
    mkSection 3 "Usage" "```run```";
    mkSection 2 "API" "reference" ].

(** A short fenced section followed, in the same group, by a large one. *)
Definition doc_small_buffer : list Section_ :=
  [ mkSection 1 "A" "```a```";
    mkSection 3 "B" ("```" ++ xs 5000 ++ "```") ].

(** A fenced block followed by prose larger than the ceiling. *)
Definition doc_text_after : list Section_ :=
  [ mkSection 1 "A" ("```a```" ++ xs 5000) ].

(** A page whose only text is an unclosed fence. *)
Definition doc_open_fence : list Section_ := [ mkSection 1 "T" "```" ].

(** One prose section of two paragraphs, larger than the ceiling. *)
Definition doc_two_paragraphs : list Section_ :=
  [ mkSection 1 "T" (xs 2500 ++ BLANK ++ xs 2500) ].

(** The same shape at the size of the older processor's ceiling. *)
Definition doc_two_paragraphs_gk8 : list Section_ :=
  [ mkSection 1 "T" (xs 3500 ++ BLANK ++ xs 3500) ].

(** A page without headings whose text is one fenced block larger than the
    ceiling. *)
Definition doc_big_fence : list Section_ :=
  [ mkSection 0 "Content" ("```" ++ xs 5000 ++ "```") ].

(** Two small prose sections under top-level headings. *)
Definition doc_two_small : list Section_ :=
  [ mkSection 1 "Intro" "hello"; mkSection 2 "Setup" "world" ].


(** Two small fenced sections under top-level headings. *)
Definition doc_two_fenced : list Section_ :=
  [ mkSection 1 "A" "```a```"; mkSection 2 "B" "```b```" ].

(** One fenced section of middle size. *)
Definition doc_fenced_medium : list Section_ :=
  [ mkSection 1 "A" ("```" ++ xs 2000 ++ "```") ].

(** The first candidate of [doc_two_small] as the validator sees it. *)
Definition chunk_intro : FinalChunk unit :=
  mkFinal (mkChunk ("# Intro" ++ BLANK ++ "hello") ["Intro"] 4)
          (mkMetadata tt 1 2 ["Intro"]).

(** The only candidate of [doc_big_fence] as the validator sees it. *)
Definition chunk_big_fence : FinalChunk unit :=
  mkFinal (mkChunk ("# Content (continued)" ++ BLANK
                      ++ "```" ++ xs 5000 ++ "```")
                   ["Content"] 1341)
          (mkMetadata tt 1 1 ["Content"]).

(** Thresholds with an overlap budget of two tokens. *)
Definition overlap_two_config : Config := mkConfig 500 800 1200 2.

(** The splitter's state once [doc_two_paragraphs] has been read. *)
Definition state_two_paragraphs : SplitState :=
  fold_left (split_section rag_config fallback_estimate_tokens)
            doc_two_paragraphs (mkSplit [] "" [] 0).

(** The chunk returned for [doc_fenced_medium]. *)
Definition chunk_fenced_medium : FinalChunk unit :=
  mkFinal (mkChunk ("# A" ++ BLANK ++ "```" ++ xs 2000 ++ "```") ["A"] 536)
          (mkMetadata tt 1 1 ["A"]).
(** * Properties *)

(** ** Grouping *)

Section Grouping.

Implicit Types (sections : list Section_) (groups : list (list Section_)).

Lemma last_cons_default {A} (a d : A) (l : list A) :
  last (a :: l) d = last l a.
Proof.
  revert a d. induction l as [|b l IH]; intros a d; [reflexivity|].
  change (last (a :: b :: l) d) with (last (b :: l) d).
  now rewrite !IH.
Qed.

Lemma group_loop_snoc prev sections s groups current :
  group_loop prev (sections ++ [s]) groups current =
  let (groups', current') := group_loop prev sections groups current in
  group_loop (last (map Some sections) prev) [s] groups' current'.
Proof.
  revert prev groups current.
  induction sections as [|x sections IH]; intros prev groups current.
  - simpl. now destruct (_is_major_boundary s prev).
  - change (map Some (x :: sections)) with (Some x :: map Some sections).
    rewrite last_cons_default. simpl.
    destruct (_is_major_boundary x prev); apply IH.
Qed.

Lemma last_nth_error {A} (l : list A) (d : option A) (x : A) :
  (0 < List.length l)%nat ->
  nth_error l (List.length l - 1) = Some x ->
  last (map Some l) d = Some x.
Proof.
  induction l as [|a l' _] using rev_ind; [simpl; lia|]. intros _.
  rewrite length_app. simpl.
  replace (List.length l' + 1 - 1)%nat with (List.length l') by lia.
  rewrite nth_error_app2, Nat.sub_diag by lia. simpl.
  intros [= <-]. rewrite map_app. simpl. apply last_last.
Qed.

Lemma starts_group_snoc {A} (gs : list (list A)) (g : list A) (i : nat) :
  starts_group (gs ++ [g]) i <->
  starts_group gs i \/ i = List.length (List.concat gs).
Proof.
  unfold starts_group. rewrite length_app. simpl. split.
  - intros (k & Hk & ->).
    destruct (Nat.eq_dec k (List.length gs)) as [->|Hne].
    + right. now rewrite firstn_app, Nat.sub_diag, firstn_all, app_nil_r.
    + left. exists k. split; [lia|].
      rewrite firstn_app.
      replace (k - List.length gs)%nat with 0%nat by lia.
      now rewrite app_nil_r.
  - intros [(k & Hk & ->)| ->].
    + exists k. split; [lia|]. rewrite firstn_app.
      replace (k - List.length gs)%nat with 0%nat by lia.
      now rewrite app_nil_r.
    + exists (List.length gs). split; [lia|].
      now rewrite firstn_app, Nat.sub_diag, firstn_all, app_nil_r.
Qed.

Lemma starts_group_bound {A} (gs : list (list A)) (i : nat) :
  starts_group gs i -> (i <= List.length (List.concat gs))%nat.
Proof.
  intros (k & _ & ->).
  rewrite <- (firstn_skipn k gs) at 2.
  rewrite concat_app, length_app. lia.
Qed.

Lemma group_loop_invariant sections :
  let (groups, current) := group_loop None sections [] [] in
  grouping_invariant sections groups current.
Proof.
  induction sections as [|s sections IH] using rev_ind.
  - simpl. split; [reflexivity|]. split; [constructor|].
    split; [congruence|]. intros [|i] cur prev _ Hc; discriminate.
  - rewrite group_loop_snoc.
    destruct (group_loop None sections [] []) as [groups current].
    destruct IH as (Hcat & Hne & Hcur & Hstart).
    assert (Hold : forall i cur prev, (i < List.length sections)%nat ->
              nth_error (sections ++ [s]) i = Some cur ->
              nth_error (sections ++ [s]) (i - 1) = Some prev ->
              nth_error sections i = Some cur
              /\ nth_error sections (i - 1) = Some prev).
    { intros i cur prev Hi. rewrite !nth_error_app1 by lia. auto. }
    assert (Hnew : forall i cur prev, (0 < i)%nat ->
              ~ (i < List.length sections)%nat ->
              nth_error (sections ++ [s]) i = Some cur ->
              nth_error (sections ++ [s]) (i - 1) = Some prev ->
              i = List.length sections /\ cur = s
              /\ last (map Some sections) None = Some prev
              /\ current <> []).
    { intros i cur prev H0 Hi Hc Hp.
      assert (i = List.length sections) as ->.
      { assert (Hs : nth_error (sections ++ [s]) i <> None) by congruence. apply nth_error_Some in Hs. rewrite length_app in Hs.
        simpl in Hs. lia. }
      rewrite nth_error_app2, Nat.sub_diag in Hc by lia.
      injection Hc as <-.
      rewrite nth_error_app1 in Hp by lia.
      split; [reflexivity|]. split; [reflexivity|].
      split; [apply last_nth_error; [lia|assumption]|].
      apply Hcur. intros ->. simpl in H0. lia. }
    assert (Hlen : List.length sections
                   = (List.length (List.concat groups) + List.length current)%nat).
    { now rewrite <- Hcat, length_app. }
    simpl.
    destruct (_is_major_boundary s (last (map Some sections) None)) eqn:Hb.
    + destruct current as [|c0 current].
      * (* no section seen yet *)
        rewrite app_nil_r in Hcat.
        assert (sections = []) as -> by
          (destruct sections; [reflexivity|exfalso; now apply Hcur]).
        split; [simpl; now rewrite Hcat|]. split; [assumption|].
        split; [congruence|].
        intros [|[|i]] cur prev H0 Hc; [lia|discriminate..].
      * split; [|split; [|split]].
        -- rewrite concat_app. simpl. rewrite app_nil_r. now rewrite Hcat.
        -- apply Forall_app. split; [assumption|]. now repeat constructor.
        -- congruence.
        -- intros i cur prev H0 Hc Hp.
           rewrite starts_group_snoc, concat_app, length_app.
           replace (List.length (List.concat [c0 :: current]))
             with (List.length (c0 :: current))
             by (simpl; now rewrite app_nil_r).
           rewrite <- Hlen.
           destruct (Nat.lt_ge_cases i (List.length sections)) as [Hi|Hi].
           ++ destruct (Hold i cur prev Hi Hc Hp) as [Hc' Hp'].
              rewrite <- (Hstart i cur prev H0 Hc' Hp'). intuition lia.
           ++ destruct (Hnew i cur prev H0 ltac:(lia) Hc Hp)
                as (-> & -> & Hl & _).
              rewrite <- Hl, Hb. intuition.
    + split; [|split; [|split]].
      * now rewrite app_assoc, Hcat.
      * assumption.
      * now destruct current.
      * intros i cur prev H0 Hc Hp.
        rewrite starts_group_snoc.
        destruct (Nat.lt_ge_cases i (List.length sections)) as [Hi|Hi].
        -- destruct (Hold i cur prev Hi Hc Hp) as [Hc' Hp'].
           rewrite <- (Hstart i cur prev H0 Hc' Hp').
           now rewrite starts_group_snoc.
        -- destruct (Hnew i cur prev H0 ltac:(lia) Hc Hp)
             as (-> & -> & Hl & Hcne).
           rewrite <- Hl, Hb.
           assert (0 < List.length current)%nat
             by (destruct current; [congruence|simpl; lia]).
           split; [|discriminate].
           intros [Hs| He]; [apply starts_group_bound in Hs|]; lia.
Qed.

(** C3: grouping partitions the section sequence exactly, into non-empty
    groups in the original order; a section [i > 0] opens a group exactly
    when [_is_major_boundary] holds of it and its predecessor; and that
    test is true when the level is at most 2, and otherwise true exactly
    when one of the two contents, and not the other, holds a fence. *)
Theorem group_boundary_rule (sections : list Section_) :
  let groups := _group_related_sections sections in
  List.concat groups = sections
  /\ Forall (fun g => g <> []) groups
  /\ (forall i cur prev,
        (0 < i)%nat ->
        nth_error sections i = Some cur ->
        nth_error sections (i - 1) = Some prev ->
        (starts_group groups i
         <-> _is_major_boundary cur (Some prev) = true))
  /\ (forall cur prev,
        _is_major_boundary cur (Some prev) =
        if level cur <=? 2 then true
        else xorb (PyStr.contains FENCE (content prev))
                  (PyStr.contains FENCE (content cur))).
Proof.
  unfold _group_related_sections.
  pose proof (group_loop_invariant sections) as Hinv.
  destruct (group_loop None sections [] []) as [groups current].
  destruct Hinv as (Hcat & Hne & Hcur & Hstart).
  cbv zeta. split; [|split; [|split]].
  - destruct current; [now rewrite app_nil_r in Hcat|].
    now rewrite concat_app; simpl; rewrite app_nil_r.
  - destruct current; [assumption|].
    apply Forall_app; split; [assumption|]. now repeat constructor.
  - intros i cur prev H0 Hc Hp.
    destruct current as [|c0 current]; [|now apply Hstart].
    exfalso. apply Hcur; [|reflexivity]. intros ->. now destruct i.
  - intros cur prev. unfold _is_major_boundary, has_code.
    destruct (level cur <=? 2); [reflexivity|].
    now destruct (PyStr.contains FENCE (content prev)),
                 (PyStr.contains FENCE (content cur)).
Qed.

(** The boundary rule on a four-section page: the groups are
    [Intro, Notes], [Usage] and [API]. *)
Lemma group_boundary_rule_witness :
  List.concat (_group_related_sections doc_grouping) = doc_grouping
  /\ starts_group (_group_related_sections doc_grouping) 2.
Proof.
  destruct (group_boundary_rule doc_grouping) as (Hcat & _ & Hstart & _).
  split; [exact Hcat|].
  apply (Hstart 2%nat (mkSection 3 "Usage" "```run```")
                (mkSection 3 "Notes" "more prose"));
    [lia|reflexivity|reflexivity|reflexivity].
Defined.

End Grouping.

(** ** Validation and re-indexing *)

Section Validation.

Variable cfg : Config.
Variable estimate_tokens : string -> Z.
Context {M : Type}.

Implicit Types (chunk : FinalChunk M) (md : M) (chunks : list Chunk).

Lemma validate_loop_filter md total i chunks :
  validate_loop cfg md total i chunks
  = filter (fun chunk => fst (_validate_chunk cfg chunk))
           (numbered md total i chunks).
Proof.
  revert i. induction chunks as [|c chunks IH]; intro i; simpl.
  - reflexivity.
  - now rewrite IH.
Qed.

Lemma numbered_total md total i chunks chunk :
  In chunk (numbered md total i chunks) ->
  total_chunks (metadata chunk) = total.
Proof.
  revert i. induction chunks as [|c chunks IH]; intro i; simpl.
  - contradiction.
  - intros [<-|Hin]; [reflexivity|]. now apply (IH (i + 1)).
Qed.

Lemma reindex_loop_candidates total i (l : list (FinalChunk M)) :
  map (fun c => (candidate c, page (metadata c),
                 section_titles (metadata c)))
      (reindex_loop total i l)
  = map (fun c => (candidate c, page (metadata c),
                   section_titles (metadata c))) l.
Proof.
  revert i. induction l as [|c l IH]; intro i; simpl; [reflexivity|].
  now rewrite IH.
Qed.

Lemma reindex_loop_only_candidates total i (l : list (FinalChunk M)) :
  map candidate (reindex_loop total i l) = map candidate l.
Proof.
  revert i. induction l as [|c l IH]; intro i; simpl; [reflexivity|].
  now rewrite IH.
Qed.

Lemma reindex_loop_length total i (l : list (FinalChunk M)) :
  List.length (reindex_loop total i l) = List.length l.
Proof.
  revert i. induction l as [|c l IH]; intro i; simpl; [reflexivity|].
  now rewrite IH.
Qed.

Lemma reindex_loop_index total (l : list (FinalChunk M)) :
  forall i : nat,
  map (fun c => chunk_index (metadata c)) (reindex_loop total (Z.of_nat i) l)
  = map Z.of_nat (seq (S i) (List.length l)).
Proof.
  induction l as [|c l IH]; intro i; simpl; [reflexivity|].
  f_equal; [lia|].
  rewrite <- IH. do 2 f_equal. lia.
Qed.

Lemma reindex_loop_total total i (l : list (FinalChunk M)) :
  Forall (fun c => total_chunks (metadata c) = total)
         (reindex_loop total i l).
Proof.
  revert i. induction l as [|c l IH]; intro i; simpl; constructor; auto.
Qed.

Lemma validate_too_small chunk :
  token_count (candidate chunk) < CHUNK_SIZE_MIN cfg ->
  _validate_chunk cfg chunk =
  if total_chunks (metadata chunk) =? 1
  then (true, "Single chunk - size allowed")
  else if PyStr.contains FENCE (chunk_content (candidate chunk))
  then (true, "Contains important content")
  else (false, "Chunk too small ("
                 ++ PyStr.str_of_int (token_count (candidate chunk))
                 ++ " tokens)").
Proof.
  intro Hlt. unfold _validate_chunk.
  apply Z.ltb_lt in Hlt. now rewrite Hlt.
Qed.

(** C4: a chunk whose count is below the minimum is accepted exactly when
    it is the only provisionally numbered chunk of its document or its text
    holds a fence; otherwise the reason is the too-small one, and the chunk
    is absent from what [create_chunks] returns. *)
Theorem small_chunk_rule chunk :
  token_count (candidate chunk) < CHUNK_SIZE_MIN cfg ->
  (fst (_validate_chunk cfg chunk) = true
   <-> total_chunks (metadata chunk) = 1
       \/ PyStr.contains FENCE (chunk_content (candidate chunk)) = true)
  /\ (fst (_validate_chunk cfg chunk) = false ->
      snd (_validate_chunk cfg chunk)
      = "Chunk too small ("
          ++ PyStr.str_of_int (token_count (candidate chunk)) ++ " tokens)")
  /\ (forall sections md,
        let built := build_chunks cfg estimate_tokens sections in
        In chunk (numbered md (Z.of_nat (List.length built)) 0 built) ->
        (total_chunks (metadata chunk) = 1 <-> List.length built = 1%nat)
        /\ (fst (_validate_chunk cfg chunk) = false ->
            ~ In (candidate chunk)
                 (map candidate
                      (create_chunks cfg estimate_tokens sections md)))).
Proof.
  intro Hlt. rewrite (validate_too_small chunk Hlt).
  split; [|split].
  - destruct (Z.eqb_spec (total_chunks (metadata chunk)) 1) as [->|Hne];
      [simpl; tauto|].
    destruct (PyStr.contains FENCE (chunk_content (candidate chunk)));
      simpl; intuition congruence.
  - destruct (total_chunks (metadata chunk) =? 1); [discriminate|].
    now destruct (PyStr.contains FENCE (chunk_content (candidate chunk))).
  - intros sections md built Hin. split.
    + rewrite (numbered_total _ _ _ _ _ Hin). lia.
    + intros Hrej Habs.
      unfold create_chunks in Habs. fold built in Habs.
      apply in_map_iff in Habs. destruct Habs as (c' & Hcand & Hc').
      assert (Hsurv : In (candidate c')
                (map candidate
                   (filter (fun chunk => fst (_validate_chunk cfg chunk))
                      (numbered md (Z.of_nat (List.length built)) 0 built)))).
      { rewrite <- validate_loop_filter.
        rewrite <- (reindex_loop_only_candidates
                      (Z.of_nat (List.length
                         (validate_loop cfg md
                            (Z.of_nat (List.length built)) 0 built))) 0).
        now apply in_map. }
      apply in_map_iff in Hsurv. destruct Hsurv as (c'' & Hcand' & Hc'').
      apply filter_In in Hc''. destruct Hc'' as [Hnum Hacc].
      cbv beta in Hacc.
      assert (Hsame : _validate_chunk cfg c'' = _validate_chunk cfg chunk).
      { unfold _validate_chunk.
        rewrite (numbered_total _ _ _ _ _ Hnum),
                (numbered_total _ _ _ _ _ Hin).
        now rewrite Hcand', Hcand. }
      rewrite Hsame, (validate_too_small chunk Hlt) in Hacc. congruence.
Qed.

(** C9: the chunks returned by [create_chunks] are the provisionally
    numbered candidates that validate, in order and otherwise untouched;
    they are numbered 1, 2, ..., N, and each records N as the total. *)
Theorem reindexing_after_validation (sections : list Section_) md :
  let built := build_chunks cfg estimate_tokens sections in
  let out := create_chunks cfg estimate_tokens sections md in
  map (fun c => chunk_index (metadata c)) out
  = map Z.of_nat (seq 1 (List.length out))
  /\ Forall (fun c => total_chunks (metadata c)
                      = Z.of_nat (List.length out)) out
  /\ map (fun c => (candidate c, page (metadata c),
                    section_titles (metadata c))) out
     = map (fun c => (candidate c, page (metadata c),
                      section_titles (metadata c)))
           (filter (fun c => fst (_validate_chunk cfg c))
                   (numbered md (Z.of_nat (List.length built)) 0 built)).
Proof.
  intros built out. unfold out, create_chunks. fold built.
  rewrite reindex_loop_length. split; [|split].
  - apply (reindex_loop_index _ _ 0%nat).
  - apply reindex_loop_total.
  - rewrite reindex_loop_candidates. now rewrite validate_loop_filter.
Qed.

(** C10: when the minimum is not above the ceiling, a chunk whose count
    exceeds the ceiling is rejected as too large whatever the number of
    chunks of its document; a document whose only candidate is such a chunk
    yields no chunk at all. *)
Theorem oversized_rejected chunk :
  CHUNK_SIZE_MIN cfg <= CHUNK_SIZE_MAX cfg ->
  token_count (candidate chunk) > CHUNK_SIZE_MAX cfg ->
  _validate_chunk cfg chunk
  = (false, "Chunk too large ("
              ++ PyStr.str_of_int (token_count (candidate chunk))
              ++ " tokens)")
  /\ (forall sections md,
        numbered md 1 0 (build_chunks cfg estimate_tokens sections)
        = [chunk] ->
        create_chunks cfg estimate_tokens sections md = []).
Proof.
  intros Hcfg Hbig.
  assert (Hrej : _validate_chunk cfg chunk
                 = (false, "Chunk too large ("
                     ++ PyStr.str_of_int (token_count (candidate chunk))
                     ++ " tokens)")).
  { unfold _validate_chunk.
    destruct (Z.ltb_spec (token_count (candidate chunk))
                         (CHUNK_SIZE_MIN cfg)); [lia|].
    destruct (Z.gtb_spec (token_count (candidate chunk))
                         (CHUNK_SIZE_MAX cfg)); [reflexivity|lia]. }
  split; [exact Hrej|].
  intros sections md Hsole. unfold create_chunks.
  destruct (build_chunks cfg estimate_tokens sections) as [|c [|c' rest]];
    try discriminate.
  simpl in Hsole |- *. injection Hsole as Hsole. rewrite Hsole, Hrej.
  reflexivity.
Qed.

End Validation.

(** A two-chunk page: the undersized first chunk, without a fence, is
    rejected as too small. *)
Lemma small_chunk_rule_witness :
  snd (_validate_chunk rag_config chunk_intro) = "Chunk too small (4 tokens)"
  /\ ~ In (candidate chunk_intro)
          (map candidate (create_chunks rag_config fallback_estimate_tokens
                                        doc_two_small tt)).
Proof.
  destruct (small_chunk_rule rag_config fallback_estimate_tokens chunk_intro)
    as (_ & Hreason & Hdoc); [vm_compute; reflexivity|].
  split; [apply Hreason; reflexivity|].
  apply (proj2 (Hdoc doc_two_small tt (or_introl eq_refl))). reflexivity.
Defined.

(** The two chunks of a page that both validate are numbered 1 and 2. *)
Lemma reindexing_after_validation_witness :
  map (fun c => chunk_index (metadata c))
      (create_chunks rag_config fallback_estimate_tokens doc_two_fenced tt)
  = [1; 2].
Proof.
  exact (proj1 (reindexing_after_validation rag_config
                  fallback_estimate_tokens doc_two_fenced tt)).
Defined.

(** A heading-less page made of one fenced block of 5006 characters: its
    single candidate counts 1341 tokens and nothing is returned. *)
Lemma oversized_rejected_witness :
  CHUNK_SIZE_MIN rag_config <= CHUNK_SIZE_MAX rag_config
  /\ create_chunks rag_config fallback_estimate_tokens doc_big_fence tt = [].
Proof.
  split; [vm_compute; discriminate|].
  refine (proj2 (oversized_rejected rag_config fallback_estimate_tokens
                   chunk_big_fence _ _) doc_big_fence tt _).
  - vm_compute; discriminate.
  - vm_compute; reflexivity.
  - vm_compute; reflexivity.
Defined.

(** ** Thresholds *)

(** C8, as the code has it: whatever [chunk_size_target] the caller passes,
    the constructor of [RagProcessor] installs the thresholds 500, 800,
    1200 and 150, which are positive and strictly increasing; no
    configuration error is ever produced. *)
Theorem thresholds_fixed (chunk_size_target : Z) :
  RagProcessor_init chunk_size_target = Processor rag_config
  /\ spec_valid_config rag_config
  /\ (forall message,
        RagProcessor_init chunk_size_target <> ConfigurationError message).
Proof.
  split; [reflexivity|]. split.
  - unfold spec_valid_config, rag_config. simpl. lia.
  - intros message. discriminate.
Qed.

(** C8 fails as stated: the older constructor accepts a target of 100
    below its minimum of 300 and raises nothing, and the newer one does not
    take the target from the caller at all. *)
Lemma configuration_error_counterexample :
  (exists cfg, GK8.init 100 = Processor cfg
               /\ CHUNK_SIZE_MIN cfg >= CHUNK_SIZE_TARGET cfg)
  /\ (exists cfg, RagProcessor_init 100 = Processor cfg
                  /\ CHUNK_SIZE_TARGET cfg <> 100).
Proof.
  split.
  - exists (mkConfig 300 100 1500 100). split; [reflexivity|]. simpl. lia.
  - exists rag_config. split; [reflexivity|]. simpl. lia.
Qed.

(** ** Overlap *)

Section Overlap.

Variable cfg : Config.

Lemma slice_from_last_n {A} (k : Z) (l : list A) :
  1 <= k -> k < Z.of_nat (List.length l) ->
  PyStr.slice_from (- k) l = last_n (Z.to_nat k) l.
Proof.
  intros Hk Hlen. unfold PyStr.slice_from, last_n.
  destruct (Z.ltb_spec (- k) 0); [|lia].
  f_equal. lia.
Qed.

(** C7, as the code has it: with [k = CHUNK_OVERLAP * 4 // 5] at least 1,
    the overlap is the last [k] whitespace-delimited words joined by single
    spaces when the text has more than [k] words, and the text itself
    otherwise. *)
Theorem overlap_slice (text : string) :
  let k := CHUNK_OVERLAP cfg * 4 / 5 in
  let words := PyStr.split_ws text in
  1 <= k ->
  (k < Z.of_nat (List.length words) ->
   _get_overlap_content cfg text
   = PyStr.join " " (last_n (Z.to_nat k) words))
  /\ (Z.of_nat (List.length words) <= k ->
      _get_overlap_content cfg text = text).
Proof.
  intros k words Hk. unfold _get_overlap_content. fold words k.
  split; intro Hlen.
  - destruct (Z.gtb_spec (Z.of_nat (List.length words)) k); [|lia].
    now rewrite slice_from_last_n.
  - destruct (Z.gtb_spec (Z.of_nat (List.length words)) k); [lia|].
    reflexivity.
Qed.

(** The floor and the rounding agree when [CHUNK_OVERLAP] is 0, 3 or 4
    modulo 5, as for the values 150 and 100 the two processors use. *)
Lemma overlap_words_agree :
  (CHUNK_OVERLAP cfg mod 5 = 0 \/ CHUNK_OVERLAP cfg mod 5 = 3
   \/ CHUNK_OVERLAP cfg mod 5 = 4) ->
  CHUNK_OVERLAP cfg * 4 / 5 = spec_overlap_words cfg.
Proof.
  unfold spec_overlap_words. intros Hmod.
  Z.div_mod_to_equations. lia.
Qed.

End Overlap.

(** With an overlap budget of 5 tokens the last 4 words are carried. *)
Lemma overlap_slice_witness :
  _get_overlap_content (mkConfig 500 800 1200 5) "one two  three four five"
  = "two three four five".
Proof.
  refine (proj1 (overlap_slice (mkConfig 500 800 1200 5)
                   "one two  three four five" _) _);
    vm_compute; [discriminate|reflexivity].
Defined.

(** C7 fails as stated: with a budget of 2 tokens the code carries
    [2 * 4 // 5 = 1] word, where [round(2 * 0.8) = 2] words are claimed. *)
Lemma overlap_round_counterexample :
  0 < CHUNK_OVERLAP overlap_two_config
  /\ _get_overlap_content overlap_two_config "a b" = "b"
  /\ spec_overlap_content overlap_two_config "a b" = "a b"
  /\ _get_overlap_content overlap_two_config "a b"
     <> spec_overlap_content overlap_two_config "a b".
Proof.
  split; [simpl; lia|].
  split; [reflexivity|]. split; [reflexivity|]. discriminate.
Qed.

(** ** The splitter on oversized groups *)

(** C1 does not hold of the code.  When a fenced section is reached with a
    buffer below the minimum, the outcome is the one an empty buffer would
    give: the buffered text is in no chunk.  Text that follows a fenced
    block and does not fit under the ceiling leaves the state as it is.
    On a page whose short fenced section "A" is followed in the same group
    by a large fenced section "B", no candidate holds the text of "A"; on
    a page whose fenced block is followed by 5000 characters of prose, the
    prose is in no candidate. *)
Theorem coverage_lost_in_fenced_sections :
  (forall cfg estimate_tokens section st,
     current_tokens st < CHUNK_SIZE_MIN cfg ->
     split_code_section cfg estimate_tokens section st
     = split_code_section cfg estimate_tokens section
                          (mkSplit (chunks st) "" [] 0))
  /\ (forall cfg estimate_tokens text_after st,
        current_tokens st + estimate_tokens text_after > CHUNK_SIZE_MAX cfg ->
        add_text_after cfg estimate_tokens text_after st = st)
  /\ (let built :=
        build_chunks rag_config fallback_estimate_tokens doc_small_buffer in
      map chunk_content built
      = ["# B"; "# B (continued)" ++ BLANK ++ "```" ++ xs 5000 ++ "```"]
      /\ existsb (fun c => PyStr.contains "```a```" (chunk_content c)) built
         = false)
  /\ (let built :=
        build_chunks rag_config fallback_estimate_tokens doc_text_after in
      map chunk_content built = ["# A" ++ BLANK ++ BLANK ++ "```a```"]
      /\ existsb (fun c => PyStr.contains (xs 5000) (chunk_content c)) built
         = false).
Proof.
  split; [|split; [|split]].
  - intros cfg estimate_tokens section st Hsmall.
    unfold split_code_section. cbn [current_chunk_content current_tokens].
    destruct (Z.geb_spec (current_tokens st) (CHUNK_SIZE_MIN cfg)); [lia|].
    now rewrite andb_false_r.
  - intros cfg estimate_tokens text_after st Hbig. unfold add_text_after.
    destruct (Z.leb_spec (current_tokens st + estimate_tokens text_after)
                         (CHUNK_SIZE_MAX cfg)); [lia|reflexivity].
  - cbv zeta. split; vm_compute; reflexivity.
  - cbv zeta. split; vm_compute; reflexivity.
Qed.

(** C5 does not hold of [RagProcessor].  With a positive minimum, the
    splitter turns a group made of one prose section into a single
    candidate holding the whole section, however large it is and whatever
    blank lines it holds.  On a section of two paragraphs, 1333 tokens in
    all, that candidate is then rejected as too large and the page yields
    nothing.  The older [create_chunks] does split such a section at its
    blank line. *)
Theorem oversized_section_not_split :
  (forall cfg estimate_tokens section,
     0 < CHUNK_SIZE_MIN cfg ->
     PyStr.contains FENCE (content section) = false ->
     _split_large_group cfg estimate_tokens [section]
     = if PyStr.is_empty (PyStr.strip (rendered section)) then []
       else [mkChunk (PyStr.strip (rendered section)) [title section]
                     (estimate_tokens (content section))])
  /\ map (fun c => (chunk_content c, token_count c))
         (build_chunks rag_config fallback_estimate_tokens
                       doc_two_paragraphs)
     = [("# T" ++ BLANK ++ xs 2500 ++ BLANK ++ xs 2500, 1333)]
  /\ create_chunks rag_config fallback_estimate_tokens doc_two_paragraphs tt
     = []
  /\ map (fun c => (chunk_content c, token_count c))
         (GK8.build_chunks (mkConfig 300 1000 1500 100)
                           doc_two_paragraphs_gk8)
     = [("# T" ++ BLANK ++ xs 3500, 876); ("# T" ++ BLANK ++ xs 3500, 876)].
Proof.
  split; [|repeat split; vm_compute; reflexivity].
  intros cfg estimate_tokens section Hmin Hprose.
  unfold _split_large_group. cbn [fold_left].
  unfold split_section, has_code. rewrite Hprose.
  unfold split_text_section. cbn [current_tokens current_chunk_content
                                   current_chunk_sections chunks].
  destruct (Z.geb_spec 0 (CHUNK_SIZE_MIN cfg)); [lia|].
  assert (Hsame : (if 0 + estimate_tokens (content section)
                        >? CHUNK_SIZE_TARGET cfg
                   then mkSplit [] ("" ++ rendered section)
                                ([] ++ [title section])
                                (0 + estimate_tokens (content section))
                   else mkSplit [] ("" ++ rendered section)
                                ([] ++ [title section])
                                (0 + estimate_tokens (content section)))
                  = mkSplit [] (rendered section) [title section]
                            (estimate_tokens (content section))).
  { destruct (_ >? _); reflexivity. }
  rewrite Hsame. unfold finish, saved.
  cbn [current_tokens current_chunk_content current_chunk_sections chunks].
  destruct (PyStr.is_empty (PyStr.strip (rendered section))); reflexivity.
Qed.

(** ** Token counts of the candidates *)

Lemma append_assoc (a b c : string) : (a ++ b) ++ c = a ++ b ++ c.
Proof.
  induction a as [|x a IH]; simpl; [reflexivity|]. now rewrite IH.
Qed.

Lemma append_nil_r (a : string) : a ++ "" = a.
Proof.
  induction a as [|x a IH]; simpl; [reflexivity|]. now rewrite IH.
Qed.

Lemma list_pair_ind {A} (P : list A -> Prop) :
  P [] -> (forall x, P [x]) ->
  (forall x y l, P l -> P (x :: y :: l)) ->
  forall l, P l.
Proof.
  intros Hnil Hone Hstep.
  assert (Hboth : forall l, P l /\ forall x, P (x :: l)).
  { induction l as [|y l [IHl IHcons]]; split; auto. }
  intro l. apply Hboth.
Qed.

Section Tracking.

Variable cfg : Config.
Variable estimate_tokens : string -> Z.

Local Abbreviation tracked' := (tracked estimate_tokens).
Local Abbreviation accounted' := (accounted estimate_tokens).
Local Abbreviation split_accounted' := (split_accounted estimate_tokens).

Lemma saved_accounted st : split_accounted' st -> accounted' (saved st).
Proof.
  intros [Hbuf _]. exists (current_chunk_content st). now split.
Qed.

Lemma emitted_accounted st :
  split_accounted' st ->
  Forall accounted' (chunks st ++ [saved st]).
Proof.
  intros Hst. apply Forall_app. split; [apply Hst|].
  constructor; [now apply saved_accounted|constructor].
Qed.

Lemma add_code_block_accounted section part st :
  split_accounted' st ->
  split_accounted' (add_code_block cfg estimate_tokens section part st).
Proof.
  intros Hst. unfold add_code_block.
  destruct (_ >? _).
  - split; cbn [chunks current_chunk_content current_tokens]; [constructor|].
    destruct (negb _); [now apply emitted_accounted|apply Hst].
  - split; cbn [chunks current_chunk_content current_tokens]; [|apply Hst].
    apply tracked_appended; [apply Hst|now left].
Qed.

Lemma add_text_after_accounted text_after st :
  split_accounted' st ->
  split_accounted' (add_text_after cfg estimate_tokens text_after st).
Proof.
  intros Hst. unfold add_text_after.
  destruct (_ <=? _); [|assumption].
  split; cbn [chunks current_chunk_content current_tokens]; [|apply Hst].
  apply tracked_appended; [apply Hst|now left].
Qed.

Lemma code_blocks_loop_accounted section parts :
  forall st,
  split_accounted' st ->
  split_accounted' (code_blocks_loop cfg estimate_tokens section parts st).
Proof.
  induction parts as [|part|part text_after parts IH] using list_pair_ind;
    intros st Hst.
  - assumption.
  - now apply add_code_block_accounted.
  - change (split_accounted'
              (code_blocks_loop cfg estimate_tokens section parts
                 (add_text_after cfg estimate_tokens text_after
                    (add_code_block cfg estimate_tokens section part st)))).
    apply IH, add_text_after_accounted, add_code_block_accounted, Hst.
Qed.

Lemma split_code_section_accounted section st :
  split_accounted' st ->
  split_accounted' (split_code_section cfg estimate_tokens section st).
Proof.
  intros Hst. unfold split_code_section.
  apply code_blocks_loop_accounted. split; cbn [chunks current_chunk_content current_tokens]; [constructor|].
  destruct (_ && _); cbn [chunks]; [now apply emitted_accounted|apply Hst].
Qed.

Lemma rendered_glue section :
  exists glue, is_glue glue /\ rendered section = glue ++ content section.
Proof.
  unfold rendered. destruct (is_titled section).
  - exists (BLANK ++ "# " ++ title section ++ BLANK). split.
    + right. now exists (title section).
    + now rewrite !append_assoc.
  - exists BLANK. split; [now left|reflexivity].
Qed.

Lemma split_text_section_accounted section st :
  split_accounted' st ->
  split_accounted' (split_text_section cfg estimate_tokens section st).
Proof.
  intros Hst. unfold split_text_section.
  destruct (rendered_glue section) as (glue & Hglue & ->).
  assert (Happ : split_accounted'
            (mkSplit (chunks st)
               (current_chunk_content st ++ glue ++ content section)
               (current_chunk_sections st ++ [title section])
               (current_tokens st + estimate_tokens (content section)))).
  { split; cbn [chunks current_chunk_content current_tokens]; [|apply Hst]. apply tracked_appended; [apply Hst|exact Hglue]. }
  destruct (_ >? _); [|exact Happ].
  destruct (_ >=? _); [|exact Happ].
  split; cbn [chunks current_chunk_content current_tokens]; [constructor|now apply emitted_accounted].
Qed.

Lemma split_section_accounted st section :
  split_accounted' st ->
  split_accounted' (split_section cfg estimate_tokens st section).
Proof.
  unfold split_section. destruct (has_code section);
    [apply split_code_section_accounted|apply split_text_section_accounted].
Qed.

Lemma fold_split_accounted group :
  forall st,
  split_accounted' st ->
  split_accounted'
    (fold_left (split_section cfg estimate_tokens) group st).
Proof.
  induction group as [|section group IH]; intros st Hst; simpl;
    [assumption|].
  apply IH, split_section_accounted, Hst.
Qed.

Lemma fold_rendered (sections : list Section_) :
  forall acc,
  fold_left (fun acc section => acc ++ rendered section) sections acc
  = acc ++ String.concat "" (map rendered sections).
Proof.
  induction sections as [|s sections IH]; intro acc; simpl.
  - now rewrite append_nil_r.
  - rewrite IH, append_assoc. f_equal.
    destruct sections; [simpl; now rewrite append_nil_r|reflexivity].
Qed.

Lemma split_code_section_opening section st :
  split_code_section cfg estimate_tokens section st
  = code_blocks_loop cfg estimate_tokens section
      (tl (PyStr.split FENCE (content section)))
      (code_opening cfg estimate_tokens section st).
Proof. reflexivity. Qed.

Lemma code_blocks_loop_emits section (parts : list string) :
  forall st c,
  In c (chunks (code_blocks_loop cfg estimate_tokens section parts st)) ->
  In c (chunks st)
  \/ exists st',
       In st' (block_states cfg estimate_tokens section parts st)
       /\ c = saved st'.
Proof.
  assert (Hblock : forall part st c,
            In c (chunks (add_code_block cfg estimate_tokens section part st))
            -> In c (chunks st) \/ c = saved st).
  { intros part st c. unfold add_code_block.
    destruct (_ >? _); cbn [chunks]; [|now left].
    destruct (negb _); [|now left].
    intro Hc. apply in_app_or in Hc.
    destruct Hc as [Hc|[<-|[]]]; [now left|now right]. }
  assert (Htext : forall text_after st,
            chunks (add_text_after cfg estimate_tokens text_after st)
            = chunks st).
  { intros text_after st. unfold add_text_after. now destruct (_ <=? _). }
  induction parts as [|part|part text_after parts IH] using list_pair_ind;
    intros st c Hc.
  - now left.
  - cbn [code_blocks_loop] in Hc.
    destruct (Hblock _ _ _ Hc) as [Hst| ->]; [now left|right].
    exists st. split; [now left|reflexivity].
  - change (In c (chunks
              (code_blocks_loop cfg estimate_tokens section parts
                 (add_text_after cfg estimate_tokens text_after
                    (add_code_block cfg estimate_tokens section part st)))))
      in Hc.
    destruct (IH _ _ Hc) as [Hst|(st' & Hst' & ->)].
    + rewrite Htext in Hst.
      destruct (Hblock _ _ _ Hst) as [Hst0| ->]; [now left|right].
      exists st. split; [now left|reflexivity].
    + right. exists st'. split; [|reflexivity].
      cbn [block_states]. right. now right.
Qed.

Lemma split_section_emits st section c :
  In c (chunks (split_section cfg estimate_tokens st section)) ->
  In c (chunks st)
  \/ exists st',
       In st' (section_states cfg estimate_tokens [section] st)
       /\ c = saved st'.
Proof.
  assert (Hsaved : forall l, In c (chunks st ++ [saved st]) ->
            In c (chunks st)
            \/ exists st', In st' (st :: l) /\ c = saved st').
  { intros l Hc. apply in_app_or in Hc.
    destruct Hc as [Hc|[<-|[]]]; [now left|right].
    exists st. split; [now left|reflexivity]. }
  cbn [section_states]. unfold split_section.
  destruct (has_code section).
  - rewrite split_code_section_opening. intro Hc.
    apply code_blocks_loop_emits in Hc.
    destruct Hc as [Hc|(st' & Hst' & ->)].
    + unfold code_opening in Hc. cbn [chunks] in Hc.
      destruct (_ && _); cbn [chunks] in Hc; [now apply Hsaved|now left].
    + right. exists st'. split; [|reflexivity].
      right. apply in_or_app. now left.
  - unfold split_text_section.
    destruct (_ >? _); [destruct (_ >=? _)|]; cbn [chunks];
      try (intro; now left).
    apply Hsaved.
Qed.

Lemma section_states_cons section (group : list Section_) st st' :
  In st' (section_states cfg estimate_tokens [section] st)
  \/ In st' (section_states cfg estimate_tokens group
               (split_section cfg estimate_tokens st section)) ->
  In st' (section_states cfg estimate_tokens (section :: group) st).
Proof.
  cbn [section_states].
  intros [[Hhead|Hin]|Hin].
  - now left.
  - right. apply in_app_or in Hin. apply in_or_app.
    destruct Hin as [Hin|[<-|[]]]; [now left|right].
    destruct group; now left.
  - right. apply in_or_app. now right.
Qed.

Lemma fold_split_emits (group : list Section_) :
  forall st c,
  In c (chunks (fold_left (split_section cfg estimate_tokens) group st)) ->
  In c (chunks st)
  \/ exists st',
       In st' (section_states cfg estimate_tokens group st) /\ c = saved st'.
Proof.
  induction group as [|section group IH]; intros st c Hc; [now left|].
  simpl in Hc. destruct (IH _ _ Hc) as [Hst|(st' & Hst' & ->)].
  - destruct (split_section_emits _ _ _ Hst) as [Hst0|(st' & Hst' & ->)];
      [now left|right].
    exists st'. split; [|reflexivity]. apply section_states_cons. now left.
  - right. exists st'. split; [|reflexivity].
    apply section_states_cons. now right.
Qed.

Lemma fold_split_last (group : list Section_) :
  forall st,
  In (fold_left (split_section cfg estimate_tokens) group st)
     (section_states cfg estimate_tokens group st).
Proof.
  induction group as [|section group IH]; intro st; [now left|].
  apply section_states_cons. right. apply IH.
Qed.

(** Every candidate of the splitter is the buffer of one of the states
    the splitter goes through, saved with the count of that state. *)
Lemma split_large_group_saved (group : list Section_) (c : Chunk) :
  In c (_split_large_group cfg estimate_tokens group) ->
  exists st,
    In st (section_states cfg estimate_tokens group (mkSplit [] "" [] 0))
    /\ c = saved st.
Proof.
  unfold _split_large_group, finish. intro Hc.
  assert (Hcase : In c (chunks (fold_left (split_section cfg estimate_tokens)
                                   group (mkSplit [] "" [] 0)))
                  \/ c = saved (fold_left (split_section cfg estimate_tokens)
                                  group (mkSplit [] "" [] 0))).
  { destruct (negb _); [|now left]. apply in_app_or in Hc.
    destruct Hc as [Hc|[<-|[]]]; [now left|now right]. }
  destruct Hcase as [Hin| ->].
  - apply fold_split_emits in Hin. destruct Hin as [[]|Hst]. exact Hst.
  - eexists. split; [apply fold_split_last|reflexivity].
Qed.

Lemma code_opening_accounted section st :
  split_accounted' st ->
  split_accounted' (code_opening cfg estimate_tokens section st).
Proof.
  intros Hst. unfold code_opening.
  split; cbn [chunks current_chunk_content current_tokens]; [constructor|].
  destruct (_ && _); cbn [chunks]; [now apply emitted_accounted|apply Hst].
Qed.

Lemma block_states_accounted section (parts : list string) :
  forall st,
  split_accounted' st ->
  Forall split_accounted'
         (block_states cfg estimate_tokens section parts st).
Proof.
  induction parts as [|part|part text_after parts IH] using list_pair_ind;
    intros st Hst; cbn [block_states].
  - constructor; [assumption|constructor].
  - constructor; [assumption|].
    constructor; [now apply add_code_block_accounted|constructor].
  - constructor; [assumption|].
    constructor; [now apply add_code_block_accounted|].
    apply IH, add_text_after_accounted, add_code_block_accounted, Hst.
Qed.

Lemma section_states_accounted (group : list Section_) :
  forall st,
  split_accounted' st ->
  Forall split_accounted' (section_states cfg estimate_tokens group st).
Proof.
  induction group as [|section group IH]; intros st Hst;
    cbn [section_states].
  - constructor; [assumption|constructor].
  - constructor; [assumption|]. apply Forall_app. split.
    + destruct (has_code section); [|constructor].
      apply block_states_accounted, code_opening_accounted, Hst.
    + apply IH, split_section_accounted, Hst.
Qed.

Lemma fold_unflushed (group : list Section_) :
  Forall (fun s => has_code s = false) group ->
  forall st,
  unflushed cfg estimate_tokens (current_tokens st) group = true ->
  fold_left (split_section cfg estimate_tokens) group st
  = mkSplit (chunks st)
      (current_chunk_content st ++ String.concat "" (map rendered group))
      (current_chunk_sections st ++ map title group)
      (fold_left Z.add
         (map (fun s => estimate_tokens (content s)) group)
         (current_tokens st)).
Proof.
  induction 1 as [|section group Hprose _ IH]; intros st Hun.
  - simpl. rewrite append_nil_r, app_nil_r. now destruct st.
  - cbn [unflushed] in Hun. apply andb_true_iff in Hun.
    destruct Hun as [Hkeep Hrest].
    assert (Hstep : split_section cfg estimate_tokens st section
              = mkSplit (chunks st)
                  (current_chunk_content st ++ rendered section)
                  (current_chunk_sections st ++ [title section])
                  (current_tokens st + estimate_tokens (content section))).
    { unfold split_section. rewrite Hprose. unfold split_text_section.
      destruct (_ >? _); [|reflexivity].
      destruct (_ >=? _); [discriminate|reflexivity]. }
    cbn [fold_left]. rewrite Hstep, IH by (cbn [current_tokens]; exact Hrest).
    cbn [chunks current_chunk_content current_chunk_sections current_tokens
         map fold_left].
    rewrite <- app_assoc, append_assoc.
    f_equal. f_equal.
    destruct group; simpl; [now rewrite append_nil_r|reflexivity].
Qed.

(** C6, as the code has it.  A candidate built by
    [_create_chunk_from_sections] carries the estimate of its whole
    rendered text, headers and separators included, taken before the text
    is trimmed.  In [_split_large_group] every candidate is a buffer the
    splitter went through, saved with the running count of that moment,
    and the running count is kept as follows: it is estimated from the
    whole buffer when the buffer is assigned (opening of a fenced section,
    "(continued)" buffer, buffer seeded with the overlap), and it grows by
    the estimate of the appended piece alone when a fenced block, the text
    after a block or a prose section is appended, the blank lines and the
    re-inserted header left out.  So a group of prose sections that is
    never saved on the way comes out with the sum of the estimates of the
    section contents as the count of a text that holds the headers and the
    separators as well. *)
Theorem token_count_tracking (group : list Section_) :
  (let text := String.concat "" (map rendered group) in
   let c := _create_chunk_from_sections estimate_tokens group in
   chunk_content c = PyStr.strip text
   /\ token_count c = estimate_tokens text)
  /\ Forall (accounted estimate_tokens)
            (_split_large_group cfg estimate_tokens group)
  /\ (forall c,
        In c (_split_large_group cfg estimate_tokens group) ->
        exists st,
          In st (section_states cfg estimate_tokens group
                   (mkSplit [] "" [] 0))
          /\ chunk_content c = PyStr.strip (current_chunk_content st)
          /\ token_count c = current_tokens st)
  /\ (forall section part st,
        let block := FENCE ++ part ++ FENCE in
        let st' := add_code_block cfg estimate_tokens section part st in
        (current_tokens st + estimate_tokens block <= CHUNK_SIZE_MAX cfg ->
         current_chunk_content st'
         = current_chunk_content st ++ BLANK ++ block
         /\ current_tokens st' = current_tokens st + estimate_tokens block)
        /\ (current_tokens st + estimate_tokens block > CHUNK_SIZE_MAX cfg ->
            current_chunk_content st'
            = "# " ++ title section ++ " (continued)" ++ BLANK ++ block
            /\ current_tokens st'
               = estimate_tokens (current_chunk_content st')))
  /\ (forall text_after st,
        let st' := add_text_after cfg estimate_tokens text_after st in
        (current_tokens st + estimate_tokens text_after
         <= CHUNK_SIZE_MAX cfg ->
         current_chunk_content st'
         = current_chunk_content st ++ BLANK ++ text_after
         /\ current_tokens st'
            = current_tokens st + estimate_tokens text_after)
        /\ (current_tokens st + estimate_tokens text_after
            > CHUNK_SIZE_MAX cfg -> st' = st))
  /\ (forall section st,
        let st' := split_text_section cfg estimate_tokens section st in
        let section_tokens := estimate_tokens (content section) in
        (current_tokens st + section_tokens > CHUNK_SIZE_TARGET cfg
         /\ current_tokens st >= CHUNK_SIZE_MIN cfg ->
         current_chunk_content st'
         = _get_overlap_content cfg (current_chunk_content st)
             ++ rendered section
         /\ current_tokens st'
            = estimate_tokens (current_chunk_content st'))
        /\ (current_tokens st + section_tokens <= CHUNK_SIZE_TARGET cfg
            \/ current_tokens st < CHUNK_SIZE_MIN cfg ->
            current_chunk_content st'
            = current_chunk_content st ++ rendered section
            /\ current_tokens st' = current_tokens st + section_tokens))
  /\ (forall section st,
        let st' := code_opening cfg estimate_tokens section st in
        split_code_section cfg estimate_tokens section st
        = code_blocks_loop cfg estimate_tokens section
            (tl (PyStr.split FENCE (content section))) st'
        /\ current_tokens st' = estimate_tokens (current_chunk_content st'))
  /\ (Forall (fun s => PyStr.contains FENCE (content s) = false) group ->
      unflushed cfg estimate_tokens 0 group = true ->
      fold_left (split_section cfg estimate_tokens) group
                (mkSplit [] "" [] 0)
      = mkSplit [] (String.concat "" (map rendered group))
                (map title group)
                (fold_left Z.add
                   (map (fun s => estimate_tokens (content s)) group) 0)).
Proof.
  split; [|split; [|split; [|split; [|split; [|split; [|split]]]]]].
  - unfold _create_chunk_from_sections. cbv zeta. simpl.
    now rewrite fold_rendered.
  - unfold _split_large_group, finish.
    pose proof (fold_split_accounted group (mkSplit [] "" [] 0)) as Hst.
    destruct (negb _).
    + apply emitted_accounted, Hst. split; constructor.
    + apply Hst. split; constructor.
  - intros c Hc. destruct (split_large_group_saved group c Hc)
      as (st & Hst & ->).
    exists st. now repeat split.
  - intros section part st block st'. unfold st', add_code_block.
    fold block. split; intro Hsize.
    + destruct (Z.gtb_spec (current_tokens st + estimate_tokens block)
                           (CHUNK_SIZE_MAX cfg)); [lia|]. now split.
    + destruct (Z.gtb_spec (current_tokens st + estimate_tokens block)
                           (CHUNK_SIZE_MAX cfg)); [|lia]. now split.
  - intros text_after st st'. unfold st', add_text_after.
    split; intro Hsize.
    + destruct (Z.leb_spec (current_tokens st + estimate_tokens text_after)
                           (CHUNK_SIZE_MAX cfg)); [|lia]. now split.
    + destruct (Z.leb_spec (current_tokens st + estimate_tokens text_after)
                           (CHUNK_SIZE_MAX cfg)); [lia|reflexivity].
  - intros section st st' section_tokens. unfold st', split_text_section.
    fold section_tokens. split.
    + intros [Hbig Hmin].
      destruct (Z.gtb_spec (current_tokens st + section_tokens)
                           (CHUNK_SIZE_TARGET cfg)); [|lia].
      destruct (Z.geb_spec (current_tokens st) (CHUNK_SIZE_MIN cfg)); [|lia].
      now split.
    + intros Hcase.
      destruct (Z.gtb_spec (current_tokens st + section_tokens)
                           (CHUNK_SIZE_TARGET cfg)); [|now split].
      destruct (Z.geb_spec (current_tokens st) (CHUNK_SIZE_MIN cfg));
        [lia|now split].
  - intros section st st'. split; [apply split_code_section_opening|].
    reflexivity.
  - intros Hprose Hun.
    now rewrite (fold_unflushed group Hprose (mkSplit [] "" [] 0) Hun).
Qed.

End Tracking.

(** C6 fails as stated: while the two-paragraph section is being added,
    the buffer holds a text estimated at 1335 tokens with a stored count of
    1333, and the candidate saved from it keeps that count. *)
Lemma token_count_drift_counterexample :
  (current_tokens state_two_paragraphs = 1333
   /\ fallback_estimate_tokens (current_chunk_content state_two_paragraphs)
      = 1335)
  /\ exists c,
       In c (build_chunks rag_config fallback_estimate_tokens
                          doc_two_paragraphs)
       /\ token_count c = 1333
       /\ fallback_estimate_tokens (chunk_content c) = 1335.
Proof.
  split; [split; vm_compute; reflexivity|].
  eexists. split; [left; reflexivity|]. split; vm_compute; reflexivity.
Qed.

(** The two-paragraph section is appended to the empty buffer and never
    saved on the way: the count is the estimate of the content, 1333, for
    a buffer that holds the header and the blank lines too. *)
Lemma token_count_tracking_witness :
  state_two_paragraphs
  = mkSplit [] (BLANK ++ "# T" ++ BLANK ++ xs 2500 ++ BLANK ++ xs 2500)
            ["T"] 1333.
Proof.
  destruct (token_count_tracking rag_config fallback_estimate_tokens
              doc_two_paragraphs)
    as (_ & _ & _ & _ & _ & _ & _ & Hclosed).
  unfold state_two_paragraphs. rewrite Hclosed.
  - vm_compute. reflexivity.
  - repeat constructor.
  - vm_compute. reflexivity.
Defined.

(** ** Fences *)

Section FenceCounting.

Implicit Types (a b p s text : string).

(** Decide the comparisons of the first characters with the backquote. *)
Ltac fence_cases :=
  unfold FENCE; cbn [String.prefix String.append];
  repeat match goal with
         | |- context [ascii_dec ?x ?y] => destruct (ascii_dec x y)
         end.

Lemma prefix_nil s : String.prefix "" s = true.
Proof. now destruct s. Qed.

Lemma prefix_fence_length s :
  String.prefix FENCE s = true -> (3 <= String.length s)%nat.
Proof.
  destruct s as [|c1 [|c2 [|c3 s]]]; fence_cases;
    try discriminate; intros _; simpl; lia.
Qed.

Lemma prefix_fence_app a b :
  clear_start b -> String.prefix FENCE (a ++ b) = String.prefix FENCE a.
Proof.
  intro Hb.
  destruct a as [|c1 [|c2 [|c3 a]]];
    destruct b as [|x [|y [|z b]]]; cbn [clear_start] in Hb;
    fence_cases; rewrite ?prefix_nil; congruence.
Qed.

Lemma prefix_app sep a b :
  String.prefix sep a = true -> String.prefix sep (a ++ b) = true.
Proof.
  revert a. induction sep as [|c sep IH]; intros a; [intros _; apply prefix_nil|].
  destruct a as [|x a]; simpl; [discriminate|].
  destruct (ascii_dec c x); [apply IH|discriminate].
Qed.

Lemma fence_free_cons c s :
  fence_free (String c s) ->
  String.prefix FENCE (String c s) = false /\ fence_free s.
Proof.
  unfold fence_free. cbn [PyStr.contains]. intro H.
  now apply orb_false_iff in H.
Qed.

Lemma count_go_fence_free sep s :
  PyStr.contains sep s = false ->
  forall skip, PyStr.count_go sep skip s = 0.
Proof.
  induction s as [|c s IH]; intros Hfree skip; [reflexivity|].
  cbn [PyStr.contains] in Hfree. apply orb_false_iff in Hfree.
  destruct Hfree as [Hpre Hfree].
  destruct skip as [|k]; cbn [PyStr.count_go]; [rewrite Hpre|]; now apply IH.
Qed.

Lemma count_fence_free s : fence_free s -> PyStr.count FENCE s = 0.
Proof. intro H. now apply count_go_fence_free. Qed.

Lemma count_go_app a b :
  clear_start b ->
  forall skip, (skip <= String.length a)%nat ->
  PyStr.count_go FENCE skip (a ++ b)
  = PyStr.count_go FENCE skip a + PyStr.count FENCE b.
Proof.
  intro Hb. induction a as [|c a IH]; intros skip Hskip.
  - simpl in Hskip. now replace skip with 0%nat by lia.
  - destruct skip as [|k].
    + change (String c a ++ b) with (String c (a ++ b)).
      cbn [PyStr.count_go].
      change (String c (a ++ b)) with (String c a ++ b).
      rewrite (prefix_fence_app _ _ Hb).
      destruct (String.prefix FENCE (String c a)) eqn:Hpre.
      * apply prefix_fence_length in Hpre. simpl in Hpre.
        rewrite IH by (simpl; lia). lia.
      * apply IH. lia.
    + simpl in Hskip. simpl. apply IH. lia.
Qed.

Lemma count_app a b :
  clear_start b ->
  PyStr.count FENCE (a ++ b) = PyStr.count FENCE a + PyStr.count FENCE b.
Proof. intro Hb. apply count_go_app; [assumption|lia]. Qed.

(** Across a blank-line separator the counts add up. *)
Lemma count_blank a b :
  PyStr.count FENCE (a ++ BLANK ++ b)
  = PyStr.count FENCE a + PyStr.count FENCE b.
Proof.
  rewrite count_app; [reflexivity|]. simpl. discriminate.
Qed.

Lemma count_cons c s :
  PyStr.count FENCE (String c s)
  = if String.prefix FENCE (String c s)
    then 1 + PyStr.count_go FENCE 2 s
    else PyStr.count FENCE s.
Proof. reflexivity. Qed.

Lemma count_closing p :
  fence_free p -> PyStr.count FENCE (p ++ FENCE) = 1.
Proof.
  induction p as [|c p IH]; intro Hfree; [reflexivity|].
  apply fence_free_cons in Hfree. destruct Hfree as [Hpre Hfree].
  unfold PyStr.count.
  change (String c p ++ FENCE) with (String c (p ++ FENCE)).
  cbn [PyStr.count_go].
  destruct (String.prefix FENCE (String c (p ++ FENCE))) eqn:Hpre'.
  - destruct p as [|c2 [|c3 p]].
    + reflexivity.
    + reflexivity.
    + exfalso. revert Hpre Hpre'.
      fence_cases; rewrite ?prefix_nil; congruence.
  - now apply IH.
Qed.

(** A fenced block counts its two delimiters. *)
Lemma count_block p :
  fence_free p -> PyStr.count FENCE (FENCE ++ p ++ FENCE) = 2.
Proof.
  intro Hfree.
  change (FENCE ++ p ++ FENCE)
    with (String "`" (String "`" (String "`" (p ++ FENCE)))).
  rewrite count_cons.
  replace (String.prefix FENCE
             (String "`" (String "`" (String "`" (p ++ FENCE)))))
    with true
    by (symmetry; fence_cases; try congruence; apply prefix_nil).
  change (1 + PyStr.count FENCE (p ++ FENCE) = 2).
  now rewrite count_closing.
Qed.

Lemma is_space_clear c : PyStr.is_space c = true -> c <> "`"%char.
Proof. intros H ->. discriminate. Qed.

Lemma count_space_first c s :
  PyStr.is_space c = true ->
  PyStr.count FENCE (String c s) = PyStr.count FENCE s.
Proof.
  intro Hc. apply is_space_clear in Hc.
  unfold PyStr.count. cbn [PyStr.count_go].
  replace (String.prefix FENCE (String c s)) with false; [reflexivity|].
  fence_cases; congruence.
Qed.

Lemma count_lstrip s : PyStr.count FENCE (PyStr.lstrip s) = PyStr.count FENCE s.
Proof.
  induction s as [|c s IH]; [reflexivity|]. simpl.
  destruct (PyStr.is_space c) eqn:Hc; [|reflexivity].
  now rewrite IH, count_space_first.
Qed.

Lemma rstrip_split s : exists w, all_space w /\ s = PyStr.rstrip s ++ w.
Proof.
  induction s as [|c s (w & Hw & IH)]; [now exists ""|].
  simpl. destruct (PyStr.is_space c) eqn:Hc; simpl.
  - destruct (PyStr.rstrip s) eqn:Hr; simpl.
    + exists (String c w). simpl in IH. now subst w.
    + exists w. split; [assumption|]. now rewrite IH at 1.
  - exists w. split; [assumption|]. now rewrite IH at 1.
Qed.

Lemma count_all_space w : all_space w -> PyStr.count FENCE w = 0.
Proof.
  induction w as [|c w IH]; [reflexivity|]. intros [Hc Hw].
  rewrite count_space_first by assumption. now apply IH.
Qed.

Lemma all_space_clear w : all_space w -> clear_start w.
Proof. destruct w; [trivial|]. intros [Hc _]. now apply is_space_clear. Qed.

Lemma count_rstrip s : PyStr.count FENCE (PyStr.rstrip s) = PyStr.count FENCE s.
Proof.
  destruct (rstrip_split s) as (w & Hw & Hs).
  rewrite Hs at 2. rewrite count_app by now apply all_space_clear.
  rewrite (count_all_space w Hw). lia.
Qed.

(** Trimming neither adds nor removes a delimiter. *)
Lemma count_strip s : PyStr.count FENCE (PyStr.strip s) = PyStr.count FENCE s.
Proof. unfold PyStr.strip. now rewrite count_rstrip, count_lstrip. Qed.

End FenceCounting.

(** *** The parts of a fenced section *)

Section FenceSplitting.

Lemma split_go_fence_free (s : string) :
  forall skip p ps,
  PyStr.split_go FENCE skip s = (p, ps) ->
  fence_free p /\ Forall fence_free ps
  /\ (skip = 0%nat -> exists rest, s = p ++ rest).
Proof.
  induction s as [|c s IH]; intros skip p ps.
  - simpl. intros [= <- <-]. repeat split; [constructor|now exists ""].
  - destruct skip as [|k]; cbn [PyStr.split_go].
    + destruct (String.prefix FENCE (String c s)) eqn:Hpre.
      * destruct (PyStr.split_go FENCE (String.length FENCE - 1) s)
          as [p' ps'] eqn:Hgo.
        intros [= <- <-]. destruct (IH _ _ _ Hgo) as (Hp' & Hps' & _).
        split; [reflexivity|]. split; [now constructor|].
        intros _. now exists (String c s).
      * destruct (PyStr.split_go FENCE 0 s) as [p' ps'] eqn:Hgo.
        intros [= <- <-].
        destruct (IH _ _ _ Hgo) as (Hp' & Hps' & Hrest).
        destruct (Hrest eq_refl) as (rest & ->).
        split; [|split; [assumption|intros _; now exists rest]].
        unfold fence_free. cbn [PyStr.contains].
        apply orb_false_iff. split; [|exact Hp'].
        destruct (String.prefix FENCE (String c p')) eqn:Hpre'; [|reflexivity].
        apply (prefix_app _ _ rest) in Hpre'. simpl in Hpre', Hpre.
        congruence.
    + intros Hgo. destruct (IH _ _ _ Hgo) as (Hp & Hps & _).
      split; [assumption|]. split; [assumption|discriminate].
Qed.

(** Every part of [text.split('```')] is free of delimiters. *)
Lemma split_fence_free (text : string) :
  Forall fence_free (PyStr.split FENCE text).
Proof.
  unfold PyStr.split.
  destruct (PyStr.split_go FENCE 0 text) as [p ps] eqn:Hgo.
  destruct (split_go_fence_free _ _ _ _ Hgo) as (Hp & Hps & _).
  now constructor.
Qed.

End FenceSplitting.

(** *** Groups of fenced sections *)

Section FenceAtomicity.

Variable cfg : Config.
Variable estimate_tokens : string -> Z.

Lemma balanced_plus_two n : n mod 2 = 0 -> (n + 2) mod 2 = 0.
Proof. intro H. Z.div_mod_to_equations. lia. Qed.

Lemma balanced_block text p :
  balanced text -> fence_free p ->
  balanced (text ++ BLANK ++ FENCE ++ p ++ FENCE).
Proof.
  unfold balanced. intros Ht Hp.
  rewrite count_blank, count_block by assumption.
  now apply balanced_plus_two.
Qed.

Lemma balanced_text text t :
  balanced text -> fence_free t -> balanced (text ++ BLANK ++ t).
Proof.
  unfold balanced. intros Ht Hfree.
  rewrite count_blank, (count_fence_free t Hfree). now rewrite Z.add_0_r.
Qed.

(** A header counts the delimiters of its title. *)
Lemma count_header t suffix rest :
  clear_start suffix ->
  PyStr.count FENCE ("# " ++ t ++ suffix ++ BLANK ++ rest)
  = PyStr.count FENCE t + PyStr.count FENCE suffix + PyStr.count FENCE rest.
Proof.
  intro Hs.
  change ("# " ++ t ++ suffix ++ BLANK ++ rest)
    with (String "#" (String " " (t ++ suffix ++ BLANK ++ rest))).
  rewrite (count_cons "#"), (count_cons " ").
  replace (String.prefix FENCE
             (String "#" (String " " (t ++ suffix ++ BLANK ++ rest))))
    with false by reflexivity.
  replace (String.prefix FENCE (String " " (t ++ suffix ++ BLANK ++ rest)))
    with false by reflexivity.
  rewrite <- append_assoc, count_blank.
  rewrite count_app by assumption. reflexivity.
Qed.

Lemma balanced_strip text : balanced text -> balanced (PyStr.strip text).
Proof. unfold balanced. now rewrite count_strip. Qed.

Lemma emitted_balanced st :
  split_balanced st ->
  Forall (fun c => balanced (chunk_content c)) (chunks st ++ [saved st]).
Proof.
  intros [Hbuf Hchunks]. apply Forall_app. split; [assumption|].
  constructor; [|constructor]. now apply balanced_strip.
Qed.

Lemma add_code_block_balanced section part st :
  balanced (title section) -> fence_free part ->
  split_balanced st ->
  split_balanced (add_code_block cfg estimate_tokens section part st).
Proof.
  intros Htitle Hpart Hst. unfold add_code_block.
  destruct (_ >? _);
    split; cbn [chunks current_chunk_content].
  - unfold balanced.
    rewrite (count_header (title section) " (continued)") by (simpl; discriminate).
    rewrite count_block by assumption.
    change (PyStr.count FENCE " (continued)") with 0.
    rewrite Z.add_0_r. now apply balanced_plus_two.
  - destruct (negb _); [now apply emitted_balanced|apply Hst].
  - apply balanced_block; [apply Hst|assumption].
  - apply Hst.
Qed.

Lemma add_text_after_balanced text_after st :
  fence_free text_after ->
  split_balanced st ->
  split_balanced (add_text_after cfg estimate_tokens text_after st).
Proof.
  intros Hfree Hst. unfold add_text_after.
  destruct (_ <=? _); [|assumption].
  split; cbn [chunks current_chunk_content]; [|apply Hst].
  apply balanced_text; [apply Hst|assumption].
Qed.

Lemma code_blocks_loop_balanced section parts :
  balanced (title section) ->
  Forall fence_free parts ->
  forall st,
  split_balanced st ->
  split_balanced (code_blocks_loop cfg estimate_tokens section parts st).
Proof.
  intro Htitle.
  induction parts as [|part|part text_after parts IH] using list_pair_ind;
    intros Hparts st Hst.
  - assumption.
  - inversion_clear Hparts. now apply add_code_block_balanced.
  - inversion_clear Hparts as [|? ? Hpart Hrest].
    inversion_clear Hrest as [|? ? Hafter Hrest'].
    change (split_balanced
              (code_blocks_loop cfg estimate_tokens section parts
                 (add_text_after cfg estimate_tokens text_after
                    (add_code_block cfg estimate_tokens section part st)))).
    apply IH; [assumption|].
    now apply add_text_after_balanced, add_code_block_balanced.
Qed.

Lemma split_code_section_balanced section st :
  balanced (title section) ->
  split_balanced st ->
  split_balanced (split_code_section cfg estimate_tokens section st).
Proof.
  intros Htitle Hst. unfold split_code_section.
  pose proof (split_fence_free (content section)) as Hparts.
  destruct (PyStr.split FENCE (content section)) as [|text_before parts].
  { apply code_blocks_loop_balanced; [assumption|constructor|].
    split; cbn [chunks current_chunk_content].
    - destruct (is_titled section); [|reflexivity].
      unfold balanced. cbn [hd].
      change ("# " ++ title section ++ BLANK ++ "")
        with ("# " ++ title section ++ "" ++ BLANK ++ "").
      rewrite count_header by exact I.
      change (PyStr.count FENCE "") with 0. now rewrite !Z.add_0_r.
    - destruct (_ && _); cbn [chunks];
        [now apply emitted_balanced|apply Hst]. }
  inversion_clear Hparts as [|? ? Hbefore Hrest].
  apply code_blocks_loop_balanced; [assumption|assumption|].
  split; cbn [chunks current_chunk_content hd].
  - unfold balanced. destruct (is_titled section).
    + change ("# " ++ title section ++ BLANK ++ text_before)
        with ("# " ++ title section ++ "" ++ BLANK ++ text_before).
      rewrite count_header by exact I.
      rewrite (count_fence_free _ Hbefore).
      change (PyStr.count FENCE "") with 0. now rewrite !Z.add_0_r.
    + now rewrite (count_fence_free _ Hbefore).
  - destruct (_ && _); cbn [chunks];
      [now apply emitted_balanced|apply Hst].
Qed.

(** In a group of fenced sections whose titles are balanced, the buffer and
    the chunks stay balanced. *)
Lemma fold_split_balanced group :
  Forall (fun s => has_code s = true) group ->
  Forall (fun s => balanced (title s)) group ->
  forall st,
  split_balanced st ->
  split_balanced (fold_left (split_section cfg estimate_tokens) group st).
Proof.
  induction group as [|section group IH]; intros Hcode Htitles st Hst;
    [assumption|].
  inversion_clear Hcode as [|? ? Hc Hcode'].
  inversion_clear Htitles as [|? ? Ht Htitles'].
  simpl. apply IH; [assumption..|].
  unfold split_section. rewrite Hc. now apply split_code_section_balanced.
Qed.

Lemma split_large_group_balanced group :
  Forall (fun s => has_code s = true) group ->
  Forall (fun s => balanced (title s)) group ->
  Forall (fun c => balanced (chunk_content c))
         (_split_large_group cfg estimate_tokens group).
Proof.
  intros Hcode Htitles. unfold _split_large_group, finish.
  pose proof (fold_split_balanced group Hcode Htitles (mkSplit [] "" [] 0))
    as Hst.
  destruct (negb _).
  - apply emitted_balanced, Hst. split; [reflexivity|constructor].
  - apply Hst. split; [reflexivity|constructor].
Qed.

End FenceAtomicity.

(** *** Groups are of one register *)

Section Registers.

Lemma group_loop_register (sections : list Section_) :
  forall prev groups current,
  Forall same_register groups ->
  register_of prev current ->
  let (groups', current') := group_loop prev sections groups current in
  Forall same_register groups' /\ same_register current'.
Proof.
  induction sections as [|s sections IH]; intros prev groups current Hg Hc.
  - simpl. split; [assumption|].
    destruct Hc as (b & Hb & _). now exists b.
  - simpl. destruct (_is_major_boundary s prev) eqn:Hbound.
    + apply IH.
      * destruct current; [assumption|].
        apply Forall_app. split; [assumption|].
        constructor; [|constructor].
        destruct Hc as (b & Hb & _). now exists b.
      * exists (has_code s). split; [now repeat constructor|].
        intros _. now exists s.
    + apply IH; [assumption|].
      destruct Hc as (b & Hb & Hprev).
      destruct current as [|c0 current].
      * exists (has_code s). split; [now repeat constructor|].
        intros _. now exists s.
      * destruct Hprev as (p & -> & Hp); [discriminate|].
        assert (Hs : has_code s = b).
        { unfold _is_major_boundary in Hbound.
          destruct (level s <=? 2); [discriminate|].
          rewrite Hp in Hbound.
          destruct b, (has_code s); simpl in Hbound; congruence. }
        exists b. split.
        -- apply Forall_app. split; [assumption|now repeat constructor].
        -- intros _. now exists s.
Qed.

(** Every group holds fenced sections only, or prose sections only. *)
Lemma groups_same_register (sections : list Section_) :
  Forall same_register (_group_related_sections sections).
Proof.
  unfold _group_related_sections.
  pose proof (group_loop_register sections None [] [] (Forall_nil _)) as H.
  destruct (group_loop None sections [] []) as [groups current].
  destruct H as [Hg Hc]; [exists true; split; [constructor|congruence]|].
  destruct current; [assumption|].
  apply Forall_app. split; [assumption|now repeat constructor].
Qed.

Lemma groups_sections (sections : list Section_) (group : list Section_)
    (s : Section_) :
  In group (_group_related_sections sections) -> In s group ->
  In s sections.
Proof.
  intros Hgroup Hs.
  assert (Hcat : List.concat (_group_related_sections sections) = sections).
  { unfold _group_related_sections.
    pose proof (group_loop_invariant sections) as Hinv.
    destruct (group_loop None sections [] []) as [groups current].
    destruct Hinv as (Hcat & _).
    destruct current; [now rewrite app_nil_r in Hcat|].
    rewrite concat_app. simpl. now rewrite app_nil_r. }
  rewrite <- Hcat. apply in_concat. now exists group.
Qed.

End Registers.

(** *** Groups of prose sections *)

Section ProseGroups.

Variable cfg : Config.
Variable estimate_tokens : string -> Z.

Lemma contains_cons sub c s :
  PyStr.contains sub (String c s)
  = String.prefix sub (String c s) || PyStr.contains sub s.
Proof. reflexivity. Qed.

Lemma fence_free_app a b :
  clear_start b -> fence_free a -> fence_free b -> fence_free (a ++ b).
Proof.
  intros Hclear Ha Hb. induction a as [|c a IH]; [assumption|].
  apply fence_free_cons in Ha. destruct Ha as [Hpre Ha].
  unfold fence_free.
  change (String c a ++ b) with (String c (a ++ b)).
  rewrite contains_cons.
  change (String c (a ++ b)) with (String c a ++ b).
  rewrite (prefix_fence_app _ _ Hclear), Hpre. now apply IH.
Qed.

Lemma fence_free_blank a b :
  fence_free a -> fence_free b -> fence_free (a ++ BLANK ++ b).
Proof.
  intros Ha Hb. apply fence_free_app; [simpl; discriminate|assumption|].
  unfold fence_free, BLANK, LF. simpl String.append.
  rewrite !contains_cons. exact Hb.
Qed.

Lemma fence_free_header t :
  fence_free t -> fence_free ("# " ++ t).
Proof.
  intro Ht. unfold fence_free.
  change ("# " ++ t) with (String "#" (String " " t)).
  rewrite !contains_cons. exact Ht.
Qed.

Lemma fence_free_rendered text section :
  fence_free text -> fence_free (title section) ->
  fence_free (content section) ->
  fence_free (text ++ rendered section).
Proof.
  intros Htext Ht Hc. unfold rendered. destruct (is_titled section).
  - apply fence_free_blank; [assumption|].
    rewrite <- append_assoc.
    apply fence_free_blank; [now apply fence_free_header|assumption].
  - now apply fence_free_blank.
Qed.

Lemma words_go_fence_free (s : string) :
  fence_free s ->
  forall w ws, PyStr.words_go s = (w, ws) ->
  fence_free w /\ Forall fence_free ws /\ exists rest, s = w ++ rest.
Proof.
  induction s as [|c s IH]; intros Hfree w ws.
  - simpl. intros [= <- <-]. repeat split; [constructor|now exists ""].
  - apply fence_free_cons in Hfree. destruct Hfree as [Hpre Hfree].
    simpl. destruct (PyStr.words_go s) as [w' ws'].
    destruct (IH Hfree w' ws' eq_refl) as (Hw' & Hws' & rest & ->).
    destruct (PyStr.is_space c); intros [= <- <-].
    + split; [reflexivity|]. split; [|now exists (String c (w' ++ rest))].
      unfold PyStr.cons_word. destruct (PyStr.is_empty w');
        [assumption|now constructor].
    + split; [|split; [assumption|now exists rest]].
      unfold fence_free. rewrite contains_cons.
      apply orb_false_iff. split; [|exact Hw'].
      destruct (String.prefix FENCE (String c w')) eqn:Hpre'; [|reflexivity].
      apply (prefix_app _ _ rest) in Hpre'. simpl in Hpre', Hpre.
      congruence.
Qed.

Lemma split_ws_fence_free (s : string) :
  fence_free s -> Forall fence_free (PyStr.split_ws s).
Proof.
  intro Hfree. unfold PyStr.split_ws.
  destruct (PyStr.words_go s) as [w ws] eqn:Hgo.
  destruct (words_go_fence_free s Hfree w ws Hgo) as (Hw & Hws & _).
  unfold PyStr.cons_word. destruct (PyStr.is_empty w);
    [assumption|now constructor].
Qed.

Lemma join_fence_free (words : list string) :
  Forall fence_free words -> fence_free (PyStr.join " " words).
Proof.
  induction words as [|w words IH]; intro Hall; [reflexivity|].
  inversion_clear Hall as [|? ? Hw Hrest].
  unfold PyStr.join in *. destruct words as [|w' words]; [exact Hw|].
  change (String.concat " " (w :: w' :: words))
    with (w ++ " " ++ String.concat " " (w' :: words)).
  apply fence_free_app; [simpl; discriminate|assumption|].
  unfold fence_free.
  change (" " ++ String.concat " " (w' :: words))
    with (String " " (String.concat " " (w' :: words))).
  rewrite contains_cons. now apply IH.
Qed.

Lemma Forall_skipn {A} (P : A -> Prop) (n : nat) (l : list A) :
  Forall P l -> Forall P (skipn n l).
Proof.
  intro H. rewrite <- (firstn_skipn n l) in H.
  now apply Forall_app in H.
Qed.

Lemma overlap_fence_free (text : string) :
  fence_free text -> fence_free (_get_overlap_content cfg text).
Proof.
  intro Hfree. unfold _get_overlap_content.
  destruct (_ >? _); [|assumption].
  apply join_fence_free. unfold PyStr.slice_from.
  destruct (_ <? _); now apply Forall_skipn, split_ws_fence_free.
Qed.

Lemma fence_free_balanced text : fence_free text -> balanced text.
Proof. unfold balanced. intro H. now rewrite (count_fence_free _ H). Qed.

Lemma split_prose_balanced st : split_prose st -> split_balanced st.
Proof.
  intros [Hbuf Hchunks]. split; [now apply fence_free_balanced|assumption].
Qed.

Lemma split_text_section_prose section st :
  fence_free (title section) -> fence_free (content section) ->
  split_prose st ->
  split_prose (split_text_section cfg estimate_tokens section st).
Proof.
  intros Ht Hc Hst. pose proof Hst as [Hbuf Hchunks].
  unfold split_text_section.
  assert (Happ : fence_free (current_chunk_content st ++ rendered section))
    by now apply fence_free_rendered.
  destruct (_ >? _); [destruct (_ >=? _)|];
    split; cbn [chunks current_chunk_content]; try assumption.
  - apply fence_free_rendered; [|assumption..].
    now apply overlap_fence_free.
  - now apply emitted_balanced, split_prose_balanced.
Qed.

Lemma fold_split_prose group :
  Forall (fun s => has_code s = false) group ->
  Forall (fun s => fence_free (title s)) group ->
  forall st,
  split_prose st ->
  split_prose (fold_left (split_section cfg estimate_tokens) group st).
Proof.
  induction group as [|section group IH]; intros Hcode Htitles st Hst;
    [assumption|].
  inversion_clear Hcode as [|? ? Hc Hcode'].
  inversion_clear Htitles as [|? ? Ht Htitles'].
  simpl. apply IH; [assumption..|].
  unfold split_section. rewrite Hc.
  now apply split_text_section_prose.
Qed.

(** The chunks the splitter makes of a group of one register, with titles
    free of delimiters, are balanced. *)
Lemma split_group_balanced group :
  same_register group ->
  Forall (fun s => fence_free (title s)) group ->
  Forall (fun c => balanced (chunk_content c))
         (_split_large_group cfg estimate_tokens group).
Proof.
  intros [[|] Hreg] Htitles.
  - apply split_large_group_balanced; [assumption|].
    eapply Forall_impl; [|exact Htitles].
    intros s Hs. now apply fence_free_balanced.
  - unfold _split_large_group, finish.
    pose proof (fold_split_prose group Hreg Htitles (mkSplit [] "" [] 0))
      as Hst.
    destruct (negb _).
    + apply emitted_balanced, split_prose_balanced, Hst.
      split; [reflexivity|constructor].
    + apply Hst. split; [reflexivity|constructor].
Qed.

End ProseGroups.

(** *** Atomicity of fenced blocks *)

Section Atomicity.

Variable cfg : Config.
Variable estimate_tokens : string -> Z.

Lemma validate_balanced {M} (chunk : FinalChunk M) :
  CHUNK_SIZE_MIN cfg <= token_count (candidate chunk) ->
  fst (_validate_chunk cfg chunk) = true ->
  balanced (chunk_content (candidate chunk)).
Proof.
  intros Hmin. unfold _validate_chunk, balanced.
  destruct (Z.ltb_spec (token_count (candidate chunk)) (CHUNK_SIZE_MIN cfg));
    [lia|].
  destruct (_ >? _); [discriminate|].
  destruct (Z.eqb_spec
              (PyStr.count FENCE (chunk_content (candidate chunk)) mod 2) 0);
    [trivial|discriminate].
Qed.

Lemma create_chunks_accepted {M} (sections : list Section_) (md : M)
    (c : FinalChunk M) :
  In c (create_chunks cfg estimate_tokens sections md) ->
  exists c' : FinalChunk M,
    candidate c' = candidate c /\ fst (_validate_chunk cfg c') = true.
Proof.
  intro Hin. apply (in_map candidate) in Hin.
  unfold create_chunks in Hin.
  rewrite reindex_loop_only_candidates, validate_loop_filter in Hin.
  apply in_map_iff in Hin. destruct Hin as (c' & Hcand & Hc').
  apply filter_In in Hc'. exists c'. now split.
Qed.


End Atomicity.



(** * Further properties *)

(** ** Trimming and containment *)

Section Trimming.

Implicit Types (a b c s t x : string).

Lemma prefix_refl s : String.prefix s s = true.
Proof.
  induction s as [|h s IH]; [reflexivity|]. simpl.
  destruct (ascii_dec h h); [exact IH|congruence].
Qed.

Lemma prefix_split sep s :
  String.prefix sep s = true -> exists rest, s = sep ++ rest.
Proof.
  revert s. induction sep as [|h sep IH]; intros s; [now exists s|].
  destruct s as [|h' s]; simpl; [discriminate|].
  destruct (ascii_dec h h') as [<-|]; [|discriminate].
  intros Hpre. destruct (IH _ Hpre) as (rest & ->). now exists rest.
Qed.

Lemma infix_contains x s : infix_of x s -> PyStr.contains x s = true.
Proof.
  intros (a & b & ->). induction a as [|h a IH].
  - cbn [String.append]. destruct (x ++ b) eqn:Hxb; cbn [PyStr.contains];
      rewrite <- Hxb, (prefix_app x x b (prefix_refl x)); reflexivity.
  - change (String h a ++ x ++ b) with (String h (a ++ x ++ b)).
    cbn [PyStr.contains]. rewrite IH. apply orb_true_r.
Qed.

Lemma infix_refl s : infix_of s s.
Proof. exists "", "". simpl. now rewrite append_nil_r. Qed.

Lemma infix_trans x s t : infix_of x s -> infix_of s t -> infix_of x t.
Proof.
  intros (a & b & ->) (a' & b' & ->).
  exists (a' ++ a), (b ++ b'). now rewrite !append_assoc.
Qed.

Lemma infix_app_l x s t : infix_of x s -> infix_of x (s ++ t).
Proof.
  intros (a & b & ->). exists a, (b ++ t). now rewrite !append_assoc.
Qed.

Lemma infix_app_r x s t : infix_of x s -> infix_of x (t ++ s).
Proof.
  intros (a & b & ->). exists (t ++ a), b. now rewrite !append_assoc.
Qed.

Lemma lstrip_split s : exists w, all_space w /\ s = w ++ PyStr.lstrip s.
Proof.
  induction s as [|h s (w & Hw & IH)]; [now exists ""|].
  simpl. destruct (PyStr.is_space h) eqn:Hh.
  - exists (String h w). split; [now split|]. simpl. now rewrite <- IH.
  - now exists "".
Qed.

Lemma lstrip_head s h r :
  PyStr.lstrip s = String h r -> PyStr.is_space h = false.
Proof.
  induction s as [|h' s IH]; simpl; [discriminate|].
  destruct (PyStr.is_space h') eqn:Hh; [exact IH|]. now intros [= <- _].
Qed.

Lemma lstrip_fixed h r :
  PyStr.is_space h = false -> PyStr.lstrip (String h r) = String h r.
Proof. intro Hh. simpl. now rewrite Hh. Qed.

Lemma lstrip_app a s :
  PyStr.lstrip (a ++ s)
  = if PyStr.is_empty (PyStr.lstrip a) then PyStr.lstrip s
    else PyStr.lstrip a ++ s.
Proof.
  induction a as [|h a IH]; [reflexivity|]. simpl.
  destruct (PyStr.is_space h); [exact IH|reflexivity].
Qed.

Lemma rstrip_app a s :
  PyStr.rstrip (a ++ s)
  = if PyStr.is_empty (PyStr.rstrip s) then PyStr.rstrip a
    else a ++ PyStr.rstrip s.
Proof.
  induction a as [|h a IH].
  - simpl. now destruct (PyStr.rstrip s).
  - change (String h a ++ s) with (String h (a ++ s)).
    cbn [PyStr.rstrip]. rewrite IH.
    destruct (PyStr.rstrip s) as [|h' r'] eqn:Hr; cbn [PyStr.is_empty].
    + reflexivity.
    + destruct a; simpl; now rewrite andb_false_r.
Qed.

Lemma rstrip_idempotent s : PyStr.rstrip (PyStr.rstrip s) = PyStr.rstrip s.
Proof.
  induction s as [|h s IH]; [reflexivity|]. cbn [PyStr.rstrip].
  destruct (PyStr.is_space h && PyStr.is_empty (PyStr.rstrip s)) eqn:Hc;
    [reflexivity|].
  cbn [PyStr.rstrip]. now rewrite IH, Hc.
Qed.

Lemma rstrip_head h r :
  PyStr.is_space h = false ->
  PyStr.rstrip (String h r) = String h (PyStr.rstrip r).
Proof. intro Hh. cbn [PyStr.rstrip]. now rewrite Hh. Qed.

(** A trimmed text is empty or starts with a character that is not
    whitespace. *)
Lemma strip_head s h r :
  PyStr.strip s = String h r -> PyStr.is_space h = false.
Proof.
  unfold PyStr.strip. destruct (PyStr.lstrip s) as [|h' r'] eqn:Hl;
    [discriminate|].
  pose proof (lstrip_head _ _ _ Hl) as Hh'.
  rewrite rstrip_head by assumption. now intros [= <- _].
Qed.

(** Trimming twice is trimming once. *)
Lemma strip_idempotent s : PyStr.strip (PyStr.strip s) = PyStr.strip s.
Proof.
  destruct (PyStr.strip s) as [|h r] eqn:Hs; [reflexivity|].
  pose proof (strip_head _ _ _ Hs) as Hh.
  unfold PyStr.strip at 1. rewrite lstrip_fixed by assumption.
  rewrite <- Hs. unfold PyStr.strip. apply rstrip_idempotent.
Qed.

Lemma strip_split s :
  exists w1 w2,
    all_space w1 /\ all_space w2 /\ s = w1 ++ PyStr.strip s ++ w2.
Proof.
  destruct (lstrip_split s) as (w1 & Hw1 & Hs).
  destruct (rstrip_split (PyStr.lstrip s)) as (w2 & Hw2 & Hl).
  exists w1, w2. repeat split; try assumption.
  unfold PyStr.strip. now rewrite <- Hl.
Qed.

Lemma strip_infix s : infix_of (PyStr.strip s) s.
Proof. destruct (strip_split s) as (w1 & w2 & _ & _ & Hs). now exists w1, w2. Qed.

(** A trimmed text that occurs in [t] occurs in the trimmed [t]. *)
Lemma infix_strip c t :
  infix_of (PyStr.strip c) t -> infix_of (PyStr.strip c) (PyStr.strip t).
Proof.
  destruct (PyStr.strip c) as [|h x] eqn:Hx.
  { intros _. exists "", (PyStr.strip t). reflexivity. }
  pose proof (strip_head _ _ _ Hx) as Hh.
  assert (Hfix : PyStr.rstrip (String h x) = String h x).
  { rewrite <- Hx. unfold PyStr.strip. apply rstrip_idempotent. }
  intros (a & b & ->). unfold PyStr.strip.
  assert (Hl : exists a', PyStr.lstrip (a ++ String h x ++ b)
                          = a' ++ String h x ++ b).
  { rewrite lstrip_app.
    change (String h x ++ b) with (String h (x ++ b)).
    rewrite lstrip_fixed by assumption.
    destruct (PyStr.is_empty (PyStr.lstrip a));
      [now exists ""|now exists (PyStr.lstrip a)]. }
  destruct Hl as (a' & ->).
  rewrite <- append_assoc, rstrip_app.
  destruct (PyStr.is_empty (PyStr.rstrip b)).
  - rewrite rstrip_app, Hfix. cbn [PyStr.is_empty].
    exists a', "". now rewrite append_nil_r.
  - exists a', (PyStr.rstrip b). now rewrite append_assoc.
Qed.

Lemma all_space_infix x w : all_space w -> infix_of x w -> all_space x.
Proof.
  intros Hw (a & b & ->). revert Hw. induction a as [|h a IH].
  - cbn [String.append]. induction x as [|h x IHx]; [now intros|].
    cbn [String.append all_space]. intros [Hh Hrest].
    split; [assumption|now apply IHx].
  - cbn [String.append all_space]. intros [_ Hrest]. now apply IH.
Qed.

Lemma strip_empty_all_space s : PyStr.strip s = "" -> all_space s.
Proof.
  intro Hs. destruct (strip_split s) as (w1 & w2 & Hw1 & Hw2 & Heq).
  rewrite Hs in Heq. simpl in Heq. rewrite Heq.
  clear Heq. induction w1 as [|h w1 IH]; [exact Hw2|].
  destruct Hw1 as [Hh Hw1]. split; [assumption|now apply IH].
Qed.

(** A non-empty trimmed text does not occur in a text that trims to
    nothing. *)
Lemma infix_blank c t :
  nonblank c -> infix_of (PyStr.strip c) t -> PyStr.strip t <> "".
Proof.
  intros Hc Hin Ht. apply strip_empty_all_space in Ht.
  pose proof (all_space_infix _ _ Ht Hin) as Hx.
  destruct (PyStr.strip c) as [|h x] eqn:Hs; [now apply Hc|].
  apply strip_head in Hs. destruct Hx as [Hh _]. congruence.
Qed.

End Trimming.

(** ** Coverage outside oversized fenced groups *)

Section Coverage.

Variable cfg : Config.
Variable estimate_tokens : string -> Z.

Lemma groups_concat (sections : list Section_) :
  List.concat (_group_related_sections sections) = sections.
Proof.
  unfold _group_related_sections.
  pose proof (group_loop_invariant sections) as Hinv.
  destruct (group_loop None sections [] []) as [groups current].
  destruct Hinv as (Hcat & _).
  destruct current; [now rewrite app_nil_r in Hcat|].
  rewrite concat_app. simpl. now rewrite app_nil_r.
Qed.

Lemma concat_rendered_cons (s : Section_) (group : list Section_) :
  String.concat "" (map rendered (s :: group))
  = rendered s ++ String.concat "" (map rendered group).
Proof.
  destruct group; simpl; [now rewrite append_nil_r|reflexivity].
Qed.

Lemma content_in_rendered (s : Section_) :
  infix_of (content s) (rendered s).
Proof.
  unfold rendered. destruct (is_titled s).
  - exists (BLANK ++ "# " ++ title s ++ BLANK), "".
    now rewrite append_nil_r, !append_assoc.
  - exists BLANK, "". now rewrite append_nil_r.
Qed.

Lemma rendered_in_concat (group : list Section_) (s : Section_) :
  In s group -> infix_of (rendered s) (String.concat "" (map rendered group)).
Proof.
  induction group as [|s' group IH]; [contradiction|].
  rewrite concat_rendered_cons. intros [->|Hin].
  - apply infix_app_l, infix_refl.
  - now apply infix_app_r, IH.
Qed.

Lemma create_chunk_holds (group : list Section_) (s : Section_) :
  In s group ->
  infix_of (PyStr.strip (content s))
           (chunk_content (_create_chunk_from_sections estimate_tokens group)).
Proof.
  intro Hin. unfold _create_chunk_from_sections. cbn [chunk_content].
  rewrite fold_rendered. cbn [String.append].
  apply infix_strip.
  eapply infix_trans; [apply strip_infix|].
  eapply infix_trans; [apply content_in_rendered|].
  now apply rendered_in_concat.
Qed.

(** X1: A group that goes through [_create_chunk_from_sections] loses
    nothing: the trimmed content of each of its sections is in the text
    of the candidate, and the candidate lists the titles in order. *)
Theorem unsplit_group_coverage (group : list Section_) (s : Section_) :
  In s group ->
  let c := _create_chunk_from_sections estimate_tokens group in
  PyStr.contains (PyStr.strip (content s)) (chunk_content c) = true
  /\ chunk_sections c = map title group.
Proof.
  intro Hin. split; [|reflexivity].
  now apply infix_contains, create_chunk_holds.
Qed.

Lemma held_saved x st :
  infix_of (PyStr.strip x) (current_chunk_content st) ->
  exists c, In c (chunks st ++ [saved st])
            /\ infix_of (PyStr.strip x) (chunk_content c).
Proof.
  intro Hbuf. exists (saved st). split; [apply in_or_app; right; now left|].
  now apply infix_strip.
Qed.

Lemma held_more x st c :
  (exists c', In c' (chunks st) /\ infix_of x (chunk_content c')) ->
  exists c', In c' (chunks st ++ [c]) /\ infix_of x (chunk_content c').
Proof.
  intros (c' & Hin & Hx). exists c'. split; [|assumption].
  apply in_or_app. now left.
Qed.

Lemma split_text_section_held x section st :
  held (PyStr.strip x) st ->
  held (PyStr.strip x) (split_text_section cfg estimate_tokens section st).
Proof.
  intros Hheld. unfold split_text_section.
  assert (Happ : held (PyStr.strip x)
            (mkSplit (chunks st)
               (current_chunk_content st ++ rendered section)
               (current_chunk_sections st ++ [title section])
               (current_tokens st + estimate_tokens (content section)))).
  { destruct Hheld as [Hc|Hbuf]; [now left|right].
    now apply infix_app_l. }
  destruct (_ >? _); [|exact Happ].
  destruct (_ >=? _); [|exact Happ].
  left. cbn [chunks].
  destruct Hheld as [Hc|Hbuf]; [now apply held_more|now apply held_saved].
Qed.

Lemma split_text_section_holds section st :
  held (PyStr.strip (content section))
       (split_text_section cfg estimate_tokens section st).
Proof.
  unfold split_text_section.
  assert (Hnew : forall text,
            infix_of (PyStr.strip (content section))
                     (text ++ rendered section)).
  { intro text. apply infix_app_r.
    eapply infix_trans; [apply strip_infix|apply content_in_rendered]. }
  destruct (_ >? _); [destruct (_ >=? _)|]; right; apply Hnew.
Qed.

Lemma fold_prose_held (group : list Section_) :
  Forall (fun s => has_code s = false) group ->
  forall st x,
  held (PyStr.strip x) st
  \/ (exists s, In s group /\ x = content s) ->
  held (PyStr.strip x)
       (fold_left (split_section cfg estimate_tokens) group st).
Proof.
  induction 1 as [|section group Hprose _ IH]; intros st x Hx.
  - destruct Hx as [Hheld|(s & [] & _)]. exact Hheld.
  - simpl. apply IH. unfold split_section. rewrite Hprose.
    destruct Hx as [Hheld|(s & [<-|Hin] & ->)].
    + left. now apply split_text_section_held.
    + left. apply split_text_section_holds.
    + right. now exists s.
Qed.

Lemma finish_held x st :
  nonblank x ->
  held (PyStr.strip x) st ->
  exists c, In c (finish st) /\ infix_of (PyStr.strip x) (chunk_content c).
Proof.
  intros Hx [Hc|Hbuf]; unfold finish.
  - destruct (negb _); [now apply held_more|exact Hc].
  - destruct (PyStr.strip (current_chunk_content st)) eqn:Hs.
    + exfalso. now apply (infix_blank x (current_chunk_content st)).
    + cbn [PyStr.is_empty negb]. now apply held_saved.
Qed.

Lemma split_prose_group_holds (group : list Section_) (s : Section_) :
  Forall (fun s => has_code s = false) group ->
  In s group -> nonblank (content s) ->
  exists c, In c (_split_large_group cfg estimate_tokens group)
            /\ infix_of (PyStr.strip (content s)) (chunk_content c).
Proof.
  intros Hprose Hin Hnb. unfold _split_large_group.
  apply finish_held; [assumption|].
  apply fold_prose_held; [assumption|]. right. now exists s.
Qed.

Lemma build_chunks_group (groups : list (list Section_)) :
  forall (acc : list Chunk) (group : list Section_) (c : Chunk),
  In c acc
  \/ (In group groups /\ In c (chunks_of_group cfg estimate_tokens group)) ->
  In c (fold_left
          (fun chunks g =>
             (chunks ++ chunks_of_group cfg estimate_tokens g)%list)
          groups acc).
Proof.
  induction groups as [|g groups IH]; intros acc group c Hc.
  - destruct Hc as [Hc|[[] _]]. exact Hc.
  - simpl. apply (IH _ group).
    destruct Hc as [Hc|[[->|Hg] Hc]].
    + left. apply in_or_app. now left.
    + left. apply in_or_app. now right.
    + right. now split.
Qed.

(** X2: content is lost before validation only in a group that holds a fence
    and is larger than the ceiling: for a group of prose sections, or a
    group whose token total does not exceed the ceiling, the trimmed
    content of every section that is not blank is in the text of a
    candidate of the document. *)
Theorem coverage_outside_oversized_fenced_groups
    (sections : list Section_) (group : list Section_) (s : Section_) :
  In group (_group_related_sections sections) ->
  In s group ->
  nonblank (content s) ->
  Forall (fun s => PyStr.contains FENCE (content s) = false) group
  \/ fold_left Z.add (map (fun s => estimate_tokens (content s)) group) 0
     <= CHUNK_SIZE_MAX cfg ->
  exists c,
    In c (build_chunks cfg estimate_tokens sections)
    /\ PyStr.contains (PyStr.strip (content s)) (chunk_content c) = true.
Proof.
  intros Hgroup Hin Hnb Hcase.
  assert (Hheld : exists c,
            In c (chunks_of_group cfg estimate_tokens group)
            /\ infix_of (PyStr.strip (content s)) (chunk_content c)).
  { unfold chunks_of_group.
    set (total := fold_left Z.add _ 0) in *.
    assert (Hone : exists c,
              In c [_create_chunk_from_sections estimate_tokens group]
              /\ infix_of (PyStr.strip (content s)) (chunk_content c)).
    { eexists. split; [now left|]. now apply create_chunk_holds. }
    destruct (_ && _); [exact Hone|].
    destruct (Z.gtb_spec total (CHUNK_SIZE_MAX cfg)) as [Hbig|];
      [|exact Hone].
    destruct Hcase as [Hprose|]; [|lia].
    now apply split_prose_group_holds. }
  destruct Hheld as (c & Hc & Hx).
  exists c. split; [|now apply infix_contains].
  unfold build_chunks. apply (build_chunks_group _ _ group). right.
  now split.
Qed.

End Coverage.

(** A prose page of two paragraphs above the ceiling: the whole section is
    in the candidate the splitter makes. *)
Lemma coverage_outside_oversized_fenced_groups_witness :
  exists c,
    In c (build_chunks rag_config fallback_estimate_tokens doc_two_paragraphs)
    /\ PyStr.contains (xs 2500 ++ BLANK ++ xs 2500) (chunk_content c) = true.
Proof.
  apply (coverage_outside_oversized_fenced_groups rag_config
           fallback_estimate_tokens doc_two_paragraphs doc_two_paragraphs
           (mkSection 1 "T" (xs 2500 ++ BLANK ++ xs 2500))).
  - left. reflexivity.
  - left. reflexivity.
  - unfold nonblank. vm_compute. discriminate.
  - left. repeat constructor.
Defined.

(** The three sections of a small page are all in its candidates. *)
Lemma unsplit_group_coverage_witness :
  PyStr.contains "more prose"
    (chunk_content
       (_create_chunk_from_sections fallback_estimate_tokens
          [mkSection 1 "Intro" "welcome"; mkSection 3 "Notes" "more prose"]))
  = true.
Proof.
  apply (unsplit_group_coverage fallback_estimate_tokens
           [mkSection 1 "Intro" "welcome"; mkSection 3 "Notes" "more prose"]
           (mkSection 3 "Notes" "more prose")).
  right. left. reflexivity.
Defined.

(** ** Stored counts under the character-ratio estimate *)

Section StoredCounts.

Lemma length_append (a b : string) :
  String.length (a ++ b) = (String.length a + String.length b)%nat.
Proof. induction a as [|h a IH]; simpl; [reflexivity|now rewrite IH]. Qed.

Lemma fallback_nonnegative (text : string) :
  0 <= fallback_estimate_tokens text.
Proof.
  unfold fallback_estimate_tokens, PyStr.len.
  apply Z.div_pos; lia.
Qed.

(** The estimate of a concatenation is at least the sum of the
    estimates. *)
Lemma fallback_superadditive (a b : string) :
  fallback_estimate_tokens a + fallback_estimate_tokens b
  <= fallback_estimate_tokens (a ++ b).
Proof.
  unfold fallback_estimate_tokens, PyStr.len.
  rewrite length_append, Nat2Z.inj_add.
  Z.div_mod_to_equations. lia.
Qed.

Lemma tracked_at_most (estimate_tokens : string -> Z) :
  (forall text, 0 <= estimate_tokens text) ->
  (forall a b,
     estimate_tokens a + estimate_tokens b <= estimate_tokens (a ++ b)) ->
  forall text n, tracked estimate_tokens text n -> n <= estimate_tokens text.
Proof.
  intros Hpos Hadd text n Htracked.
  induction Htracked as [|text|text n glue piece _ IH _].
  - apply Hpos.
  - lia.
  - pose proof (Hadd text (glue ++ piece)).
    pose proof (Hadd glue piece). pose proof (Hpos glue). lia.
Qed.

(** X4: with the character-ratio estimate, in every state the splitter
    goes through the running count is at most the estimate of the buffer
    it is kept for; every candidate of the splitter is the trimmed buffer
    of one of these states, stored with the running count of that state,
    so its count is at most the estimate of the very buffer it was trimmed
    from. *)
Theorem stored_count_at_most_estimate (cfg : Config)
    (group : list Section_) :
  let states :=
    section_states cfg fallback_estimate_tokens group (mkSplit [] "" [] 0) in
  (forall st,
     In st states ->
     current_tokens st
     <= fallback_estimate_tokens (current_chunk_content st))
  /\ (forall c,
        In c (_split_large_group cfg fallback_estimate_tokens group) ->
        exists st,
          In st states
          /\ chunk_content c = PyStr.strip (current_chunk_content st)
          /\ token_count c = current_tokens st
          /\ token_count c
             <= fallback_estimate_tokens (current_chunk_content st)).
Proof.
  intro states.
  assert (Hbound : forall st, In st states ->
            current_tokens st
            <= fallback_estimate_tokens (current_chunk_content st)).
  { intros st Hst.
    pose proof (section_states_accounted cfg fallback_estimate_tokens group
                  (mkSplit [] "" [] 0)) as Hall.
    rewrite Forall_forall in Hall.
    destruct (Hall (conj (tracked_empty _) (Forall_nil _)) st Hst)
      as [Htracked _].
    apply (tracked_at_most fallback_estimate_tokens);
      [exact fallback_nonnegative|exact fallback_superadditive|assumption]. }
  split; [exact Hbound|].
  intros c Hc.
  destruct (split_large_group_saved cfg fallback_estimate_tokens group c Hc)
    as (st & Hst & ->).
  exists st. repeat split; [assumption|].
  cbn [saved token_count]. now apply Hbound.
Qed.

End StoredCounts.

(** After the two-paragraph section the buffer holds the header, the
    blank lines and the two paragraphs, estimated at 1335, and the running
    count is 1333. *)
Lemma stored_count_at_most_estimate_witness :
  1333 <= fallback_estimate_tokens
            (BLANK ++ "# T" ++ BLANK ++ xs 2500 ++ BLANK ++ xs 2500).
Proof.
  apply (proj1 (stored_count_at_most_estimate rag_config doc_two_paragraphs)
           (mkSplit [] (BLANK ++ "# T" ++ BLANK ++ xs 2500 ++ BLANK
                          ++ xs 2500)
                    ["T"] 1333)).
  vm_compute. right. left. reflexivity.
Defined.

(** ** What [create_chunks] returns *)

Section Returned.

Variable cfg : Config.
Variable estimate_tokens : string -> Z.
Context {M : Type}.

Lemma numbered_trimmed (md : M) total i chunks (c : FinalChunk M) :
  In c (numbered md total i chunks) ->
  exists chunk,
    In chunk chunks
    /\ chunk_content (candidate c) = PyStr.strip (chunk_content chunk)
    /\ chunk_sections (candidate c) = chunk_sections chunk
    /\ token_count (candidate c) = token_count chunk
    /\ section_titles (metadata c) = chunk_sections chunk
    /\ page (metadata c) = md.
Proof.
  revert i. induction chunks as [|chunk chunks IH]; intro i; simpl;
    [contradiction|].
  intros [<-|Hin].
  - exists chunk. repeat split. now left.
  - destruct (IH _ Hin) as (chunk' & Hc & Hrest).
    exists chunk'. split; [now right|assumption].
Qed.

Lemma create_chunks_origin (sections : list Section_) (md : M)
    (c : FinalChunk M) :
  In c (create_chunks cfg estimate_tokens sections md) ->
  let built := build_chunks cfg estimate_tokens sections in
  exists c' : FinalChunk M,
    In c' (numbered md (Z.of_nat (List.length built)) 0 built)
    /\ fst (_validate_chunk cfg c') = true
    /\ candidate c = candidate c'
    /\ page (metadata c) = page (metadata c')
    /\ section_titles (metadata c) = section_titles (metadata c').
Proof.
  intros Hin built.
  apply (in_map (fun c => (candidate c, page (metadata c),
                           section_titles (metadata c)))) in Hin.
  unfold create_chunks in Hin. fold built in Hin.
  rewrite reindex_loop_candidates, validate_loop_filter in Hin.
  apply in_map_iff in Hin. destruct Hin as (c' & Heq & Hc').
  apply filter_In in Hc'. destruct Hc' as [Hnum Hacc].
  injection Heq as H1 H2 H3. exists c'. now repeat split.
Qed.

Lemma find_none_all {A} (f : A -> bool) (l : list A) :
  find f l = None -> forall x, In x l -> f x = false.
Proof.
  induction l as [|y l IH]; simpl; [contradiction|].
  destruct (f y) eqn:Hy; [discriminate|].
  intros Hnone x [<-|Hin]; [assumption|now apply IH].
Qed.

(** X5: every chunk returned by [create_chunks] has a trimmed text, carries
    the caller's metadata and the titles of its candidate, and, when the
    minimum is not above the ceiling, a count within the ceiling; from
    the minimum up its text does not start with an orphaned token. *)
Theorem returned_chunks_wellformed (sections : list Section_) (md : M)
    (c : FinalChunk M) :
  In c (create_chunks cfg estimate_tokens sections md) ->
  PyStr.strip (chunk_content (candidate c)) = chunk_content (candidate c)
  /\ page (metadata c) = md
  /\ section_titles (metadata c) = chunk_sections (candidate c)
  /\ (CHUNK_SIZE_MIN cfg <= CHUNK_SIZE_MAX cfg ->
      token_count (candidate c) <= CHUNK_SIZE_MAX cfg)
  /\ (CHUNK_SIZE_MIN cfg <= token_count (candidate c) ->
      forall orphan,
        In orphan orphaned_starts ->
        PyStr.startswith (chunk_content (candidate c)) orphan = false).
Proof.
  intro Hin.
  destruct (create_chunks_origin sections md c Hin)
    as (c' & Hnum & Hacc & Hcand & Hpage & Htitles).
  destruct (numbered_trimmed _ _ _ _ _ Hnum)
    as (chunk & _ & Hcontent & Hsec & _ & Htitles' & Hpage').
  rewrite Hcand, Hpage, Htitles.
  assert (Htrim : PyStr.strip (chunk_content (candidate c'))
                  = chunk_content (candidate c'))
    by (rewrite Hcontent; apply strip_idempotent).
  split; [exact Htrim|]. split; [exact Hpage'|].
  split; [congruence|].
  unfold _validate_chunk in Hacc. split.
  - intro Hcfg.
    destruct (Z.ltb_spec (token_count (candidate c')) (CHUNK_SIZE_MIN cfg));
      [lia|].
    destruct (Z.gtb_spec (token_count (candidate c')) (CHUNK_SIZE_MAX cfg));
      [discriminate|lia].
  - intros Hmin orphan Horphan.
    destruct (Z.ltb_spec (token_count (candidate c')) (CHUNK_SIZE_MIN cfg));
      [lia|].
    destruct (_ >? _); [discriminate|].
    destruct (negb _); [discriminate|].
    rewrite Htrim in Hacc.
    destruct (find _ orphaned_starts) eqn:Hfind; [discriminate|].
    now apply (find_none_all _ _ Hfind).
Qed.

End Returned.

(** The chunk returned for the fenced section of 536 tokens. *)
Lemma returned_chunks_wellformed_witness :
  token_count (candidate chunk_fenced_medium) <= 1200
  /\ PyStr.startswith (chunk_content (candidate chunk_fenced_medium)) "}"
     = false.
Proof.
  destruct (returned_chunks_wellformed rag_config fallback_estimate_tokens
              doc_fenced_medium tt chunk_fenced_medium)
    as (_ & _ & _ & Hmax & Horphan); [vm_compute; left; reflexivity|].
  split.
  - apply Hmax. vm_compute. discriminate.
  - apply Horphan; [vm_compute; discriminate|].
    right. right. left. reflexivity.
Defined.

(** ** Splitting, joining and counting *)

Section SplitJoin.

Variable sep : string.

Hypothesis sep_not_empty : sep <> EmptyString.

Local Abbreviation joined_tail := (joined_tail sep).

Lemma join_cons (p : string) (ps : list string) :
  PyStr.join sep (p :: ps) = p ++ joined_tail ps.
Proof.
  destruct ps; simpl; [now rewrite append_nil_r|reflexivity].
Qed.

Lemma prefix_empty (x : string) : String.prefix x "" = true -> x = "".
Proof. destruct x; [reflexivity|discriminate]. Qed.

Lemma prefix_cons (h h' : ascii) (x s : string) :
  String.prefix (String h x) (String h' s) = true ->
  h = h' /\ String.prefix x s = true.
Proof. simpl. destruct (ascii_dec h h'); [now split|discriminate]. Qed.

Lemma split_go_join (s : string) :
  forall skip pending p ps,
  String.length pending = skip ->
  String.prefix pending s = true ->
  PyStr.split_go sep skip s = (p, ps) ->
  s = pending ++ p ++ joined_tail ps.
Proof.
  induction s as [|c s IH]; intros skip pending p ps Hlen Hpre.
  - apply prefix_empty in Hpre. subst pending. simpl.
    now intros [= <- <-].
  - destruct skip as [|k]; cbn [PyStr.split_go].
    + destruct pending; [|discriminate]. cbn [String.append].
      destruct (String.prefix sep (String c s)) eqn:Hsep.
      * destruct (PyStr.split_go sep (String.length sep - 1) s)
          as [p' ps'] eqn:Hgo.
        intros [= <- <-]. cbn [String.append].
        change (joined_tail (p' :: ps')) with (sep ++ PyStr.join sep (p' :: ps')).
        rewrite join_cons. revert Hsep Hgo IH.
        destruct sep as [|c0 sep']; [congruence|].
        intros Hsep Hgo IH.
        apply prefix_cons in Hsep. destruct Hsep as [<- Hsep'].
        rewrite (IH (String.length (String c0 sep') - 1)%nat sep' p' ps')
          at 1; [reflexivity|simpl; lia|exact Hsep'|exact Hgo].
      * destruct (PyStr.split_go sep 0 s) as [p' ps'] eqn:Hgo.
        intros [= <- <-].
        now rewrite (IH 0%nat "" p' ps' eq_refl (prefix_nil _) Hgo) at 1.
    + destruct pending as [|h pending]; [discriminate|].
      apply prefix_cons in Hpre. destruct Hpre as [-> Hpre].
      injection Hlen as Hlen. intro Hgo.
      now rewrite (IH k pending p ps Hlen Hpre Hgo) at 1.
Qed.

(** Joining the parts of [s.split(sep)] with [sep] gives [s] back. *)
Theorem join_split_roundtrip (s : string) :
  PyStr.join sep (PyStr.split sep s) = s.
Proof.
  unfold PyStr.split.
  destruct (PyStr.split_go sep 0 s) as [p ps] eqn:Hgo.
  rewrite join_cons. symmetry.
  exact (split_go_join s 0%nat "" p ps eq_refl (prefix_nil _) Hgo).
Qed.

Lemma split_go_length (s : string) :
  forall skip,
  Z.of_nat (List.length (snd (PyStr.split_go sep skip s)))
  = PyStr.count_go sep skip s.
Proof.
  induction s as [|c s IH]; intro skip; [reflexivity|].
  destruct skip as [|k]; cbn [PyStr.split_go PyStr.count_go]; [|apply IH].
  destruct (String.prefix sep (String c s)).
  - specialize (IH (String.length sep - 1)%nat).
    destruct (PyStr.split_go sep (String.length sep - 1) s) as [p ps].
    cbn [snd List.length] in *. lia.
  - specialize (IH 0%nat).
    destruct (PyStr.split_go sep 0 s) as [p ps]. exact IH.
Qed.

(** [s.split(sep)] has one part more than [s.count(sep)]. *)
Lemma split_length (s : string) :
  Z.of_nat (List.length (PyStr.split sep s)) = PyStr.count sep s + 1.
Proof.
  unfold PyStr.split, PyStr.count.
  pose proof (split_go_length s 0%nat) as H.
  destruct (PyStr.split_go sep 0 s) as [p ps]. cbn [snd List.length] in *.
  lia.
Qed.

End SplitJoin.

Section CodeBlocks.

Variable estimate_tokens : string -> Z.

Lemma every_other_length {A} (l : list A) :
  Z.of_nat (List.length (every_other l)) = (Z.of_nat (List.length l) + 1) / 2.
Proof.
  induction l as [|x|x y l IH] using list_pair_ind.
  - reflexivity.
  - reflexivity.
  - change (every_other (x :: y :: l)) with (x :: every_other l).
    cbn [List.length]. rewrite !Nat2Z.inj_succ, IH.
    Z.div_mod_to_equations. lia.
Qed.

Lemma every_other_Forall {A} (P : A -> Prop) (l : list A) :
  Forall P l -> Forall P (every_other l).
Proof.
  induction l as [|x|x y l IH] using list_pair_ind; intro H.
  - constructor.
  - assumption.
  - inversion_clear H as [|? ? Hx Hrest]. inversion_clear Hrest.
    change (every_other (x :: y :: l)) with (x :: every_other l).
    constructor; [assumption|now apply IH].
Qed.

(** X7: [_extract_code_blocks] returns one block for every two delimiters of
    the text, and one more for a last delimiter left open; each block is a
    delimiter-free part between two delimiters, so it counts two of them,
    and comes with the estimate of its own text. *)
Theorem extract_code_blocks_shape (content : string) :
  let blocks := _extract_code_blocks estimate_tokens content in
  Z.of_nat (List.length blocks) = (PyStr.count FENCE content + 1) / 2
  /\ Forall (fun b =>
               (exists part,
                  fence_free part
                  /\ block_content b = FENCE ++ part ++ FENCE)
               /\ PyStr.count FENCE (block_content b) = 2
               /\ block_tokens b = estimate_tokens (block_content b))
            blocks.
Proof.
  unfold _extract_code_blocks. cbv zeta.
  pose proof (split_length FENCE content) as Hlen.
  pose proof (split_fence_free content) as Hfree.
  unfold PyStr.split in *.
  destruct (PyStr.split_go FENCE 0 content) as [p ps].
  cbn [tl]. inversion_clear Hfree as [|? ? _ Hps].
  split.
  - rewrite length_map, every_other_length.
    cbn [List.length] in Hlen. rewrite Nat2Z.inj_succ in Hlen.
    replace (PyStr.count FENCE content) with (Z.of_nat (List.length ps))
      by lia.
    reflexivity.
  - apply Forall_map. apply every_other_Forall.
    eapply Forall_impl; [|exact Hps].
    intros part Hpart. cbn [block_content block_tokens].
    split; [now exists part|]. split; [now apply count_block|reflexivity].
Qed.

End CodeBlocks.

(** ** The words of the overlap *)

Section OverlapWords.

Variable cfg : Config.

Lemma words_go_word (w s : string) :
  no_space w ->
  PyStr.words_go (w ++ s)
  = let (w', ws) := PyStr.words_go s in (w ++ w', ws).
Proof.
  induction w as [|h w IH]; intro Hw.
  - simpl. now destruct (PyStr.words_go s).
  - destruct Hw as [Hh Hw]. cbn [String.append PyStr.words_go].
    rewrite (IH Hw). destruct (PyStr.words_go s) as [w' ws].
    now rewrite Hh.
Qed.

Lemma split_ws_word (w : string) : is_word w -> PyStr.split_ws w = [w].
Proof.
  intros [Hne Hw]. unfold PyStr.split_ws.
  rewrite <- (append_nil_r w) at 1. rewrite (words_go_word w "" Hw).
  simpl. rewrite append_nil_r. unfold PyStr.cons_word.
  destruct w; [congruence|reflexivity].
Qed.

(** Splitting a text made of words joined by single spaces gives the
    words back. *)
Lemma split_ws_join (words : list string) :
  Forall is_word words -> PyStr.split_ws (PyStr.join " " words) = words.
Proof.
  induction 1 as [|w words Hw Hwords IH]; [reflexivity|].
  destruct words as [|w' words]; [now apply split_ws_word|].
  unfold PyStr.join in *.
  change (String.concat " " (w :: w' :: words))
    with (w ++ String " " (String.concat " " (w' :: words))).
  unfold PyStr.split_ws in *.
  rewrite (words_go_word _ _ (proj2 Hw)).
  cbn [PyStr.words_go].
  destruct (PyStr.words_go (String.concat " " (w' :: words))) as [u us].
  change (PyStr.is_space " ") with true. cbv iota.
  rewrite append_nil_r, IH. unfold PyStr.cons_word.
  destruct Hw as [Hne _]. destruct w; [congruence|reflexivity].
Qed.

Lemma cons_word_words (w : string) (ws : list string) :
  no_space w -> Forall is_word ws -> Forall is_word (PyStr.cons_word w ws).
Proof.
  intros Hw Hws. unfold PyStr.cons_word.
  destruct w; [assumption|]. constructor; [|assumption].
  split; [discriminate|assumption].
Qed.

Lemma words_go_words (s : string) :
  no_space (fst (PyStr.words_go s))
  /\ Forall is_word (snd (PyStr.words_go s)).
Proof.
  induction s as [|h s [IHw IHws]]; [simpl; now split|].
  cbn [PyStr.words_go]. destruct (PyStr.words_go s) as [w ws].
  cbn [fst snd] in *. destruct (PyStr.is_space h) eqn:Hh; cbn [fst snd].
  - split; [exact I|now apply cons_word_words].
  - split; [now split|assumption].
Qed.

(** [s.split()] returns words. *)
Lemma split_ws_words (s : string) : Forall is_word (PyStr.split_ws s).
Proof.
  unfold PyStr.split_ws. pose proof (words_go_words s) as [Hw Hws].
  destruct (PyStr.words_go s) as [w ws]. now apply cons_word_words.
Qed.

(** X6: with [k = CHUNK_OVERLAP * 4 // 5] at least 1, the words of the
    overlap are the last [k] words of the text: the overlap never carries
    more than [k] words, and carries every word of a text that has no
    more. *)
Theorem overlap_words (text : string) :
  let k := CHUNK_OVERLAP cfg * 4 / 5 in
  1 <= k ->
  PyStr.split_ws (_get_overlap_content cfg text)
  = last_n (Z.to_nat k) (PyStr.split_ws text)
  /\ Z.of_nat (List.length (PyStr.split_ws (_get_overlap_content cfg text)))
     <= k.
Proof.
  intros k Hk.
  assert (Heq : PyStr.split_ws (_get_overlap_content cfg text)
                = last_n (Z.to_nat k) (PyStr.split_ws text)).
  { unfold _get_overlap_content. fold k.
    destruct (Z.gtb_spec (Z.of_nat (List.length (PyStr.split_ws text))) k)
      as [Hmore|Hfew].
    - rewrite slice_from_last_n by lia.
      apply split_ws_join. unfold last_n.
      apply Forall_skipn, split_ws_words.
    - unfold last_n.
      replace (List.length (PyStr.split_ws text) - Z.to_nat k)%nat
        with 0%nat by lia.
      reflexivity. }
  split; [exact Heq|].
  rewrite Heq. unfold last_n. rewrite length_skipn. lia.
Qed.

End OverlapWords.

(** With a budget of 5 tokens, four words are carried. *)
Lemma overlap_words_witness :
  PyStr.split_ws (_get_overlap_content (mkConfig 500 800 1200 5)
                                       "one two  three four five")
  = ["two"; "three"; "four"; "five"].
Proof.
  refine (proj1 (overlap_words (mkConfig 500 800 1200 5)
                   "one two  three four five" _)).
  vm_compute. discriminate.
Defined.

(** ** The fenced blocks of the last section of a group *)

Section BlocksKept.

Variable cfg : Config.
Variable estimate_tokens : string -> Z.

Lemma strip_block (part : string) :
  PyStr.strip (FENCE ++ part ++ FENCE) = FENCE ++ part ++ FENCE.
Proof.
  unfold PyStr.strip.
  change (PyStr.lstrip (FENCE ++ part ++ FENCE)) with (FENCE ++ part ++ FENCE).
  rewrite <- append_assoc, rstrip_app. reflexivity.
Qed.

Lemma block_nonblank (part : string) : nonblank (FENCE ++ part ++ FENCE).
Proof. unfold nonblank. rewrite strip_block. discriminate. Qed.

Lemma add_code_block_held x section part st :
  nonblank x ->
  held (PyStr.strip x) st ->
  held (PyStr.strip x) (add_code_block cfg estimate_tokens section part st).
Proof.
  intros Hx Hheld. unfold add_code_block. destruct (_ >? _).
  - left. cbn [chunks]. destruct Hheld as [Hc|Hbuf].
    + destruct (negb _); [now apply held_more|exact Hc].
    + destruct (PyStr.strip (current_chunk_content st)) eqn:Hs.
      * exfalso. now apply (infix_blank x (current_chunk_content st)).
      * cbn [PyStr.is_empty negb]. now apply held_saved.
  - destruct Hheld as [Hc|Hbuf]; [now left|right].
    cbn [current_chunk_content]. now apply infix_app_l.
Qed.

Lemma add_code_block_holds section part st :
  held (FENCE ++ part ++ FENCE)
       (add_code_block cfg estimate_tokens section part st).
Proof.
  unfold add_code_block. destruct (_ >? _); right;
    cbn [current_chunk_content].
  - exists ("# " ++ title section ++ " (continued)" ++ BLANK), "".
    now rewrite append_nil_r, !append_assoc.
  - exists (current_chunk_content st ++ BLANK), "".
    now rewrite append_nil_r, !append_assoc.
Qed.

Lemma add_text_after_held x text_after st :
  held x st -> held x (add_text_after cfg estimate_tokens text_after st).
Proof.
  intro Hheld. unfold add_text_after. destruct (_ <=? _); [|assumption].
  destruct Hheld as [Hc|Hbuf]; [now left|right].
  cbn [current_chunk_content]. now apply infix_app_l.
Qed.

Lemma code_blocks_loop_held section (parts : list string) :
  forall st x,
  nonblank x ->
  held (PyStr.strip x) st
  \/ (exists part, In part (every_other parts)
                   /\ x = FENCE ++ part ++ FENCE) ->
  held (PyStr.strip x)
       (code_blocks_loop cfg estimate_tokens section parts st).
Proof.
  induction parts as [|part|part text_after parts IH] using list_pair_ind;
    intros st x Hx Hcase.
  - destruct Hcase as [Hheld|(part & [] & _)]. exact Hheld.
  - cbn [code_blocks_loop].
    destruct Hcase as [Hheld|(part' & [<-|[]] & ->)].
    + now apply add_code_block_held.
    + rewrite strip_block. apply add_code_block_holds.
  - change (held (PyStr.strip x)
              (code_blocks_loop cfg estimate_tokens section parts
                 (add_text_after cfg estimate_tokens text_after
                    (add_code_block cfg estimate_tokens section part st)))).
    apply IH; [assumption|].
    change (every_other (part :: text_after :: parts))
      with (part :: every_other parts) in Hcase.
    destruct Hcase as [Hheld|(part' & [<-|Hin] & ->)].
    + left. now apply add_text_after_held, add_code_block_held.
    + left. rewrite strip_block.
      apply add_text_after_held, add_code_block_holds.
    + right. now exists part'.
Qed.

Lemma split_go_no_fence (sep s : string) :
  PyStr.contains sep s = false ->
  forall skip, snd (PyStr.split_go sep skip s) = [].
Proof.
  intros Hfree skip.
  pose proof (split_go_length sep s skip) as Hlen.
  rewrite (count_go_fence_free sep s Hfree) in Hlen.
  destruct (snd (PyStr.split_go sep skip s)); [reflexivity|discriminate].
Qed.

Lemma fold_left_last {A B} (f : A -> B -> A) (l : list B) (x : B) (a : A) :
  fold_left f (l ++ [x]) a = f (fold_left f l a) x.
Proof. now rewrite fold_left_app. Qed.

(** X3: whatever precedes it in its group, every fenced block of the last
    section of a group is whole in the text of one of the candidates the
    splitter returns. *)
Theorem last_section_blocks_kept (group : list Section_)
    (section : Section_) (part : string) :
  In part (every_other (tl (PyStr.split FENCE (content section)))) ->
  exists c,
    In c (_split_large_group cfg estimate_tokens (group ++ [section]))
    /\ PyStr.contains (FENCE ++ part ++ FENCE) (chunk_content c) = true.
Proof.
  intro Hpart.
  assert (Hcode : has_code section = true).
  { unfold has_code. destruct (PyStr.contains FENCE (content section)) eqn:Hc;
      [reflexivity|exfalso].
    unfold PyStr.split in Hpart.
    pose proof (split_go_no_fence FENCE (content section) Hc 0%nat) as Hnil.
    destruct (PyStr.split_go FENCE 0 (content section)) as [p ps].
    cbn [snd tl] in *. subst ps. exact Hpart. }
  assert (Hheld : exists c,
            In c (_split_large_group cfg estimate_tokens (group ++ [section]))
            /\ infix_of (PyStr.strip (FENCE ++ part ++ FENCE))
                        (chunk_content c)).
  { unfold _split_large_group. rewrite fold_left_last.
    apply finish_held; [apply block_nonblank|].
    unfold split_section. rewrite Hcode. unfold split_code_section.
    apply code_blocks_loop_held; [apply block_nonblank|].
    right. now exists part. }
  destruct Hheld as (c & Hc & Hx). rewrite strip_block in Hx.
  exists c. split; [assumption|now apply infix_contains].
Qed.

End BlocksKept.

(** The block of 5006 characters of a heading-less page is whole in the
    candidate the splitter returns. *)
Lemma last_section_blocks_kept_witness :
  exists c,
    In c (_split_large_group rag_config fallback_estimate_tokens
                             doc_big_fence)
    /\ PyStr.contains ("```" ++ xs 5000 ++ "```") (chunk_content c) = true.
Proof.
  apply (last_section_blocks_kept rag_config fallback_estimate_tokens []
           (mkSection 0 "Content" ("```" ++ xs 5000 ++ "```")) (xs 5000)).
  vm_compute. left. reflexivity.
Defined.

(** ** Spaces and crawl decisions *)

Section Spaces.

Lemma all_chars_app (test : ascii -> bool) (a b : string) :
  all_chars test (a ++ b) = all_chars test a && all_chars test b.
Proof.
  induction a as [|h a IH]; [reflexivity|].
  simpl. now rewrite IH, andb_assoc.
Qed.

Lemma all_chars_weaken (test test' : ascii -> bool) (s : string) :
  (forall c, test c = true -> test' c = true) ->
  all_chars test s = true -> all_chars test' s = true.
Proof.
  intro Himp. induction s as [|h s IH]; [reflexivity|]. simpl.
  intro H. apply andb_true_iff in H. destruct H as [Hh Hs].
  now rewrite (Himp _ Hh), IH.
Qed.

Lemma no_slash_contains (s : string) :
  all_chars (fun c => negb (Ascii.eqb c "/")) s = true ->
  PyStr.contains "/" s = false.
Proof.
  induction s as [|h s IH]; [reflexivity|]. simpl all_chars.
  intro H. apply andb_true_iff in H. destruct H as [Hh Hs].
  rewrite contains_cons, (IH Hs), orb_false_r.
  cbn [String.prefix]. destruct (ascii_dec "/" h) as [<-|]; [|reflexivity].
  discriminate.
Qed.

Lemma span_digits_digits (s : string) :
  all_chars PyExt.is_digit (fst (PyExt.span_digits s)) = true.
Proof.
  induction s as [|h s IH]; [reflexivity|]. cbn [PyExt.span_digits].
  destruct (PyExt.is_digit h) eqn:Hh; [|reflexivity].
  destruct (PyExt.span_digits s) as [digits rest]. cbn [fst] in *.
  simpl. now rewrite Hh, IH.
Qed.

Lemma match_version_digits (lead s version : string) :
  PyExt.match_version lead s = Some version ->
  version <> "" /\ all_chars PyExt.is_digit version = true.
Proof.
  unfold PyExt.match_version. destruct (String.prefix lead s); [|discriminate].
  pose proof (span_digits_digits (PyExt.drop (String.length lead) s)) as Hd.
  destruct (PyExt.span_digits _) as [digits rest]. cbn [fst] in Hd.
  destruct digits as [|h digits]; [discriminate|].
  cbn [PyStr.is_empty negb andb].
  destruct (String.prefix "/" rest); [|discriminate].
  intros [= <-]. split; [discriminate|exact Hd].
Qed.

Lemma search_version_digits (lead s version : string) :
  PyExt.search_version lead s = Some version ->
  version <> "" /\ all_chars PyExt.is_digit version = true.
Proof.
  induction s as [|h s IH]; cbn [PyExt.search_version].
  - destruct (PyExt.match_version lead "") eqn:Hm; [|discriminate].
    intros [= <-]. now apply (match_version_digits lead "").
  - destruct (PyExt.match_version lead (String h s)) eqn:Hm; [|exact IH].
    intros [= <-]. now apply (match_version_digits lead (String h s)).
Qed.

Lemma digit_no_slash (c : ascii) :
  PyExt.is_digit c = true -> negb (Ascii.eqb c "/") = true.
Proof.
  destruct (Ascii.eqb_spec c "/") as [->|]; [discriminate|reflexivity].
Qed.

(** X9: [determine_space] names one of six fixed spaces or a lead followed by
    the digits of a version; in every case the name is not empty and holds
    no slash, so it is a single path component under the output
    directory. *)
Theorem determine_space_component (url : string) :
  (In (determine_space url) fixed_spaces
   \/ exists version,
        version <> "" /\ all_chars PyExt.is_digit version = true
        /\ (determine_space url = "api-v" ++ version
            \/ determine_space url = "guides-v" ++ version))
  /\ determine_space url <> ""
  /\ PyStr.contains "/" (determine_space url) = false.
Proof.
  assert (Hfixed : forall s, In s fixed_spaces ->
            s <> "" /\ PyStr.contains "/" s = false).
  { intros s Hs. simpl in Hs.
    repeat (destruct Hs as [<-|Hs]; [split; [discriminate|reflexivity]|]).
    contradiction. }
  assert (Hversion : forall lead version,
            all_chars (fun c => negb (Ascii.eqb c "/")) lead = true ->
            lead <> "" ->
            all_chars PyExt.is_digit version = true ->
            lead ++ version <> ""
            /\ PyStr.contains "/" (lead ++ version) = false).
  { intros lead version Hlead Hne Hd. split.
    - destruct lead; [congruence|discriminate].
    - apply no_slash_contains. rewrite all_chars_app, Hlead.
      apply (all_chars_weaken PyExt.is_digit); [apply digit_no_slash|exact Hd]. }
  unfold determine_space.
  repeat match goal with
         | |- context [if PyStr.contains ?p url then _ else _] =>
             destruct (PyStr.contains p url)
         end;
    try (split; [left; simpl; tauto|split; [discriminate|reflexivity]]).
  - destruct (PyExt.search_version "/api-v" url) as [version|] eqn:Hs.
    + destruct (search_version_digits _ _ _ Hs) as [Hne Hd].
      split; [right; exists version; tauto|].
      apply Hversion; [reflexivity|discriminate|assumption].
    + split; [left; simpl; tauto|split; [discriminate|reflexivity]].
  - destruct (PyExt.search_version "/guides-v" url) as [version|] eqn:Hs.
    + destruct (search_version_digits _ _ _ Hs) as [Hne Hd].
      split; [right; exists version; tauto|].
      apply Hversion; [reflexivity|discriminate|assumption].
    + split; [left; simpl; tauto|split; [discriminate|reflexivity]].
Qed.

Variable normalize_url : string -> string.
Variable visited_urls : list string.
Variable base_url : string.

Lemma mem_In (x : string) (l : list string) :
  PyExt.mem x l = true <-> In x l.
Proof.
  unfold PyExt.mem. rewrite existsb_exists. split.
  - intros (y & Hy & Heq). apply String.eqb_eq in Heq. now subst.
  - intro Hin. exists x. split; [assumption|apply String.eqb_refl].
Qed.

Lemma crawl_decision_sound (n : string) :
  crawl_decision n = true ->
  PyStr.contains "/print/" n = false
  /\ PyStr.contains "/pdf/" n = false
  /\ PyExt.search_download n = false
  /\ (PyStr.contains "/api-v" n = true -> PyStr.contains "/api-v15/" n = true)
  /\ (determine_space n = "api-v15"
      \/ PyStr.startswith (determine_space n) "api-" = false).
Proof.
  unfold crawl_decision, exclude_patterns. cbn [existsb].
  destruct (PyStr.contains "/print/" n); [discriminate|].
  destruct (PyStr.contains "/pdf/" n); [discriminate|].
  destruct (PyExt.search_download n); [discriminate|].
  cbn [orb]. intro Hd. repeat split.
  - intro Hv. destruct (PyStr.contains "/api-v15/" n); [reflexivity|].
    rewrite Hv in Hd. discriminate.
  - unfold determine_space.
    destruct (PyStr.contains "/api-v15/" n); [now left|right].
    destruct (PyStr.contains "/api-v" n); [discriminate|].
    destruct (PyStr.contains "/guides-v15/" n); [reflexivity|].
    destruct (PyStr.contains "/reference/" n); [reflexivity|].
    destruct (PyStr.contains "/guides-v" n); [|reflexivity].
    destruct (PyExt.search_version "/guides-v" n); reflexivity.
Qed.

(** X10: A URL that [should_crawl_url] accepts, once normalized, has not been
    visited, starts with the base URL when one is set, matches none of the
    exclusion patterns, and, if it contains "/api-v" anywhere, also
    contains "/api-v15/" (other API versions may still occur beside it);
    [determine_space] files it under "api-v15" or under a space whose name
    does not start with "api-".  A URL the older processor's test accepts
    is accepted by this one and starts with the base URL. *)
Theorem should_crawl_url_sound (url : string) :
  let n := normalize_url url in
  (should_crawl_url normalize_url visited_urls base_url url = true ->
   ~ In n visited_urls
   /\ (base_url <> "" -> PyStr.startswith n base_url = true)
   /\ PyStr.contains "/print/" n = false
   /\ PyStr.contains "/pdf/" n = false
   /\ PyExt.search_download n = false
   /\ (PyStr.contains "/api-v" n = true ->
       PyStr.contains "/api-v15/" n = true)
   /\ (determine_space n = "api-v15"
       \/ PyStr.startswith (determine_space n) "api-" = false))
  /\ (gk8_should_crawl_url normalize_url visited_urls base_url url = true ->
      should_crawl_url normalize_url visited_urls base_url url = true
      /\ PyStr.startswith n base_url = true).
Proof.
  intro n. unfold should_crawl_url, gk8_should_crawl_url. fold n. split.
  - destruct (PyExt.mem n visited_urls) eqn:Hmem; [discriminate|].
    destruct (PyStr.startswith n base_url) eqn:Hbase;
      cbn [negb andb]; rewrite ?andb_false_r.
    + intro Hd. apply crawl_decision_sound in Hd.
      split; [|split; [reflexivity|exact Hd]].
      intro Hin. apply mem_In in Hin. congruence.
    + destruct base_url as [|h b]; cbn [PyStr.is_empty negb];
        [|discriminate].
      intro Hd. apply crawl_decision_sound in Hd.
      split; [|split; [congruence|exact Hd]].
      intro Hin. apply mem_In in Hin. congruence.
  - destruct (PyExt.mem n visited_urls); [discriminate|].
    destruct (PyStr.startswith n base_url); cbn [negb];
      [|discriminate].
    rewrite andb_false_r. now split.
Qed.

End Spaces.

(** A guide page under the base URL is accepted and filed under
    "guides-v15". *)
Lemma should_crawl_url_sound_witness :
  PyStr.contains "/pdf/" "https://docs.example.com/guides-v15/start" = false
  /\ (determine_space "https://docs.example.com/guides-v15/start" = "api-v15"
      \/ PyStr.startswith
           (determine_space "https://docs.example.com/guides-v15/start")
           "api-" = false).
Proof.
  destruct (should_crawl_url_sound (fun url => url) []
              "https://docs.example.com"
              "https://docs.example.com/guides-v15/start")
    as [Hrag _].
  destruct (Hrag eq_refl) as (_ & _ & _ & Hpdf & _ & _ & Hspace).
  split; [exact Hpdf|exact Hspace].
Defined.

(** The version test looks for "/api-v15/" anywhere: a URL that names
    another API version beside it is accepted, and filed under
    "api-v15". *)
Lemma mixed_api_versions_accepted :
  should_crawl_url (fun url => url) [] "https://docs.example.com"
                   "https://docs.example.com/api-v2/x/api-v15/y" = true
  /\ determine_space "https://docs.example.com/api-v2/x/api-v15/y"
     = "api-v15".
Proof. split; vm_compute; reflexivity. Qed.

(** ** File names of the chunks *)

Section FileNames.

Lemma take_length (n : nat) (s : string) :
  (String.length (PyExt.take n s) <= n)%nat.
Proof.
  revert s. induction n as [|n IH]; intros [|h s]; simpl; try lia.
  specialize (IH s). lia.
Qed.

Lemma take_all_chars (test : ascii -> bool) (n : nat) (s : string) :
  all_chars test s = true -> all_chars test (PyExt.take n s) = true.
Proof.
  revert s. induction n as [|n IH]; intros [|h s]; simpl; try reflexivity.
  intro H. apply andb_true_iff in H. destruct H as [Hh Hs].
  now rewrite Hh, IH.
Qed.

Lemma sub_unsafe_chars (s : string) :
  all_chars (fun c => PyExt.is_word_char c || PyStr.is_space c
                      || PyExt.is_dash c)
            (PyExt.sub_unsafe s) = true.
Proof.
  induction s as [|h s IH]; [reflexivity|]. cbn [PyExt.sub_unsafe].
  destruct (PyExt.is_word_char h || PyStr.is_space h || PyExt.is_dash h)
    eqn:Hh; [|exact IH].
  cbn [all_chars]. now rewrite Hh, IH.
Qed.

Lemma sub_dashes_chars (s : string) :
  all_chars (fun c => PyExt.is_word_char c || PyStr.is_space c
                      || PyExt.is_dash c) s = true ->
  forall in_run, all_chars title_char (PyExt.sub_dashes_go in_run s) = true.
Proof.
  induction s as [|h s IH]; [reflexivity|]. cbn [all_chars].
  intro H. apply andb_true_iff in H. destruct H as [Hh Hs].
  intro in_run. cbn [PyExt.sub_dashes_go].
  destruct (PyExt.is_dash h || PyStr.is_space h) eqn:Hrun.
  - destruct in_run; [now apply IH|]. cbn [all_chars].
    now rewrite (IH Hs true).
  - cbn [all_chars]. rewrite (IH Hs false), andb_true_r.
    unfold title_char. apply orb_false_iff in Hrun.
    destruct Hrun as [Hdash Hspace].
    rewrite Hspace, Hdash, !orb_false_r in Hh. now rewrite Hh.
Qed.

Lemma safe_title_chars (page_title : string) :
  all_chars title_char (safe_title page_title) = true.
Proof.
  unfold safe_title, PyExt.sub_dashes.
  apply take_all_chars, sub_dashes_chars, sub_unsafe_chars.
Qed.

Lemma string_of_uint_chars (d : Decimal.uint) :
  all_chars PyExt.is_digit (NilEmpty.string_of_uint d) = true.
Proof. induction d; simpl; auto. Qed.

Lemma digit_title_char (c : ascii) :
  PyExt.is_digit c = true -> title_char c = true.
Proof.
  unfold PyExt.is_digit, title_char, PyExt.is_word_char. cbv zeta.
  intro H. now rewrite H.
Qed.

Lemma str_of_int_chars (n : Z) :
  all_chars title_char (PyStr.str_of_int n) = true.
Proof.
  unfold PyStr.str_of_int. destruct (Z.to_int n) as [d|d]; simpl;
    apply (all_chars_weaken PyExt.is_digit);
    auto using digit_title_char, string_of_uint_chars.
Qed.

Lemma format_02d_chars (n : Z) :
  all_chars title_char (PyExt.format_02d n) = true.
Proof.
  unfold PyExt.format_02d. destruct (_ <? _)%nat; [|apply str_of_int_chars].
  cbn [String.append all_chars]. apply str_of_int_chars.
Qed.

Lemma filename_char_no_slash (c : ascii) :
  filename_char c = true -> negb (Ascii.eqb c "/") = true.
Proof.
  destruct (Ascii.eqb_spec c "/") as [->|]; [discriminate|reflexivity].
Qed.

Lemma filename_char_no_space (c : ascii) :
  filename_char c = true -> PyStr.is_space c = false.
Proof.
  destruct c as [[|] [|] [|] [|] [|] [|] [|] [|]];
    vm_compute; congruence.
Qed.

(** The index written in a file name is read back. *)
Lemma decode_format_02d (n : Z) :
  decode_index (PyExt.format_02d n) = Some n.
Proof.
  unfold decode_index, PyExt.format_02d, PyStr.str_of_int.
  pose proof (DecimalZ.of_to n) as Hn.
  destruct (String.length (NilEmpty.string_of_int (Z.to_int n)) <? 2)%nat
    eqn:Hshort.
  - destruct (Z.to_int n) as [d|d] eqn:Hd.
    + cbn [NilEmpty.string_of_int String.append].
      unfold NilEmpty.int_of_string.
      change (Ascii.eqb "0" "-") with false. cbv iota.
      cbn [NilEmpty.uint_of_string]. rewrite NilEmpty.usu.
      cbn [uint_of_char option_map]. f_equal. exact Hn.
    + exfalso. apply Nat.ltb_lt in Hshort. simpl in Hshort.
      destruct d; simpl in Hshort; try lia.
      simpl in Hn. subst n. discriminate.
  - rewrite NilEmpty.isi. cbn [option_map]. now f_equal.
Qed.

Lemma append_inj_l (a x y : string) : a ++ x = a ++ y -> x = y.
Proof.
  induction a as [|h a IH]; [trivial|]. simpl. intros [= H]. now apply IH.
Qed.

Lemma append_inj_r (s x y : string) : x ++ s = y ++ s -> x = y.
Proof.
  revert y. induction x as [|h x IH]; intros [|h' y] H.
  - reflexivity.
  - apply (f_equal String.length) in H. simpl in H.
    rewrite length_append in H. lia.
  - apply (f_equal String.length) in H. simpl in H.
    rewrite length_append in H. lia.
  - simpl in H. injection H as -> H. f_equal. now apply IH.
Qed.

Lemma endswith_app (a s : string) : PyExt.endswith (a ++ s) s = true.
Proof.
  induction a as [|h a IH].
  - destruct s; simpl; [reflexivity|].
    now rewrite Ascii.eqb_refl, String.eqb_refl.
  - cbn [String.append PyExt.endswith]. rewrite IH. apply orb_true_r.
Qed.

(** X11: the file name of a chunk starts with at most 50 word characters and
    dashes taken from the page title, holds no slash and no whitespace,
    and ends with ".md"; two chunks of a page with different indices get
    different names. *)
Theorem chunk_filename_safe (page_title : string) (chunk_index : Z) :
  (String.length (safe_title page_title) <= 50)%nat
  /\ all_chars title_char (safe_title page_title) = true
  /\ all_chars filename_char (chunk_filename page_title chunk_index) = true
  /\ PyStr.contains "/" (chunk_filename page_title chunk_index) = false
  /\ all_chars (fun c => negb (PyStr.is_space c))
               (chunk_filename page_title chunk_index) = true
  /\ PyExt.endswith (chunk_filename page_title chunk_index) ".md" = true
  /\ (forall other,
        chunk_filename page_title chunk_index
        = chunk_filename page_title other ->
        chunk_index = other).
Proof.
  assert (Hname : all_chars filename_char
                    (chunk_filename page_title chunk_index) = true).
  { unfold chunk_filename. rewrite !all_chars_app.
    assert (Hweak : forall s, all_chars title_char s = true ->
                              all_chars filename_char s = true).
    { intro s. apply all_chars_weaken. intros c Hc. unfold filename_char.
      now rewrite Hc. }
    rewrite (Hweak _ (safe_title_chars page_title)).
    rewrite (Hweak _ (format_02d_chars chunk_index)). reflexivity. }
  split; [apply take_length|]. split; [apply safe_title_chars|].
  split; [exact Hname|]. split; [|split; [|split]].
  - apply no_slash_contains.
    apply (all_chars_weaken filename_char);
      [apply filename_char_no_slash|exact Hname].
  - apply (all_chars_weaken filename_char); [|exact Hname].
    intros c Hc. now rewrite (filename_char_no_space c Hc).
  - unfold chunk_filename. rewrite <- !append_assoc. apply endswith_app.
  - intros other Heq. unfold chunk_filename in Heq.
    apply append_inj_l, append_inj_l, append_inj_r in Heq.
    apply (f_equal decode_index) in Heq.
    rewrite !decode_format_02d in Heq. congruence.
Qed.

(** X12: the ['content_type'] of a page is one of five labels; a URL that
    mentions "reference" is typed "api", so the label "reference" is given
    only to a URL that mentions "specification" and none of the terms
    tested before. *)
Theorem content_type_labels (url : string) :
  In (content_type_of url)
     ["api"; "guide"; "example"; "reference"; "documentation"]
  /\ (PyStr.contains "reference" (PyExt.lower url) = true ->
      content_type_of url = "api")
  /\ (content_type_of url = "reference" ->
      PyStr.contains "specification" (PyExt.lower url) = true
      /\ PyStr.contains "reference" (PyExt.lower url) = false
      /\ PyStr.contains "api" (PyExt.lower url) = false).
Proof.
  unfold content_type_of, PyExt.any_in. cbn [existsb].
  destruct (PyStr.contains "api" (PyExt.lower url));
    [cbn [orb]; split; [simpl; tauto|split; [reflexivity|discriminate]]|].
  destruct (PyStr.contains "reference" (PyExt.lower url));
    [cbn [orb]; split; [simpl; tauto|split; [reflexivity|discriminate]]|].
  cbn [orb].
  repeat match goal with
         | |- context [PyStr.contains ?t (PyExt.lower url)] =>
             destruct (PyStr.contains t (PyExt.lower url)); cbn [orb]
         end;
    (split; [simpl; tauto|split; [discriminate|]]);
    try discriminate; intros _; now repeat split.
Qed.

End FileNames.

(** ** The older processor *)

Section OlderProcessor.

Variable cfg : Config.

Lemma gk8_more x (chunks : list Chunk) (c : Chunk) :
  (exists c', In c' chunks /\ infix_of x (PyStr.strip (chunk_content c'))) ->
  exists c', In c' (chunks ++ [c])
             /\ infix_of x (PyStr.strip (chunk_content c')).
Proof.
  intros (c' & Hin & Hx). exists c'. split; [|assumption].
  apply in_or_app. now left.
Qed.

Lemma gk8_last x (chunks : list Chunk) (c : Chunk) :
  infix_of (PyStr.strip x) (chunk_content c) ->
  exists c', In c' (chunks ++ [c])
             /\ infix_of (PyStr.strip x) (PyStr.strip (chunk_content c')).
Proof.
  intro Hx. exists c. split; [apply in_or_app; right; now left|].
  now apply infix_strip.
Qed.

Lemma paragraphs_loop_held section (paragraphs : list string) :
  forall chunks temp_content temp_tokens x,
  nonblank x ->
  gk8_para_held (PyStr.strip x) chunks temp_content
  \/ In x paragraphs ->
  let '(chunks', temp_content', _) :=
    GK8.paragraphs_loop cfg section paragraphs chunks temp_content
                        temp_tokens in
  gk8_para_held (PyStr.strip x) chunks' temp_content'.
Proof.
  induction paragraphs as [|para paragraphs IH];
    intros chunks temp_content temp_tokens x Hx Hcase.
  - simpl. destruct Hcase as [Hheld|[]]. exact Hheld.
  - cbn [GK8.paragraphs_loop]. destruct (_ >? _).
    + apply IH; [assumption|].
      destruct Hcase as [[Hc|Htemp]|[->|Hin]].
      * left. left. destruct (negb _); [now apply gk8_more|exact Hc].
      * left. left.
        destruct (PyStr.strip temp_content) eqn:Hs.
        -- exfalso. now apply (infix_blank x temp_content).
        -- cbn [PyStr.is_empty negb].
           apply (gk8_last x chunks
                    (mkChunk (String a s) [title section] temp_tokens)).
           cbn [chunk_content]. rewrite <- Hs. now apply infix_strip.
      * left. right.
        eapply infix_trans; [apply strip_infix|].
        exists ("# " ++ title section ++ BLANK), BLANK.
        now rewrite !append_assoc.
      * now right.
    + apply IH; [assumption|].
      destruct Hcase as [[Hc|Htemp]|[->|Hin]].
      * left. now left.
      * left. right. now apply infix_app_l.
      * left. right. apply infix_app_r, infix_app_l, strip_infix.
      * now right.
Qed.

Lemma split_oversized_held x section st :
  nonblank x ->
  gk8_held (PyStr.strip x) st
  \/ In x (PyStr.split BLANK (content section)) ->
  gk8_held (PyStr.strip x) (GK8.split_oversized cfg section st).
Proof.
  intros Hx Hcase. unfold GK8.split_oversized.
  set (st1 := if negb (PyStr.is_empty (chunk_content (GK8.current_chunk st)))
              then _ else st).
  set (temp := if is_titled section then _ else "").
  assert (Hst1 : gk8_held (PyStr.strip x) st
                 -> exists c, In c (GK8.chunks st1)
                      /\ infix_of (PyStr.strip x)
                                  (PyStr.strip (chunk_content c))).
  { intros [Hc|Hcur]; unfold st1.
    - destruct (negb _); cbn [GK8.chunks]; [now apply gk8_more|exact Hc].
    - destruct (chunk_content (GK8.current_chunk st)) eqn:Hcontent.
      + exfalso. apply (infix_blank x "" Hx Hcur). reflexivity.
      + cbn [PyStr.is_empty negb GK8.chunks]. apply gk8_last.
        now rewrite Hcontent. }
  pose proof (paragraphs_loop_held section
                (PyStr.split BLANK (content section)) (GK8.chunks st1) temp
                (GK8.estimate_tokens temp) x Hx) as Hloop.
  destruct (GK8.paragraphs_loop cfg section _ (GK8.chunks st1) temp _)
    as [[chunks' temp'] tokens'].
  left. cbn [GK8.chunks].
  assert (Hheld : gk8_para_held (PyStr.strip x) chunks' temp').
  { apply Hloop. destruct Hcase as [Hheld|Hin]; [left; left|now right].
    exact (Hst1 Hheld). }
  destruct Hheld as [Hc|Htemp].
  - destruct (negb (PyStr.is_empty (PyStr.strip temp')));
      [now apply gk8_more|exact Hc].
  - destruct (PyStr.strip temp') eqn:Hs.
    + exfalso. now apply (infix_blank x temp').
    + cbn [PyStr.is_empty negb].
      apply (gk8_last x chunks' (mkChunk (String a s) [title section] tokens')).
      cbn [chunk_content]. rewrite <- Hs. now apply infix_strip.
Qed.

Lemma appended_holds section (current : Chunk) :
  infix_of (PyStr.strip (content section))
           (chunk_content (GK8.appended section current)).
Proof.
  cbn [GK8.appended chunk_content]. apply infix_app_r.
  eapply infix_trans; [apply strip_infix|apply content_in_rendered].
Qed.

Lemma add_section_held x section st :
  nonblank x ->
  gk8_held (PyStr.strip x) st ->
  gk8_held (PyStr.strip x) (GK8.add_section cfg st section).
Proof.
  intros Hx Hheld. unfold GK8.add_section.
  assert (Happ : gk8_held (PyStr.strip x)
            (GK8.mkState (GK8.chunks st)
               (GK8.appended section (GK8.current_chunk st)))).
  { destruct Hheld as [Hc|Hcur]; [now left|right].
    cbn [GK8.current_chunk GK8.appended chunk_content].
    now apply infix_app_l. }
  destruct (_ >? _); [apply split_oversized_held; [assumption|now left]|].
  destruct (_ >? _); [|exact Happ].
  destruct (_ >=? _); [|exact Happ].
  left. cbn [GK8.chunks].
  destruct Hheld as [Hc|Hcur]; [now apply gk8_more|now apply gk8_last].
Qed.

Lemma add_section_holds section st :
  GK8.estimate_tokens (content section) <= CHUNK_SIZE_MAX cfg ->
  gk8_held (PyStr.strip (content section)) (GK8.add_section cfg st section).
Proof.
  intro Hfit. unfold GK8.add_section.
  destruct (Z.gtb_spec (GK8.estimate_tokens (content section))
                       (CHUNK_SIZE_MAX cfg)); [lia|].
  destruct (_ >? _); [destruct (_ >=? _)|]; right;
    cbn [GK8.current_chunk]; try apply appended_holds.
  cbn [chunk_content]. apply infix_app_r.
  eapply infix_trans; [apply strip_infix|].
  exists (BLANK ++ "# " ++ title section ++ BLANK), "".
  now rewrite append_nil_r, !append_assoc.
Qed.

Lemma fold_add_section_held (sections : list Section_) :
  forall st x,
  nonblank x ->
  gk8_held (PyStr.strip x) st
  \/ (exists s, In s sections
                /\ ((GK8.estimate_tokens (content s) <= CHUNK_SIZE_MAX cfg
                     /\ x = content s)
                    \/ (GK8.estimate_tokens (content s) > CHUNK_SIZE_MAX cfg
                        /\ In x (PyStr.split BLANK (content s))))) ->
  gk8_held (PyStr.strip x) (fold_left (GK8.add_section cfg) sections st).
Proof.
  induction sections as [|section sections IH]; intros st x Hx Hcase.
  - destruct Hcase as [Hheld|(s & [] & _)]. exact Hheld.
  - simpl. apply IH; [assumption|].
    destruct Hcase as [Hheld|(s & [<-|Hin] & Hs)].
    + left. now apply add_section_held.
    + left. destruct Hs as [[Hfit ->]|[Hbig Hpara]].
      * now apply add_section_holds.
      * unfold GK8.add_section.
        destruct (Z.gtb_spec (GK8.estimate_tokens (content section))
                             (CHUNK_SIZE_MAX cfg)); [|lia].
        apply split_oversized_held; [assumption|now right].
    + right. now exists s.
Qed.

Lemma number_loop_candidates {M} (md : M) total (chunks : list Chunk) :
  forall i,
  map candidate (GK8.number_loop md total i chunks)
  = map (fun c => mkChunk (PyStr.strip (chunk_content c))
                          (chunk_sections c) (token_count c)) chunks.
Proof.
  induction chunks as [|c chunks IH]; intro i; simpl; [reflexivity|].
  now rewrite IH.
Qed.

Lemma number_loop_index {M} (md : M) total (chunks : list Chunk) :
  forall i : nat,
  map (fun c => chunk_index (metadata c))
      (GK8.number_loop md total (Z.of_nat i) chunks)
  = map Z.of_nat (seq (S i) (List.length chunks)).
Proof.
  induction chunks as [|c chunks IH]; intro i; simpl; [reflexivity|].
  f_equal; [lia|]. rewrite <- IH. do 2 f_equal. lia.
Qed.

Lemma number_loop_total {M} (md : M) total (chunks : list Chunk) :
  forall i,
  Forall (fun c => total_chunks (metadata c) = total
                   /\ page (metadata c) = md
                   /\ section_titles (metadata c)
                      = chunk_sections (candidate c))
         (GK8.number_loop md total i chunks).
Proof.
  induction chunks as [|c chunks IH]; intro i; simpl; constructor; auto.
Qed.

(** X14: the older [create_chunks] drops nothing: it returns every candidate it
    built, trimmed, numbered 1, 2, ..., N with N as the total, with the
    caller's metadata and the titles of the candidate. *)
Theorem gk8_create_chunks_numbering {M} (sections : list Section_) (md : M) :
  let built := GK8.build_chunks cfg sections in
  let out := GK8.create_chunks cfg sections md in
  map candidate out
  = map (fun c => mkChunk (PyStr.strip (chunk_content c))
                          (chunk_sections c) (token_count c)) built
  /\ map (fun c => chunk_index (metadata c)) out
     = map Z.of_nat (seq 1 (List.length built))
  /\ Forall (fun c => total_chunks (metadata c)
                      = Z.of_nat (List.length built)
                      /\ page (metadata c) = md
                      /\ section_titles (metadata c)
                         = chunk_sections (candidate c)) out.
Proof.
  intros built out. unfold out, GK8.create_chunks. fold built.
  split; [apply number_loop_candidates|].
  split; [apply (number_loop_index md _ built 0%nat)|].
  apply number_loop_total.
Qed.

(** X15: the older [create_chunks] loses no text: the trimmed content of every
    section within the ceiling that is not blank is in the text of a
    returned chunk, and so is, trimmed, every paragraph that is not blank
    of a section above the ceiling. *)
Theorem gk8_coverage {M} (sections : list Section_) (md : M)
    (s : Section_) (x : string) :
  In s sections ->
  nonblank x ->
  (GK8.estimate_tokens (content s) <= CHUNK_SIZE_MAX cfg /\ x = content s)
  \/ (GK8.estimate_tokens (content s) > CHUNK_SIZE_MAX cfg
      /\ In x (PyStr.split BLANK (content s))) ->
  exists c,
    In c (GK8.create_chunks cfg sections md)
    /\ PyStr.contains (PyStr.strip x) (chunk_content (candidate c)) = true.
Proof.
  intros Hs Hx Hcase.
  assert (Hbuilt : exists c,
            In c (GK8.build_chunks cfg sections)
            /\ infix_of (PyStr.strip x) (PyStr.strip (chunk_content c))).
  { unfold GK8.build_chunks.
    pose proof (fold_add_section_held sections
                  (GK8.mkState [] GK8.empty_chunk) x Hx) as Hheld.
    destruct Hheld as [Hc|Hcur]; [right; now exists s| |].
    - destruct (negb _); [now apply gk8_more|exact Hc].
    - destruct (PyStr.strip (chunk_content (GK8.current_chunk _))) eqn:Hcur';
        [exfalso; now apply (infix_blank x _ Hx Hcur)|].
      cbn [PyStr.is_empty negb]. now apply gk8_last. }
  destruct Hbuilt as (c & Hc & Hxc).
  pose proof (Hnumbered := number_loop_candidates md
                (Z.of_nat (List.length (GK8.build_chunks cfg sections)))
                (GK8.build_chunks cfg sections) 0).
  assert (Hout : In (mkChunk (PyStr.strip (chunk_content c))
                             (chunk_sections c) (token_count c))
                    (map candidate (GK8.create_chunks cfg sections md))).
  { unfold GK8.create_chunks. rewrite Hnumbered.
    now apply (in_map (fun c => mkChunk (PyStr.strip (chunk_content c))
                                        (chunk_sections c) (token_count c))). }
  apply in_map_iff in Hout. destruct Hout as (c' & Hcand & Hc').
  exists c'. split; [assumption|].
  rewrite Hcand. cbn [chunk_content]. now apply infix_contains.
Qed.

End OlderProcessor.

(** The two paragraphs of a section above the older ceiling are each in a
    returned chunk. *)
Lemma gk8_coverage_witness :
  exists c,
    In c (GK8.create_chunks (mkConfig 300 1000 1500 100)
                            doc_two_paragraphs_gk8 tt)
    /\ PyStr.contains (xs 3500) (chunk_content (candidate c)) = true.
Proof.
  apply (gk8_coverage (mkConfig 300 1000 1500 100) doc_two_paragraphs_gk8 tt
           (mkSection 1 "T" (xs 3500 ++ BLANK ++ xs 3500)) (xs 3500)).
  - left. reflexivity.
  - unfold nonblank. vm_compute. discriminate.
  - right. split; [vm_compute; reflexivity|]. vm_compute. left. reflexivity.
Defined.

(** ** Related links *)

Lemma fromkeys_go_In (l : list string) :
  forall seen x,
  In x (PyExt.fromkeys_go seen l) <-> In x l /\ ~ In x seen.
Proof.
  induction l as [|y l IH]; intros seen x; simpl; [tauto|].
  destruct (PyExt.mem y seen) eqn:Hmem.
  - apply mem_In in Hmem. rewrite IH. split.
    + intros [Hin Hseen]. now split; [right|].
    + intros [[->|Hin] Hseen]; [contradiction|now split].
  - assert (Hy : ~ In y seen) by (rewrite <- mem_In; congruence).
    simpl. rewrite IH. simpl. split.
    + intros [->|[Hin Hseen]]; [now split; [left|]|].
      split; [now right|tauto].
    + intros [[->|Hin] Hseen]; [now left|].
      destruct (string_dec y x) as [->|Hne]; [now left|right].
      split; [assumption|]. intros [Heq|Hs]; [congruence|contradiction].
Qed.

Lemma fromkeys_go_NoDup (l : list string) :
  forall seen, NoDup (PyExt.fromkeys_go seen l).
Proof.
  induction l as [|y l IH]; intro seen; simpl; [constructor|].
  destruct (PyExt.mem y seen); [apply IH|].
  constructor; [|apply IH].
  rewrite fromkeys_go_In. simpl. tauto.
Qed.

(** [list(dict.fromkeys(l))] has the elements of [l], each once. *)
Lemma fromkeys_spec (l : list string) :
  NoDup (PyExt.fromkeys l) /\ forall x, In x (PyExt.fromkeys l) <-> In x l.
Proof.
  split; [apply fromkeys_go_NoDup|].
  intro x. unfold PyExt.fromkeys. rewrite fromkeys_go_In. simpl. tauto.
Qed.

Lemma NoDup_firstn_keep {A} (n : nat) (l : list A) :
  NoDup l -> NoDup (firstn n l).
Proof.
  intro H. rewrite <- (firstn_skipn n l) in H.
  now apply NoDup_app_remove_r in H.
Qed.

Lemma In_firstn {A} (n : nat) (l : list A) (x : A) :
  In x (firstn n l) -> In x l.
Proof.
  intro H. rewrite <- (firstn_skipn n l). apply in_or_app. now left.
Qed.

Section RelatedLinks.

Variable urljoin : string -> string -> string.
Variable base_url : string.

Lemma related_links_loop_In (url : string) (hrefs : list string) (l : string) :
  In l (related_links_loop urljoin base_url url hrefs) ->
  PyStr.contains base_url l = true
  /\ ((In l hrefs /\ PyExt.startswith_any l ["http://"; "https://"] = true)
      \/ exists href,
           In href hrefs /\ l = urljoin url href
           /\ PyExt.startswith_any href
                ["http://"; "https://"; "#"; "javascript:"; "mailto:"]
              = false).
Proof.
  induction hrefs as [|href hrefs IH]; [contradiction|].
  cbn [related_links_loop].
  destruct (PyExt.startswith_any href ["http://"; "https://"]
            && PyStr.contains base_url href) eqn:Hinternal.
  - apply andb_true_iff in Hinternal. destruct Hinternal as [Hstart Hbase].
    intros [<-|Hin].
    + split; [assumption|]. left. split; [now left|assumption].
    + destruct (IH Hin) as [Hb [[Hl Hs]|(h & Hh & Heq & Hn)]].
      * split; [assumption|]. left. split; [now right|assumption].
      * split; [assumption|]. right. exists h. split; [now right|now split].
  - assert (Hrest : In l (related_links_loop urljoin base_url url hrefs) ->
              PyStr.contains base_url l = true
              /\ ((In l (href :: hrefs)
                   /\ PyExt.startswith_any l ["http://"; "https://"] = true)
                  \/ exists h,
                       In h (href :: hrefs) /\ l = urljoin url h
                       /\ PyExt.startswith_any h
                            ["http://"; "https://"; "#"; "javascript:";
                             "mailto:"] = false)).
    { intro Hin. destruct (IH Hin) as [Hb [[Hl Hs]|(h & Hh & Heq & Hn)]].
      - split; [assumption|]. left. split; [now right|assumption].
      - split; [assumption|]. right. exists h. split; [now right|now split]. }
    destruct (PyExt.startswith_any href
                ["http://"; "https://"; "#"; "javascript:"; "mailto:"])
      eqn:Hskip; cbn [negb]; [exact Hrest|].
    destruct (PyStr.contains base_url (urljoin url href)) eqn:Hbase;
      [|exact Hrest].
    intros [<-|Hin]; [|now apply Hrest].
    split; [assumption|]. right. exists href. split; [now left|now split].
Qed.

(** X13: the related links of a page are at most ten, pairwise distinct, and
    each mentions the base URL and is an absolute [href] of the page or
    the resolution of a relative one; no link is lost to the removal of
    duplicates when at most ten distinct ones were found. *)
Theorem related_links_wellformed (url : string) (hrefs : list string) :
  let found := related_links_loop urljoin base_url url hrefs in
  let out := related_links urljoin base_url url hrefs in
  (List.length out <= 10)%nat
  /\ NoDup out
  /\ (forall l, In l out ->
        PyStr.contains base_url l = true
        /\ ((In l hrefs
             /\ PyExt.startswith_any l ["http://"; "https://"] = true)
            \/ exists href,
                 In href hrefs /\ l = urljoin url href
                 /\ PyExt.startswith_any href
                      ["http://"; "https://"; "#"; "javascript:"; "mailto:"]
                    = false))
  /\ ((List.length (PyExt.fromkeys found) <= 10)%nat ->
      forall l, In l found -> In l out).
Proof.
  intros found out. unfold out, related_links. fold found.
  destruct (fromkeys_spec found) as [Hnodup Hsame].
  split; [rewrite length_firstn; lia|].
  split; [now apply NoDup_firstn_keep|]. split.
  - intros l Hl. apply In_firstn in Hl. apply Hsame in Hl.
    now apply related_links_loop_In.
  - intros Hfew l Hl. rewrite firstn_all2 by assumption. now apply Hsame.
Qed.

End RelatedLinks.

(** ** The crawl *)

Section CrawlInvariants.

Variable Soup : Type.
Variable fetch : string -> option Soup.
Variable soup_title : Soup -> string.
Variable soup_hrefs : Soup -> list string.
Variable available : bool.
Variable normalize_url : string -> string.
Variable urljoin : string -> string -> string.
Variable base_url : string.

Local Abbreviation crawl_page' :=
  (crawl_page Soup fetch soup_title soup_hrefs available normalize_url
              urljoin base_url).
Local Abbreviation crawl_step' :=
  (crawl_step Soup fetch soup_title soup_hrefs available normalize_url
              urljoin base_url).
Local Abbreviation crawl_loop' :=
  (crawl_loop Soup fetch soup_title soup_hrefs available normalize_url
              urljoin base_url).

Lemma set_add_In (x y : string) (s : list string) :
  In y (set_add x s) <-> y = x \/ In y s.
Proof.
  unfold set_add. destruct (PyExt.mem x s) eqn:Hmem; simpl.
  - apply mem_In in Hmem. split; [tauto|]. intros [->|H]; assumption.
  - split; intros [H|H]; auto.
Qed.

Lemma set_of_In (l : list string) :
  forall s x, In x (fold_left (fun s x => set_add x s) l s)
              <-> In x l \/ In x s.
Proof.
  induction l as [|y l IH]; intros s x; simpl; [tauto|].
  rewrite IH, set_add_In. split; intros [H|H]; auto.
  - destruct H as [->|H]; auto.
  - destruct H as [->|H]; auto.
Qed.

Lemma links_loop_base (visited_urls : list string) (n : string)
    (hrefs : list string) (l : string) :
  In l (links_loop normalize_url urljoin base_url visited_urls n hrefs) ->
  PyStr.startswith l base_url = true.
Proof.
  induction hrefs as [|href hrefs IH]; [contradiction|].
  cbn [links_loop]. destruct (PyExt.startswith_any href _); [exact IH|].
  cbv zeta.
  destruct (PyStr.startswith (normalize_url (urljoin n href)) base_url)
    eqn:Hbase; cbn [andb]; [|exact IH].
  destruct (should_crawl_url _ _ _ _); [|exact IH].
  intros [<-|Hin]; [assumption|now apply IH].
Qed.

Lemma crawl_page_ok (c : Crawler Soup) (url : string) :
  crawler_ok base_url c ->
  crawler_ok base_url (fst (crawl_page' c url))
  /\ (forall u, In u (visited c) -> In u (visited (fst (crawl_page' c url))))
  /\ NoDup (snd (crawl_page' c url)).
Proof.
  intros [Hnodup Hpages]. unfold crawl_page.
  destruct (PyExt.mem (normalize_url url) (visited c)) eqn:Hmem.
  { cbn [fst snd]. split; [now split|split; [auto|constructor]]. }
  assert (Hnew : ~ In (normalize_url url) (visited c))
    by (rewrite <- mem_In; congruence).
  assert (Hgrow : forall u, In u (visited c) ->
                            In u (set_add (normalize_url url) (visited c)))
    by (intros u Hu; apply set_add_In; now right).
  assert (Hsame : crawler_ok base_url
            (mkCrawler (set_add (normalize_url url) (visited c))
                       (content_data c))).
  { split; [exact Hnodup|]. intros p Hp. cbn [visited].
    destruct (Hpages p Hp) as (Hv & Hrest). split; [now apply Hgrow|exact Hrest]. }
  destruct available;
    [|cbn [fst snd]; split; [exact Hsame|split; [exact Hgrow|constructor]]].
  destruct (fetch (normalize_url url)) as [soup|];
    [|cbn [fst snd]; split; [exact Hsame|split; [exact Hgrow|constructor]]].
  cbn [fst snd visited content_data].
  destruct (fromkeys_spec
              (links_loop normalize_url urljoin base_url
                 (set_add (normalize_url url) (visited c))
                 (normalize_url url) (soup_hrefs soup))) as [Hlinks Hin].
  split; [|split; [exact Hgrow|exact Hlinks]].
  unfold crawler_ok. cbn [content_data visited]. split.
  - rewrite map_app. cbn [map crawled_url].
    apply NoDup_app; [exact Hnodup|repeat constructor; simpl; tauto|].
    intros u Hu [<-|[]]. apply in_map_iff in Hu.
    destruct Hu as (p & Hurl & Hp). destruct (Hpages p Hp) as (Hv & _).
    rewrite Hurl in Hv. contradiction.
  - intros p Hp. apply in_app_or in Hp. destruct Hp as [Hp|[<-|[]]].
    + destruct (Hpages p Hp) as (Hv & Hrest).
      split; [now apply Hgrow|exact Hrest].
    + cbn [crawled_url crawled_space crawled_links].
      split; [apply set_add_In; now left|]. split; [reflexivity|].
      split; [exact Hlinks|].
      intros l Hl. apply Hin in Hl. now apply links_loop_base in Hl.
Qed.

Lemma enqueue_ok (visited_urls new_links : list string) :
  forall queue queued skipped,
  (forall u, In u queue -> In u queued) ->
  let '(queue', queued', _) :=
    enqueue visited_urls new_links queue queued skipped in
  forall u, In u queue' -> In u queued'.
Proof.
  induction new_links as [|link rest IH]; intros queue queued skipped Hq;
    [exact Hq|].
  cbn [enqueue]. destruct (_ && _); apply IH; [|exact Hq].
  intros u Hu. apply set_add_In. apply in_app_or in Hu.
  destruct Hu as [Hu|[<-|[]]]; [right; now apply Hq|now left].
Qed.

Lemma crawl_step_ok (st st' : CrawlState Soup) :
  crawl_state_ok base_url st ->
  crawl_step' st = Some st' ->
  crawl_state_ok base_url st'
  /\ (forall u, In u (visited (crawler st)) -> In u (visited (crawler st'))).
Proof.
  intros [Hc Hq]. unfold crawl_step.
  destruct (url_queue st) as [|current queue] eqn:Hqueue; [discriminate|].
  assert (Hq' : forall u, In u queue -> In u (queued_urls st))
    by (intros u Hu; apply Hq; now right).
  destruct (PyExt.mem current (visited (crawler st))).
  - intros [= <-]. cbn [crawler]. split; [|auto]. now split.
  - pose proof (crawl_page_ok (crawler st) current Hc) as (Hc' & Hgrow & _).
    destruct (crawl_page' (crawler st) current) as [crawler' new_links].
    cbn [fst] in *.
    pose proof (enqueue_ok (visited crawler') new_links queue
                  (queued_urls st) (duplicate_links_skipped st) Hq') as He.
    destruct (enqueue (visited crawler') new_links queue (queued_urls st)
                      (duplicate_links_skipped st))
      as [[queue' queued'] skipped'].
    intros [= <-]. cbn [crawler]. split; [|exact Hgrow]. now split.
Qed.

Lemma crawl_loop_ok (turns : nat) :
  forall st,
  crawl_state_ok base_url st ->
  crawl_state_ok base_url (crawl_loop' turns st)
  /\ (forall u, In u (visited (crawler st)) ->
                In u (visited (crawler (crawl_loop' turns st)))).
Proof.
  induction turns as [|k IH]; intros st Hst; [now split|].
  cbn [crawl_loop]. destruct (crawl_step' st) as [st'|] eqn:Hstep;
    [|now split].
  destruct (crawl_step_ok st st' Hst Hstep) as [Hst' Hgrow].
  destruct (IH st' Hst') as [Hfinal Hgrow']. split; [exact Hfinal|].
  intros u Hu. now apply Hgrow', Hgrow.
Qed.

(** X16: however long the crawl of a fresh processor runs, no URL is stored
    twice in [content_data], every stored URL is in [visited_urls], every
    stored page has the space of its URL and a list of distinct links that
    all start with the base URL, and every URL waiting in the queue is in
    the set of queued URLs. *)
Theorem crawl_all_invariants (turns : nat) (start_urls : list string) :
  let st := crawl_all Soup fetch soup_title soup_hrefs available
                      normalize_url urljoin base_url turns
                      (mkCrawler [] []) start_urls in
  NoDup (map crawled_url (content_data (crawler st)))
  /\ (forall p, In p (content_data (crawler st)) ->
        In (crawled_url p) (visited (crawler st))
        /\ crawled_space p = determine_space (crawled_url p)
        /\ NoDup (crawled_links p)
        /\ forall l, In l (crawled_links p) ->
             PyStr.startswith l base_url = true)
  /\ (forall u, In u (url_queue st) -> In u (queued_urls st)).
Proof.
  intro st. unfold st, crawl_all.
  destruct (crawl_loop_ok turns
              (mkCrawlState (mkCrawler [] []) (map normalize_url start_urls)
                 (set_of (map normalize_url start_urls)) 0 0))
    as [[[Hnodup Hpages] Hq] _].
  - split.
    + split; [constructor|]. intros p [].
    + intros u Hu. cbn [url_queue queued_urls] in *.
      unfold set_of. apply set_of_In. now left.
  - split; [exact Hnodup|]. split; [exact Hpages|exact Hq].
Qed.

(** A page that has been visited is not fetched again: [crawl_page] on a
    URL whose normal form is in [visited_urls] changes nothing and returns
    no link. *)
Lemma crawl_page_visited (c : Crawler Soup) (url : string) :
  In (normalize_url url) (visited c) -> crawl_page' c url = (c, []).
Proof.
  intro Hin. apply mem_In in Hin. unfold crawl_page. now rewrite Hin.
Qed.

End CrawlInvariants.

(** ** Parts and titles *)

(** X8: cutting a text at its fences, or at its blank lines, loses nothing:
    the parts joined with the separator give the text back, there is one
    part more than separators, and no part of a fenced section holds a
    delimiter. *)
Theorem section_parts_roundtrip (text : string) :
  PyStr.join FENCE (PyStr.split FENCE text) = text
  /\ Z.of_nat (List.length (PyStr.split FENCE text))
     = PyStr.count FENCE text + 1
  /\ Forall fence_free (PyStr.split FENCE text)
  /\ PyStr.join BLANK (PyStr.split BLANK text) = text
  /\ Z.of_nat (List.length (PyStr.split BLANK text))
     = PyStr.count BLANK text + 1.
Proof.
  split; [apply join_split_roundtrip; discriminate|].
  split; [apply split_length|].
  split; [apply split_fence_free|].
  split; [apply join_split_roundtrip; discriminate|apply split_length].
Qed.

Section Titles.

Variable cfg : Config.
Variable estimate_tokens : string -> Z.
Variable P : string -> Prop.

Lemma emitted_titles st :
  split_titles P st ->
  Forall (fun c => Forall P (chunk_sections c)) (chunks st ++ [saved st]).
Proof.
  intros [Hcur Hchunks]. apply Forall_app. split; [assumption|].
  now repeat constructor.
Qed.

Lemma add_code_block_titles section part st :
  P (title section) ->
  split_titles P st ->
  split_titles P (add_code_block cfg estimate_tokens section part st).
Proof.
  intros Ht Hst. unfold add_code_block. destruct (_ >? _);
    split; cbn [chunks current_chunk_sections]; try apply Hst.
  - now repeat constructor.
  - destruct (negb _); [now apply emitted_titles|apply Hst].
Qed.

Lemma add_text_after_titles text_after st :
  split_titles P st ->
  split_titles P (add_text_after cfg estimate_tokens text_after st).
Proof.
  intro Hst. unfold add_text_after. now destruct (_ <=? _).
Qed.

Lemma code_blocks_loop_titles section (parts : list string) :
  P (title section) ->
  forall st,
  split_titles P st ->
  split_titles P (code_blocks_loop cfg estimate_tokens section parts st).
Proof.
  intro Ht.
  induction parts as [|part|part text_after parts IH] using list_pair_ind;
    intros st Hst.
  - assumption.
  - now apply add_code_block_titles.
  - change (split_titles P
              (code_blocks_loop cfg estimate_tokens section parts
                 (add_text_after cfg estimate_tokens text_after
                    (add_code_block cfg estimate_tokens section part st)))).
    now apply IH, add_text_after_titles, add_code_block_titles.
Qed.

Lemma split_section_titles st section :
  P (title section) ->
  split_titles P st ->
  split_titles P (split_section cfg estimate_tokens st section).
Proof.
  intros Ht Hst. unfold split_section. destruct (has_code section).
  - unfold split_code_section. apply code_blocks_loop_titles; [assumption|].
    split; cbn [chunks current_chunk_sections]; [now repeat constructor|].
    destruct (_ && _); cbn [chunks]; [now apply emitted_titles|apply Hst].
  - unfold split_text_section.
    assert (Happ : Forall P (current_chunk_sections st ++ [title section])).
    { apply Forall_app. split; [apply Hst|now repeat constructor]. }
    destruct (_ >? _); [destruct (_ >=? _)|];
      split; cbn [chunks current_chunk_sections];
      try assumption; try apply Hst.
    + now repeat constructor.
    + now apply emitted_titles.
Qed.

Lemma split_large_group_titles (group : list Section_) :
  Forall (fun s => P (title s)) group ->
  Forall (fun c => Forall P (chunk_sections c))
         (_split_large_group cfg estimate_tokens group).
Proof.
  intro Hgroup. unfold _split_large_group.
  assert (Hst : forall st,
            split_titles P st ->
            split_titles P
              (fold_left (split_section cfg estimate_tokens) group st)).
  { induction Hgroup as [|s group Hs _ IH]; intros st Hst; [assumption|].
    simpl. now apply IH, split_section_titles. }
  specialize (Hst (mkSplit [] "" [] 0)
                  (conj (Forall_nil _) (Forall_nil _))).
  unfold finish. destruct (negb _); [now apply emitted_titles|apply Hst].
Qed.

Lemma chunks_of_group_titles (group : list Section_) :
  Forall (fun s => P (title s)) group ->
  Forall (fun c => Forall P (chunk_sections c))
         (chunks_of_group cfg estimate_tokens group).
Proof.
  intro Hgroup. unfold chunks_of_group.
  assert (Hone : Forall (fun c => Forall P (chunk_sections c))
                   [_create_chunk_from_sections estimate_tokens group]).
  { constructor; [|constructor]. cbn [_create_chunk_from_sections
                                       chunk_sections].
    now apply Forall_map. }
  destruct (_ && _); [exact Hone|].
  destruct (_ >? _); [now apply split_large_group_titles|exact Hone].
Qed.

Lemma build_chunks_origin (groups : list (list Section_)) :
  forall (acc : list Chunk) (c : Chunk),
  In c (fold_left
          (fun chunks g =>
             (chunks ++ chunks_of_group cfg estimate_tokens g)%list)
          groups acc) ->
  In c acc
  \/ exists group,
       In group groups /\ In c (chunks_of_group cfg estimate_tokens group).
Proof.
  induction groups as [|g groups IH]; intros acc c Hc; [now left|].
  simpl in Hc. destruct (IH _ _ Hc) as [Hacc|(group & Hg & Hin)].
  - apply in_app_or in Hacc. destruct Hacc as [Hacc|Hnew]; [now left|].
    right. exists g. split; [now left|assumption].
  - right. exists group. split; [now right|assumption].
Qed.

End Titles.

(** X17: the titles a candidate lists are titles of sections of the document,
    and a candidate comes from one group: its titles are titles of
    sections of a single group. *)
Theorem candidate_titles (cfg : Config) (estimate_tokens : string -> Z)
    (sections : list Section_) (c : Chunk) :
  In c (build_chunks cfg estimate_tokens sections) ->
  exists group,
    In group (_group_related_sections sections)
    /\ forall t, In t (chunk_sections c) ->
         exists s, In s group /\ In s sections /\ title s = t.
Proof.
  intro Hc. unfold build_chunks in Hc.
  apply build_chunks_origin in Hc. destruct Hc as [[]|(group & Hg & Hc)].
  exists group. split; [assumption|].
  set (Q := fun t => exists s, In s group /\ In s sections /\ title s = t).
  assert (Hgroup : Forall (fun s => Q (title s)) group).
  { apply Forall_forall. intros s Hs. exists s.
    split; [assumption|]. split; [|reflexivity].
    eapply groups_sections; eassumption. }
  pose proof (chunks_of_group_titles cfg estimate_tokens Q group Hgroup)
    as Htitles.
  rewrite Forall_forall in Htitles. specialize (Htitles c Hc).
  now rewrite Forall_forall in Htitles.
Qed.

(** A candidate of the fenced page lists the title "B" of its second
    section. *)
Lemma candidate_titles_witness :
  exists group,
    In group (_group_related_sections doc_small_buffer)
    /\ forall t, In t ["B"] ->
         exists s, In s group /\ In s doc_small_buffer /\ title s = t.
Proof.
  apply (candidate_titles rag_config fallback_estimate_tokens
           doc_small_buffer (mkChunk "# B" ["B"] 1)).
  vm_compute. left. reflexivity.
Defined.
